(** * Licensing lifecycle, purchase settlement and authorization chains

    A shallow embedding of the service layer of the IP marketplace backend
    ([internal/services/product_service.go], which also holds the license
    service, [internal/services/authorization_service.go] and
    [internal/services/blockchain_service.go]) together with the part of
    [internal/models] those services read and write.

    Modelling conventions.
    - [uuid.UUID] is a number; [uuid.Nil] is [0].
    - Go [int]/[int64] are [Z]; [float64] is the kernel's binary64
      [PrimFloat.float], every Go operator being one correctly rounded
      operation (no fused multiply-add, as on amd64).
    - [time.Time] is an instant in [Z]; the instants read by [time.Now()]
      inside one call are identified and passed as [now].
    - A table is a finite map from primary key to row.  Soft-deleted rows are
      not represented: gorm hides them from every query used here.
    - Every [s.db....] call is one statement ([Stmt]) acting atomically on the
      store; a service method is a program of statements with early returns.
    - A column holds the Go value written to it, except the
      [decimal(10,2)] columns of [transactions], which keep it rounded to
      two decimal places ([decimal] below).
    - [db.Transaction] runs the statements of its body one by one at the
      isolation level PostgreSQL gives by default, READ COMMITTED: writes
      are private until the body returns nil and are then committed
      together; a failing body leaves the store as it was.  A read locks
      nothing: the purchase path asks for [FOR UPDATE] through the setting
      ["gorm:query_option"], which [gorm.io/gorm] does not read (a lock is
      requested there with [clause.Locking], used nowhere in the program).
    - [Save] writes the row of its argument; rows reached through a preload
      are written only where the code saves them itself.
    - Goroutines that only send notifications are left out: they touch none of
      the modelled tables. *)

From Stdlib Require Import ZArith QArith Qabs PrimFloat FloatOps SpecFloat Uint63.
From stdpp Require Import gmap strings list fin_maps.

Set Warnings "-inexact-float,-register-all,-clear-no-such-hyp".
Local Open Scope string_scope.
Local Open Scope Z_scope.
Local Open Scope list_scope.

(** ** Basic types *)

Abbreviation uuid := N (only parsing).
Definition uuid_Nil : uuid := 0%N.

Abbreviation Time := Z (only parsing).

(** [t.After(u)] of package [time]. *)
Definition After (t u : Time) : bool := u <? t.

(** [float64(n)] for a Go [int]. *)
Definition float64_of_int (n : Z) : float :=
  if n <? 0 then PrimFloat.opp (PrimFloat.of_uint63 (Uint63.of_Z (- n)))
  else PrimFloat.of_uint63 (Uint63.of_Z n).

(** The rational number a finite binary64 value denotes. *)
Definition float_to_Q (x : float) : option Q :=
  match Prim2SF x with
  | S754_zero _ => Some 0%Q
  | S754_finite s m e =>
      Some ((if s then -1 else 1) * inject_Z (Z.pos m) * Qpower 2 e)%Q
  | _ => None
  end.

(** ** Columns of type [decimal(10,2)]

    [transactions.amount] and [transactions.platform_fee] are declared
    [gorm:"type:decimal(10,2)"].  The driver sends a float64 as the shortest
    decimal that reads back as it; PostgreSQL rounds that decimal to two
    places, a tie going away from zero, and refuses a number that needs
    more than ten digits then, or an infinity ([numeric field overflow]);
    a NaN is kept.  A read gives the float64 nearest to the number kept. *)
Module decimal.

(** The largest number of cents ten digits hold: 99999999.99. *)
Definition max_cents : Z := 10 ^ 10 - 1.

(** The cents kept for the magnitude [m * 2^e] of the float64 [x]: with [c]
    whole cents in it, one more when the magnitude reaches the tie
    [(2c+1)/200], or when that tie is the decimal sent, which it is
    exactly when [x] is the float64 nearest to it.  Past the range of the
    column the whole cents are answer enough: the number is refused. *)
Definition cents_of (x : float) (m : positive) (e : Z) : Z :=
  let num := Z.pos m * 100 * 2 ^ Z.max e 0 in
  let den := 2 ^ Z.max (- e) 0 in
  let c := num / den in
  if max_cents <? c then c
  else
    let tie := PrimFloat.div (float64_of_int (2 * c + 1)) 200%float in
    if (den <=? 2 * (num mod den)) || PrimFloat.eqb tie (PrimFloat.abs x)
    then c + 1 else c.

(** What a read returns after [x] was written; [None] when the write is
    refused. *)
Definition store (x : float) : option float :=
  match Prim2SF x with
  | S754_nan => Some x
  | S754_infinity _ => None
  | S754_zero _ => Some 0%float
  | S754_finite s m e =>
      let c := cents_of x m e in
      if max_cents <? c then None
      else Some (PrimFloat.div (float64_of_int (if s then - c else c)) 100%float)
  end.

End decimal.

(** ** internal/models/common.go *)

Inductive UserType := UserTypeCreator | UserTypeSecondaryCreator | UserTypeBuyer | UserTypeAdmin.
Inductive UserStatus := UserStatusActive | UserStatusSuspended | UserStatusBanned.
Inductive VerificationStatus :=
  VerificationStatusPending | VerificationStatusApproved | VerificationStatusRejected.
Inductive ApplicationStatus :=
  ApplicationStatusPending | ApplicationStatusApproved
| ApplicationStatusRejected | ApplicationStatusRevoked.
Inductive ProductStatus :=
  ProductStatusDraft | ProductStatusActive | ProductStatusSoldOut | ProductStatusSuspended.
Inductive TransactionType :=
  TransactionTypeProductSale | TransactionTypeLicenseFee | TransactionTypeRevenueShare.
Inductive TransactionStatus :=
  TransactionStatusPending | TransactionStatusCompleted
| TransactionStatusFailed | TransactionStatusRefunded.

#[global] Instance UserType_eq_dec : EqDecision UserType.
Proof. solve_decision. Defined.
#[global] Instance UserStatus_eq_dec : EqDecision UserStatus.
Proof. solve_decision. Defined.
#[global] Instance VerificationStatus_eq_dec : EqDecision VerificationStatus.
Proof. solve_decision. Defined.
#[global] Instance ApplicationStatus_eq_dec : EqDecision ApplicationStatus.
Proof. solve_decision. Defined.
#[global] Instance ProductStatus_eq_dec : EqDecision ProductStatus.
Proof. solve_decision. Defined.
#[global] Instance TransactionStatus_eq_dec : EqDecision TransactionStatus.
Proof. solve_decision. Defined.

(** [interface{}] values as they occur in the JSONB columns. *)
Inductive JSONValue :=
| JFloat (f : float)
| JInt (n : Z)
| JString (s : string)
| JTime (t : Time)
| JUUID (u : uuid)
| JObject (fields : list (string * JSONValue)).

(** [type JSONB map[string]interface{}]; a nil map and an empty one are both [∅]. *)
Abbreviation JSONB := (gmap string JSONValue) (only parsing).

(** ** internal/models: the columns the services use

    The primary key [BaseModel.ID] is the key of the table; a row holds the
    other columns, so the Go struct is the pair of a key and a row. *)

Module User.
Record t := mk {
  UserType : UserType;
  Status : UserStatus;
}.
End User.

Module IPAsset.
Record t := mk {
  CreatorID : uuid;
  VerificationStatus : VerificationStatus;
}.
End IPAsset.

Module LicenseTerms.
Record t := mk {
  IPAssetID : uuid;
  RevenueSharePercentage : float;
  AutoApprove : bool;
  MaxLicenses : Z;  (* 0 = unlimited *)
  IsActive : bool;
}.
End LicenseTerms.

Module LicenseApplication.
Record t := mk {
  IPAssetID : uuid;
  ApplicantID : uuid;
  LicenseTermsID : uuid;
  ApplicationData : JSONB;
  Status : ApplicationStatus;
  ApprovedAt : option Time;
  ApprovedBy : option uuid;
  RejectionReason : string;
  ExpiresAt : option Time;
  IsActive : bool;
}.

Definition with_ApplicationData (a : t) (d : JSONB) : t :=
  mk (IPAssetID a) (ApplicantID a) (LicenseTermsID a) d
     (Status a) (ApprovedAt a) (ApprovedBy a) (RejectionReason a) (ExpiresAt a)
     (IsActive a).
Definition with_Status (a : t) (s : ApplicationStatus) : t :=
  mk (IPAssetID a) (ApplicantID a) (LicenseTermsID a) (ApplicationData a)
     s (ApprovedAt a) (ApprovedBy a) (RejectionReason a) (ExpiresAt a)
     (IsActive a).
Definition with_ApprovedAt (a : t) (x : option Time) : t :=
  mk (IPAssetID a) (ApplicantID a) (LicenseTermsID a) (ApplicationData a)
     (Status a) x (ApprovedBy a) (RejectionReason a) (ExpiresAt a)
     (IsActive a).
Definition with_ApprovedBy (a : t) (x : option uuid) : t :=
  mk (IPAssetID a) (ApplicantID a) (LicenseTermsID a) (ApplicationData a)
     (Status a) (ApprovedAt a) x (RejectionReason a) (ExpiresAt a)
     (IsActive a).
Definition with_RejectionReason (a : t) (x : string) : t :=
  mk (IPAssetID a) (ApplicantID a) (LicenseTermsID a) (ApplicationData a)
     (Status a) (ApprovedAt a) (ApprovedBy a) x (ExpiresAt a)
     (IsActive a).
Definition with_IsActive (a : t) (x : bool) : t :=
  mk (IPAssetID a) (ApplicantID a) (LicenseTermsID a) (ApplicationData a)
     (Status a) (ApprovedAt a) (ApprovedBy a) (RejectionReason a) (ExpiresAt a)
     x.
End LicenseApplication.

Module Product.
Record t := mk {
  CreatorID : uuid;
  LicenseID : uuid;
  Price : float;
  InventoryCount : Z;
  Status : ProductStatus;
  SalesCount : Z;
}.

Definition with_InventoryCount (p : t) (n : Z) : t :=
  mk (CreatorID p) (LicenseID p) (Price p) n (Status p) (SalesCount p).
Definition with_SalesCount (p : t) (n : Z) : t :=
  mk (CreatorID p) (LicenseID p) (Price p) (InventoryCount p) (Status p) n.
End Product.

Module Transaction.
Record t := mk {
  TransactionType : TransactionType;
  BuyerID : uuid;
  SellerID : uuid;
  ProductID : option uuid;
  Amount : float;
  PlatformFee : float;
  RevenueShares : JSONB;
  PaymentMethod : string;
  Status : TransactionStatus;
  ProcessedAt : option Time;
}.

Definition with_Amount (x : t) (a : float) : t :=
  mk (TransactionType x) (BuyerID x) (SellerID x) (ProductID x) a
     (PlatformFee x) (RevenueShares x) (PaymentMethod x) (Status x) (ProcessedAt x).
Definition with_PlatformFee (x : t) (f : float) : t :=
  mk (TransactionType x) (BuyerID x) (SellerID x) (ProductID x) (Amount x)
     f (RevenueShares x) (PaymentMethod x) (Status x) (ProcessedAt x).
Definition with_RevenueShares (x : t) (r : JSONB) : t :=
  mk (TransactionType x) (BuyerID x) (SellerID x) (ProductID x) (Amount x)
     (PlatformFee x) r (PaymentMethod x) (Status x) (ProcessedAt x).
Definition with_Status (x : t) (s : TransactionStatus) : t :=
  mk (TransactionType x) (BuyerID x) (SellerID x) (ProductID x) (Amount x)
     (PlatformFee x) (RevenueShares x) (PaymentMethod x) s (ProcessedAt x).
Definition with_ProcessedAt (x : t) (p : option Time) : t :=
  mk (TransactionType x) (BuyerID x) (SellerID x) (ProductID x) (Amount x)
     (PlatformFee x) (RevenueShares x) (PaymentMethod x) (Status x) p.

(** The row the store keeps when [x] is written to [transactions], as a
    read returns it: [amount] and [platform_fee] are [decimal(10,2)]
    columns.  [None] when one of them refuses its value. *)
Definition stored (x : t) : option t :=
  match decimal.store (Amount x), decimal.store (PlatformFee x) with
  | Some amount, Some platformFee => Some (with_PlatformFee (with_Amount x amount) platformFee)
  | _, _ => None
  end.
End Transaction.

Module AuthorizationChain.
Record t := mk {
  ProductID : uuid;
  IPAssetID : uuid;
  LicenseID : uuid;
  ParentChainID : option uuid;
  BlockchainHash : string;
  VerificationCode : string;
  IsActive : bool;
}.

Definition with_IsActive (c : t) (b : bool) : t :=
  mk (ProductID c) (IPAssetID c) (LicenseID c) (ParentChainID c)
     (BlockchainHash c) (VerificationCode c) b.
End AuthorizationChain.

(** ** The relational store behind [*gorm.DB] *)

Record DB := mkDB {
  users : gmap uuid User.t;
  ip_assets : gmap uuid IPAsset.t;
  license_terms : gmap uuid LicenseTerms.t;
  license_applications : gmap uuid LicenseApplication.t;
  products : gmap uuid Product.t;
  transactions : gmap uuid Transaction.t;
  authorization_chains : gmap uuid AuthorizationChain.t;
}.

Definition with_license_applications (db : DB) (m : gmap uuid LicenseApplication.t) : DB :=
  mkDB (users db) (ip_assets db) (license_terms db) m (products db)
       (transactions db) (authorization_chains db).
Definition with_products (db : DB) (m : gmap uuid Product.t) : DB :=
  mkDB (users db) (ip_assets db) (license_terms db) (license_applications db) m
       (transactions db) (authorization_chains db).
Definition with_transactions (db : DB) (m : gmap uuid Transaction.t) : DB :=
  mkDB (users db) (ip_assets db) (license_terms db) (license_applications db)
       (products db) m (authorization_chains db).
Definition with_authorization_chains (db : DB) (m : gmap uuid AuthorizationChain.t) : DB :=
  mkDB (users db) (ip_assets db) (license_terms db) (license_applications db)
       (products db) (transactions db) m.

(** ** Errors *)

Inductive error :=
| errors_New (msg : string)                    (* errors.New(msg) *)
| fmt_Errorf (prefix : string) (cause : error) (* fmt.Errorf(prefix + "%w", cause) *)
| ErrRecordNotFound                            (* gorm.ErrRecordNotFound *)
| ErrDuplicatedKey                             (* primary key already present *)
| ErrWriteFailed                               (* any other failure of a write *)
| ValidationErrors.                            (* validator.ValidationErrors *)

Inductive Result (A : Type) :=
| Ok (a : A)
| Err (e : error).
Arguments Ok {A} a.
Arguments Err {A} e.

Definition is_Ok {A} (r : Result A) : bool :=
  match r with Ok _ => true | Err _ => false end.

(** ** Programs over the store *)

Inductive Prog (A : Type) : Type :=
| Return (a : A)
| Fail (e : error)
| Stmt {X : Type} (q : DB -> X * DB) (k : X -> Prog A).
Arguments Return {A} a.
Arguments Fail {A} e.
Arguments Stmt {A X} q k.

Fixpoint bind {A B} (f : A -> Prog B) (p : Prog A) : Prog B :=
  match p with
  | Return a => f a
  | Fail e => Fail e
  | Stmt q k => Stmt q (fun x => bind f (k x))
  end.

#[global] Instance Prog_ret : MRet Prog := @Return.
#[global] Instance Prog_bind : MBind Prog := @bind.

(** A call running alone: statements execute one after the other. *)
Fixpoint run {A} (p : Prog A) (db : DB) : Result A * DB :=
  match p with
  | Return a => (Ok a, db)
  | Fail e => (Err e, db)
  | Stmt q k => let '(x, db') := q db in run (k x) db'
  end.

(** The store after each statement of the call, in order: what a read by
    another session can see while the call is under way. *)
Fixpoint trace {A} (p : Prog A) (db : DB) : list DB :=
  match p with
  | Stmt q k => let '(x, db') := q db in db' :: trace (k x) db'
  | _ => []
  end.

(** One statement of a call that shares the store with other calls. *)
Definition step {A} (p : Prog A) (db : DB) : Prog A * DB :=
  match p with
  | Stmt q k => let '(x, db') := q db in (k x, db')
  | _ => (p, db)
  end.

(** Two calls in flight; [false] schedules the first, [true] the second. *)
Fixpoint interleave {A B} (sched : list bool) (p : Prog A) (q : Prog B) (db : DB)
  : Prog A * Prog B * DB :=
  match sched with
  | [] => (p, q, db)
  | false :: sched' => let '(p', db') := step p db in interleave sched' p' q db'
  | true :: sched' => let '(q', db') := step q db in interleave sched' p q' db'
  end.

(** [v, err := f(...)] inspected by the caller instead of returned. *)
Fixpoint catch {A} (p : Prog A) : Prog (Result A) :=
  match p with
  | Return a => Return (Ok a)
  | Fail e => Return (Err e)
  | Stmt q k => Stmt q (fun x => catch (k x))
  end.

Definition returned {A} (p : Prog A) : option (Result A) :=
  match p with
  | Return a => Some (Ok a)
  | Fail e => Some (Err e)
  | Stmt _ _ => None
  end.

(** [if cond { return nil, err }] *)
Definition reject_if (cond : bool) (e : error) : Prog unit :=
  if cond then Fail e else Return tt.

(** ** gorm: the statements the services issue *)

Module gorm.

(** [db.First(&row, id)]; [None] stands for [gorm.ErrRecordNotFound]. *)
Definition First {R} (tbl : DB -> gmap uuid R) (id : uuid) : Prog (option R) :=
  Stmt (fun db => (tbl db !! id, db)) Return.

(** The rows a [Where] clause keeps; [P id row] may mention the key. *)
Definition Where {R} (P : uuid -> R -> Prop) `{!forall id r, Decision (P id r)}
  (m : gmap uuid R) : gmap uuid R :=
  filter (fun kv => P kv.1 kv.2) m.

(** [First] orders by primary key and takes one row. *)
Definition first_by_key {R} (l : list (uuid * R)) : option (uuid * R) :=
  foldr (fun x acc =>
           match acc with
           | Some y => if (x.1 <? y.1)%N then Some x else Some y
           | None => Some x
           end) None l.

(** [db.Where(P).First(&row)] *)
Definition first_where {R} (P : uuid -> R -> Prop) `{!forall id r, Decision (P id r)}
  (m : gmap uuid R) : option (uuid * R) :=
  first_by_key (map_to_list (Where P m)).

Definition FirstWhere {R} (tbl : DB -> gmap uuid R)
  (P : uuid -> R -> Prop) `{!forall id r, Decision (P id r)} : Prog (option (uuid * R)) :=
  Stmt (fun db => (first_where P (tbl db), db)) Return.

(** [db.Model(&R{}).Where(P).Count(&n)] *)
Definition count {R} (P : uuid -> R -> Prop) `{!forall id r, Decision (P id r)}
  (m : gmap uuid R) : Z :=
  Z.of_nat (size (Where P m)).

Definition Count {R} (tbl : DB -> gmap uuid R)
  (P : uuid -> R -> Prop) `{!forall id r, Decision (P id r)} : Prog Z :=
  Stmt (fun db => (count P (tbl db), db)) Return.

(** [db.Create(&row)]: the store assigns the primary key [id]; a key that
    is already taken violates the primary-key constraint. *)
Definition Create {R} (tbl : DB -> gmap uuid R) (set : DB -> gmap uuid R -> DB)
  (id : uuid) (row : R) : Prog (option error) :=
  Stmt (fun db =>
          match tbl db !! id with
          | Some _ => (Some ErrDuplicatedKey, db)
          | None => (None, set db (<[id := row]> (tbl db)))
          end) Return.

(** [db.Save(&row)]: every column of the row with that key is written. *)
Definition Save {R} (tbl : DB -> gmap uuid R) (set : DB -> gmap uuid R -> DB)
  (id : uuid) (row : R) : Prog unit :=
  Stmt (fun db => (tt, set db (<[id := row]> (tbl db)))) Return.

(** [db.Model(&row).UpdateColumn(col, gorm.Expr(...))]: the expression is
    evaluated by the store on the row's current value. *)
Definition UpdateColumn {R} (tbl : DB -> gmap uuid R) (set : DB -> gmap uuid R -> DB)
  (id : uuid) (f : R -> R) : Prog unit :=
  Stmt (fun db => (tt, set db (alter f id (tbl db)))) Return.

(** The body of a transaction from one of its statements on; [pending]
    replays on a store the writes the body has made so far.  A statement
    reads the store as committed at that moment with those writes on top;
    its own writes join them.  [Return] is [COMMIT]: the writes reach the
    store together, an [UPDATE] by expression acting on the row as it then
    is.  [Fail] is [ROLLBACK]: they are dropped.  Locks are not
    represented: a schedule in which two sessions hold uncommitted writes
    to one row is one the database would delay. *)
Fixpoint in_transaction {A} (body : Prog A) (pending : DB -> DB) : Prog A :=
  match body with
  | Return a => Stmt (fun db => (tt, pending db)) (fun _ => Return a)
  | Fail e => Fail e
  | Stmt q k =>
      Stmt (fun db => ((q (pending db)).1, db))
           (fun x => in_transaction (k x) (fun db => (q (pending db)).2))
  end.

(** [db.Transaction(func(tx) error {...})] *)
Definition Transaction {A} (body : Prog A) : Prog A :=
  in_transaction body (fun db => db).

End gorm.

(** ** The WHERE clauses of the services' queries *)

Module sql.

(** ["id = ? AND ip_asset_id = ? AND is_active = ?", termsID, assetID, true] *)
Definition active_terms (termsID assetID : uuid) (id : uuid) (t : LicenseTerms.t) : Prop :=
  id = termsID /\ LicenseTerms.IPAssetID t = assetID /\ LicenseTerms.IsActive t = true.

(** ["ip_asset_id = ? AND applicant_id = ? AND status IN (?, ?)",
     assetID, applicantID, pending, approved] *)
Definition open_application (assetID applicantID : uuid)
  (id : uuid) (a : LicenseApplication.t) : Prop :=
  LicenseApplication.IPAssetID a = assetID
  /\ LicenseApplication.ApplicantID a = applicantID
  /\ (LicenseApplication.Status a = ApplicationStatusPending
      \/ LicenseApplication.Status a = ApplicationStatusApproved).

(** ["license_terms_id = ? AND status = ?", termsID, approved] *)
Definition approved_under (termsID : uuid) (id : uuid) (a : LicenseApplication.t) : Prop :=
  LicenseApplication.LicenseTermsID a = termsID
  /\ LicenseApplication.Status a = ApplicationStatusApproved.

(** ["license_terms_id = ? AND status = ? AND id != ?", termsID, approved, appID] *)
Definition approved_under_except (termsID appID : uuid)
  (id : uuid) (a : LicenseApplication.t) : Prop :=
  LicenseApplication.LicenseTermsID a = termsID
  /\ LicenseApplication.Status a = ApplicationStatusApproved
  /\ id <> appID.

(** ["license_id = ? AND status IN (?, ?)", licenseID, active, draft] *)
Definition product_in_use (licenseID : uuid) (id : uuid) (p : Product.t) : Prop :=
  Product.LicenseID p = licenseID
  /\ (Product.Status p = ProductStatusActive \/ Product.Status p = ProductStatusDraft).

(** ["verification_code = ? AND is_active = ?", code, true] *)
Definition active_chain_with_code (code : string)
  (id : uuid) (c : AuthorizationChain.t) : Prop :=
  AuthorizationChain.VerificationCode c = code /\ AuthorizationChain.IsActive c = true.

#[global] Instance active_terms_dec termsID assetID id t :
  Decision (active_terms termsID assetID id t).
Proof. unfold active_terms. apply _. Defined.
#[global] Instance open_application_dec assetID applicantID id a :
  Decision (open_application assetID applicantID id a).
Proof. unfold open_application. apply _. Defined.
#[global] Instance approved_under_dec termsID id a :
  Decision (approved_under termsID id a).
Proof. unfold approved_under. apply _. Defined.
#[global] Instance approved_under_except_dec termsID appID id a :
  Decision (approved_under_except termsID appID id a).
Proof. unfold approved_under_except. apply _. Defined.
#[global] Instance product_in_use_dec licenseID id p :
  Decision (product_in_use licenseID id p).
Proof. unfold product_in_use. apply _. Defined.
#[global] Instance active_chain_with_code_dec code id c :
  Decision (active_chain_with_code code id c).
Proof. unfold active_chain_with_code. apply _. Defined.

End sql.

(** ** internal/utils/validator.go with the request types' tags *)

Module PurchaseProductRequest.
Record t := mk {
  Quantity : Z;                 (* validate:"required,min=1" *)
  PaymentMethod : string;       (* validate:"required" *)
  ShippingInfo : option (list (string * JSONValue));
  Notes : string;
}.
End PurchaseProductRequest.

Module ApplyLicenseRequest.
Record t := mk {
  IPAssetID : uuid;             (* validate:"required" *)
  LicenseTermsID : uuid;        (* validate:"required" *)
  ApplicationData : JSONB;      (* nil when omitted *)
  Message : string;
}.
End ApplyLicenseRequest.

Module ApproveLicenseRequest.
Record t := mk {
  Message : string;
}.
End ApproveLicenseRequest.

Module RejectLicenseRequest.
Record t := mk {
  Reason : string;              (* validate:"required" *)
  Message : string;
}.
End RejectLicenseRequest.

Module RevokeLicenseRequest.
Record t := mk {
  Reason : string;              (* validate:"required" *)
  Message : string;
}.
End RevokeLicenseRequest.

(** [utils.ValidateStruct(req)], one function per request type: [required]
    rejects the zero value, [min=1] a number below one. *)
Module utils.
Definition ValidatePurchaseProductRequest (req : PurchaseProductRequest.t) : bool :=
  (1 <=? PurchaseProductRequest.Quantity req)
  && negb (String.eqb (PurchaseProductRequest.PaymentMethod req) "").
Definition ValidateApplyLicenseRequest (req : ApplyLicenseRequest.t) : bool :=
  negb (ApplyLicenseRequest.IPAssetID req =? uuid_Nil)%N
  && negb (ApplyLicenseRequest.LicenseTermsID req =? uuid_Nil)%N.
Definition ValidateRejectLicenseRequest (req : RejectLicenseRequest.t) : bool :=
  negb (String.eqb (RejectLicenseRequest.Reason req) "").
Definition ValidateRevokeLicenseRequest (req : RevokeLicenseRequest.t) : bool :=
  negb (String.eqb (RevokeLicenseRequest.Reason req) "").
End utils.

(** ** ProductService (internal/services/product_service.go) *)

(** A product as [Preload("License").Preload("License.IPAsset").
    Preload("License.LicenseTerms")] returns it.  A relation whose row is
    missing is left at its zero value, here [None]. *)
Module PreloadedProduct.
Record t := mk {
  product : Product.t;
  License : option LicenseApplication.t;
  License_IPAsset : option IPAsset.t;
  License_LicenseTerms : option LicenseTerms.t;
}.
End PreloadedProduct.

(** What can go wrong with a write inside the purchase transaction after
    the checks have passed. *)
Inductive Fault := NoFault | CreateFails | InventoryUpdateFails | SalesUpdateFails.

#[global] Instance Fault_eq_dec : EqDecision Fault.
Proof. solve_decision. Defined.

Module ProductService.

Definition preload (db : DB) (p : Product.t) : PreloadedProduct.t :=
  let license := license_applications db !! Product.LicenseID p in
  PreloadedProduct.mk p license
    (l ← license; ip_assets db !! LicenseApplication.IPAssetID l)
    (l ← license; license_terms db !! LicenseApplication.LicenseTermsID l).

(** [tx.Set("gorm:query_option", "FOR UPDATE").Preload(...).First(&product, productID)]:
    a plain read, the setting being one no part of [gorm.io/gorm] looks up. *)
Definition load_product (productID : uuid) : Prog (option PreloadedProduct.t) :=
  Stmt (fun db => (preload db <$> products db !! productID, db)) Return.

Definition calculateRevenueShares (totalAmount platformFee : float)
  (product : PreloadedProduct.t) : JSONB :=
  let netAmount := PrimFloat.sub totalAmount platformFee in
  (* Get revenue share percentage from license terms *)
  let revenueSharePercent :=
    from_option LicenseTerms.RevenueSharePercentage 0%float
      (PreloadedProduct.License_LicenseTerms product) in
  (* Calculate shares *)
  let ipCreatorShare :=
    PrimFloat.mul netAmount (PrimFloat.div revenueSharePercent 100%float) in
  let secondaryCreatorShare := PrimFloat.sub netAmount ipCreatorShare in
  list_to_map [
    ("total_amount", JFloat totalAmount);
    ("platform_fee", JFloat platformFee);
    ("net_amount", JFloat netAmount);
    ("ip_creator_share", JFloat ipCreatorShare);
    ("secondary_creator_share", JFloat secondaryCreatorShare);
    ("ip_creator_id",
      JUUID (from_option IPAsset.CreatorID uuid_Nil
               (PreloadedProduct.License_IPAsset product)));
    ("secondary_creator_id", JUUID (Product.CreatorID (PreloadedProduct.product product)));
    ("revenue_share_percent", JFloat revenueSharePercent)
  ].

(** Lines 387-419 of [purchaseProductTransaction]: the transaction about
    to be created. *)
Definition new_transaction (productID buyerID : uuid) (req : PurchaseProductRequest.t)
  (loaded : PreloadedProduct.t) : Transaction.t :=
  let product := PreloadedProduct.product loaded in
  (* Calculate amounts *)
  let totalAmount :=
    PrimFloat.mul (Product.Price product)
      (float64_of_int (PurchaseProductRequest.Quantity req)) in
  let platformFeePercent := 5%float in (* This should come from settings *)
  let platformFee :=
    PrimFloat.mul totalAmount (PrimFloat.div platformFeePercent 100%float) in
  (* Calculate revenue shares *)
  let revenueShares := calculateRevenueShares totalAmount platformFee loaded in
  (* Create transaction *)
  let transaction :=
    Transaction.mk TransactionTypeProductSale buyerID
      (Product.CreatorID product) (Some productID) totalAmount platformFee
      revenueShares (PurchaseProductRequest.PaymentMethod req)
      TransactionStatusPending None in
  (* Add shipping info and notes to transaction metadata *)
  if bool_decide (PurchaseProductRequest.ShippingInfo req <> None)
     || negb (String.eqb (PurchaseProductRequest.Notes req) "")
  then
    let metadata :=
      match PurchaseProductRequest.ShippingInfo req with
      | Some info => [("shipping_info", JObject info)]
      | None => []
      end
      ++ (if negb (String.eqb (PurchaseProductRequest.Notes req) "")
          then [("notes", JString (PurchaseProductRequest.Notes req))]
          else [])
      ++ [("quantity", JInt (PurchaseProductRequest.Quantity req))] in
    Transaction.with_RevenueShares transaction
      (<["metadata" := JObject metadata]> (Transaction.RevenueShares transaction))
  else transaction.

(** The closure passed to [s.db.Transaction]. *)
Definition purchase_body (newID : uuid) (fault : Fault)
  (productID buyerID : uuid) (req : PurchaseProductRequest.t) : Prog Transaction.t :=
  (* Lock and get product *)
  loaded ← load_product productID;
  match loaded with
  | None => Fail (errors_New "product not found")
  | Some loaded =>
      let product := PreloadedProduct.product loaded in
      (* Verify product is active and available *)
      reject_if (bool_decide (Product.Status product <> ProductStatusActive))
        (errors_New "product is not available for purchase");;
      reject_if (Product.InventoryCount product <? PurchaseProductRequest.Quantity req)
        (errors_New "insufficient inventory");;
      (* Verify buyer exists and is active *)
      buyer ← gorm.First users buyerID;
      match buyer with
      | None => Fail (fmt_Errorf "buyer not found: " ErrRecordNotFound)
      | Some buyer =>
          reject_if (bool_decide (User.Status buyer <> UserStatusActive))
            (errors_New "buyer account is not active");;
          let transaction := new_transaction productID buyerID req loaded in
          err ← (if bool_decide (fault = CreateFails) then Return (Some ErrWriteFailed)
                 else
                   match Transaction.stored transaction with
                   | Some row => gorm.Create transactions with_transactions newID row
                   | None => Return (Some ErrWriteFailed) (* numeric field overflow *)
                   end);
          match err with
          | Some err => Fail (fmt_Errorf "failed to create transaction: " err)
          | None =>
              (* Update product inventory *)
              reject_if (bool_decide (fault = InventoryUpdateFails))
                (fmt_Errorf "failed to update inventory: " ErrWriteFailed);;
              gorm.UpdateColumn products with_products productID
                (fun p => Product.with_InventoryCount p
                   (Product.InventoryCount p - PurchaseProductRequest.Quantity req));;
              (* Update sales count *)
              reject_if (bool_decide (fault = SalesUpdateFails))
                (fmt_Errorf "failed to update sales count: " ErrWriteFailed);;
              gorm.UpdateColumn products with_products productID
                (fun p => Product.with_SalesCount p
                   (Product.SalesCount p + PurchaseProductRequest.Quantity req));;
              Return transaction
          end
      end
  end.

Definition purchaseProductTransaction (newID : uuid) (fault : Fault)
  (productID buyerID : uuid) (req : PurchaseProductRequest.t) : Prog Transaction.t :=
  transaction ← gorm.Transaction (purchase_body newID fault productID buyerID req);
  (* go s.processPayment(transaction) is [processPayment] below *)
  (* Load full transaction data *)
  reloaded ← gorm.First transactions newID;
  Return (default transaction reloaded).

Definition PurchaseProduct (newID : uuid) (fault : Fault)
  (productID buyerID : uuid) (req : PurchaseProductRequest.t) : Prog Transaction.t :=
  (* Validate request *)
  reject_if (negb (utils.ValidatePurchaseProductRequest req))
    (fmt_Errorf "validation failed: " ValidationErrors);;
  (* Start transaction *)
  purchaseProductTransaction newID fault productID buyerID req.

(** The goroutine started by a successful purchase, on the transaction
    (key [id]) that purchase returned: the struct holds the row as it was
    read back from the store, so [Save] writes to the decimal columns the
    numbers they hold already. *)
Definition processPayment (now : Time) (id : uuid) (transaction : Transaction.t)
  : Prog unit :=
  let transaction := Transaction.with_Status transaction TransactionStatusCompleted in
  let transaction := Transaction.with_ProcessedAt transaction (Some now) in
  gorm.Save transactions with_transactions id transaction.

End ProductService.

(** ** LicenseService (internal/services/product_service.go, second half) *)

(** An application as [Preload("IPAsset").Preload("LicenseTerms")] returns it. *)
Module PreloadedApplication.
Record t := mk {
  application : LicenseApplication.t;
  IPAsset : option IPAsset.t;
  LicenseTerms : option LicenseTerms.t;
}.
End PreloadedApplication.

Module LicenseService.

Definition load_application (id : uuid) : Prog (option PreloadedApplication.t) :=
  Stmt (fun db =>
          (match license_applications db !! id with
           | None => None
           | Some a =>
               Some (PreloadedApplication.mk a
                       (ip_assets db !! LicenseApplication.IPAssetID a)
                       (license_terms db !! LicenseApplication.LicenseTermsID a))
           end, db)) Return.

(** [if application.IPAsset.CreatorID != actorID { ... must be an admin ... }] *)
Definition creator_or_admin (loaded : PreloadedApplication.t) (actorID : uuid)
  (unauthorized : error) : Prog unit :=
  if bool_decide (from_option IPAsset.CreatorID uuid_Nil
                    (PreloadedApplication.IPAsset loaded) <> actorID)
  then
    actor ← gorm.First users actorID;
    match actor with
    | None => Fail unauthorized
    | Some actor =>
        reject_if (bool_decide (User.UserType actor <> UserTypeAdmin)) unauthorized
    end
  else Return tt.

(** Lines 756-782 of [ApplyForLicense]: the application about to be saved. *)
Definition new_application (now : Time) (applicantID : uuid)
  (req : ApplyLicenseRequest.t) (licenseTerms : LicenseTerms.t) (ipAsset : IPAsset.t)
  : LicenseApplication.t :=
  (* Prepare application data *)
  let applicationData := ApplyLicenseRequest.ApplicationData req in
  let applicationData :=
    if negb (String.eqb (ApplyLicenseRequest.Message req) "")
    then <["message" := JString (ApplyLicenseRequest.Message req)]> applicationData
    else applicationData in
  let applicationData := <["applied_at" := JTime now]> applicationData in
  (* Create license application *)
  let application :=
    LicenseApplication.mk (ApplyLicenseRequest.IPAssetID req) applicantID
      (ApplyLicenseRequest.LicenseTermsID req) applicationData
      ApplicationStatusPending None None "" None true in
  (* Auto-approve if enabled *)
  if LicenseTerms.AutoApprove licenseTerms then
    let application :=
      LicenseApplication.with_Status application ApplicationStatusApproved in
    let application := LicenseApplication.with_ApprovedAt application (Some now) in
    (* Auto-approved by system *)
    LicenseApplication.with_ApprovedBy application (Some (IPAsset.CreatorID ipAsset))
  else application.

Definition ApplyForLicense (newID : uuid) (now : Time)
  (applicantID : uuid) (req : ApplyLicenseRequest.t) : Prog LicenseApplication.t :=
  (* Validate request *)
  reject_if (negb (utils.ValidateApplyLicenseRequest req))
    (fmt_Errorf "validation failed: " ValidationErrors);;
  (* Verify applicant exists and is eligible *)
  applicant ← gorm.First users applicantID;
  match applicant with
  | None => Fail (fmt_Errorf "applicant not found: " ErrRecordNotFound)
  | Some applicant =>
  reject_if (bool_decide (User.Status applicant <> UserStatusActive))
    (errors_New "applicant account is not active");;
  reject_if (bool_decide (User.UserType applicant <> UserTypeSecondaryCreator
                          /\ User.UserType applicant <> UserTypeCreator))
    (errors_New "only secondary creators and creators can apply for licenses");;
  (* Get IP asset and license terms *)
  ipAsset ← gorm.First ip_assets (ApplyLicenseRequest.IPAssetID req);
  match ipAsset with
  | None => Fail (errors_New "IP asset not found")
  | Some ipAsset =>
  (* Check if IP asset is approved *)
  reject_if (bool_decide (IPAsset.VerificationStatus ipAsset <> VerificationStatusApproved))
    (errors_New "IP asset is not approved for licensing");;
  (* Check if applicant is trying to license their own IP *)
  reject_if (bool_decide (IPAsset.CreatorID ipAsset = applicantID))
    (errors_New "cannot apply for license on your own IP asset");;
  (* Get license terms *)
  licenseTerms ← gorm.FirstWhere license_terms
    (sql.active_terms (ApplyLicenseRequest.LicenseTermsID req)
       (ApplyLicenseRequest.IPAssetID req));
  match licenseTerms with
  | None => Fail (errors_New "license terms not found or inactive")
  | Some (_, licenseTerms) =>
  (* Check if applicant already has an active or pending application *)
  existingApp ← gorm.FirstWhere license_applications
    (sql.open_application (ApplyLicenseRequest.IPAssetID req) applicantID);
  match existingApp with
  | Some (_, existingApp) =>
      if bool_decide (LicenseApplication.Status existingApp = ApplicationStatusApproved)
      then Fail (errors_New "you already have an approved license for this IP asset")
      else Fail (errors_New "you already have a pending application for this IP asset")
  | None =>
  (* Check license limit *)
  (if 0 <? LicenseTerms.MaxLicenses licenseTerms then
     approvedCount ← gorm.Count license_applications
       (sql.approved_under (ApplyLicenseRequest.LicenseTermsID req));
     reject_if (LicenseTerms.MaxLicenses licenseTerms <=? approvedCount)
       (errors_New "license limit reached for this license terms")
   else Return tt);;
  let application := new_application now applicantID req licenseTerms ipAsset in
  (* Save application *)
  err ← gorm.Create license_applications with_license_applications newID application;
  match err with
  | Some err => Fail (fmt_Errorf "failed to create license application: " err)
  | None =>
  (* Load relationships *)
  reloaded ← gorm.First license_applications newID;
  Return (default application reloaded)
  end end end end end.

(** Lines 840-853 of [ApproveLicense]: the application about to be saved. *)
Definition approved_application (now : Time) (approverID : uuid)
  (req : ApproveLicenseRequest.t) (application : LicenseApplication.t)
  : LicenseApplication.t :=
  (* Update application *)
  let application := LicenseApplication.with_Status application ApplicationStatusApproved in
  let application := LicenseApplication.with_ApprovedAt application (Some now) in
  let application := LicenseApplication.with_ApprovedBy application (Some approverID) in
  (* Update application data with approval message *)
  if negb (String.eqb (ApproveLicenseRequest.Message req) "") then
    LicenseApplication.with_ApplicationData application
      (<["approved_at" := JTime now]>
         (<["approval_message" := JString (ApproveLicenseRequest.Message req)]>
            (LicenseApplication.ApplicationData application)))
  else application.

(** Lines 897-908 of [RejectLicense]. *)
Definition rejected_application (now : Time) (rejecterID : uuid)
  (req : RejectLicenseRequest.t) (application : LicenseApplication.t)
  : LicenseApplication.t :=
  (* Update application *)
  let application := LicenseApplication.with_Status application ApplicationStatusRejected in
  let application :=
    LicenseApplication.with_RejectionReason application (RejectLicenseRequest.Reason req) in
  (* Update application data with rejection details *)
  LicenseApplication.with_ApplicationData application
    (<["rejected_by" := JUUID rejecterID]>
       (<["rejected_at" := JTime now]>
          (<["rejection_message" := JString (RejectLicenseRequest.Message req)]>
             (<["rejection_reason" := JString (RejectLicenseRequest.Reason req)]>
                (LicenseApplication.ApplicationData application))))).

(** Lines 965-976 of [RevokeLicense]. *)
Definition revoked_application (now : Time) (revokerID : uuid)
  (req : RevokeLicenseRequest.t) (application : LicenseApplication.t)
  : LicenseApplication.t :=
  (* Update application *)
  let application := LicenseApplication.with_Status application ApplicationStatusRevoked in
  let application := LicenseApplication.with_IsActive application false in
  (* Update application data with revocation details *)
  LicenseApplication.with_ApplicationData application
    (<["revoked_by" := JUUID revokerID]>
       (<["revoked_at" := JTime now]>
          (<["revocation_message" := JString (RevokeLicenseRequest.Message req)]>
             (<["revocation_reason" := JString (RevokeLicenseRequest.Reason req)]>
                (LicenseApplication.ApplicationData application))))).

Definition ApproveLicense (now : Time) (applicationID approverID : uuid)
  (req : ApproveLicenseRequest.t) : Prog LicenseApplication.t :=
  (* Find application *)
  loaded ← load_application applicationID;
  match loaded with
  | None => Fail (errors_New "license application not found")
  | Some loaded =>
  let application := PreloadedApplication.application loaded in
  (* Verify approver is the IP creator or admin *)
  creator_or_admin loaded approverID (errors_New "unauthorized to approve license");;
  (* Check if already processed *)
  reject_if (bool_decide (LicenseApplication.Status application <> ApplicationStatusPending))
    (errors_New "license application already processed");;
  (* Check license limit *)
  let MaxLicenses :=
    from_option LicenseTerms.MaxLicenses 0 (PreloadedApplication.LicenseTerms loaded) in
  (if 0 <? MaxLicenses then
     approvedCount ← gorm.Count license_applications
       (sql.approved_under_except (LicenseApplication.LicenseTermsID application)
          applicationID);
     reject_if (MaxLicenses <=? approvedCount) (errors_New "license limit reached")
   else Return tt);;
  let application := approved_application now approverID req application in
  gorm.Save license_applications with_license_applications applicationID application;;
  Return application
  end.

Definition RejectLicense (now : Time) (applicationID rejecterID : uuid)
  (req : RejectLicenseRequest.t) : Prog LicenseApplication.t :=
  (* Validate request *)
  reject_if (negb (utils.ValidateRejectLicenseRequest req))
    (fmt_Errorf "validation failed: " ValidationErrors);;
  (* Find application *)
  loaded ← load_application applicationID;
  match loaded with
  | None => Fail (errors_New "license application not found")
  | Some loaded =>
  let application := PreloadedApplication.application loaded in
  (* Verify rejecter is the IP creator or admin *)
  creator_or_admin loaded rejecterID (errors_New "unauthorized to reject license");;
  (* Check if already processed *)
  reject_if (bool_decide (LicenseApplication.Status application <> ApplicationStatusPending))
    (errors_New "license application already processed");;
  let application := rejected_application now rejecterID req application in
  gorm.Save license_applications with_license_applications applicationID application;;
  Return application
  end.

Definition RevokeLicense (now : Time) (applicationID revokerID : uuid)
  (req : RevokeLicenseRequest.t) : Prog LicenseApplication.t :=
  (* Validate request *)
  reject_if (negb (utils.ValidateRevokeLicenseRequest req))
    (fmt_Errorf "validation failed: " ValidationErrors);;
  (* Find application *)
  loaded ← load_application applicationID;
  match loaded with
  | None => Fail (errors_New "license application not found")
  | Some loaded =>
  let application := PreloadedApplication.application loaded in
  (* Verify revoker is the IP creator or admin *)
  creator_or_admin loaded revokerID (errors_New "unauthorized to revoke license");;
  (* Check if license is approved *)
  reject_if (bool_decide (LicenseApplication.Status application <> ApplicationStatusApproved))
    (errors_New "can only revoke approved licenses");;
  (* Check if there are active products using this license *)
  productCount ← gorm.Count products (sql.product_in_use applicationID);
  reject_if (0 <? productCount) (errors_New "cannot revoke license with active products");;
  let application := revoked_application now revokerID req application in
  gorm.Save license_applications with_license_applications applicationID application;;
  Return application
  end.

Definition VerifyLicense (now : Time) (licenseID : uuid) : Prog LicenseApplication.t :=
  loaded ← load_application licenseID;
  match loaded with
  | None => Fail (errors_New "license not found")
  | Some loaded =>
  let license := PreloadedApplication.application loaded in
  (* Check if license is active and approved *)
  reject_if (bool_decide (LicenseApplication.Status license <> ApplicationStatusApproved)
             || negb (LicenseApplication.IsActive license))
    (errors_New "license is not active");;
  (* Check expiration if applicable *)
  reject_if (match LicenseApplication.ExpiresAt license with
             | Some ExpiresAt => After now ExpiresAt
             | None => false
             end)
    (errors_New "license has expired");;
  Return license
  end.

End LicenseService.

(** ** BlockchainService (internal/services/blockchain_service.go) *)

(** A chain as [Preload("IPAsset").Preload("License")] returns it. *)
Module PreloadedChain.
Record t := mk {
  authChain : AuthorizationChain.t;
  IPAsset : option IPAsset.t;
  License : option LicenseApplication.t;
}.
End PreloadedChain.

Definition load_chain (id : uuid) : Prog (option PreloadedChain.t) :=
  Stmt (fun db =>
          (match authorization_chains db !! id with
           | None => None
           | Some c =>
               Some (PreloadedChain.mk c
                       (ip_assets db !! AuthorizationChain.IPAssetID c)
                       (license_applications db !! AuthorizationChain.LicenseID c))
           end, db)) Return.

(** The service value; its [db] and [config] fields are the ambient store. *)
Inductive BlockchainService := NewBlockchainService.

Module BlockchainService.

Definition VerifyChain (s : BlockchainService) (authChainID : uuid) : Prog bool :=
  (* Get authorization chain *)
  loaded ← load_chain authChainID;
  match loaded with
  | None => Fail (fmt_Errorf "authorization chain not found: " ErrRecordNotFound)
  | Some loaded =>
  let authChain := PreloadedChain.authChain loaded in
  reject_if (String.eqb (AuthorizationChain.BlockchainHash authChain) "")
    (errors_New "no blockchain hash found");;
  reject_if (negb (AuthorizationChain.IsActive authChain))
    (errors_New "authorization chain is not active");;
  (* Verify IP asset is approved; a missing row is the zero value, whose
     status is the empty string *)
  reject_if (bool_decide (IPAsset.VerificationStatus <$> PreloadedChain.IPAsset loaded
                          <> Some VerificationStatusApproved))
    (errors_New "IP asset is not approved");;
  (* Verify license is active *)
  reject_if (bool_decide (LicenseApplication.Status <$> PreloadedChain.License loaded
                          <> Some ApplicationStatusApproved))
    (errors_New "license is not approved");;
  Return true
  end.

End BlockchainService.

(** ** AuthorizationService (internal/services/authorization_service.go) *)

Record AuthorizationService := NewAuthorizationService {
  blockchainService : option BlockchainService;  (* a pointer, possibly nil *)
}.

Module AuthorizationService.

Definition VerifyChain (s : AuthorizationService) (authChainID : uuid) : Prog bool :=
  match blockchainService s with
  | Some bs => BlockchainService.VerifyChain bs authChainID
  | None =>
      (* Fallback verification without blockchain *)
      loaded ← load_chain authChainID;
      match loaded with
      | None => Fail (fmt_Errorf "authorization chain not found: " ErrRecordNotFound)
      | Some loaded => Return (AuthorizationChain.IsActive (PreloadedChain.authChain loaded))
      end
  end.

(** The result is the key and the row of the chain; the relations the
    query preloads into the struct returned ([Product], [IPAsset],
    [License]) are those [preload_relations] reads for that row. *)
Definition VerifyProductByCode (s : AuthorizationService) (verificationCode : string)
  : Prog (uuid * AuthorizationChain.t) :=
  found ← gorm.FirstWhere authorization_chains
    (sql.active_chain_with_code verificationCode);
  match found with
  | None => Fail (errors_New "invalid verification code")
  | Some (ID, authChain) =>
      (* Verify the chain is still valid *)
      r ← catch (VerifyChain s ID);
      match r with
      | Ok true => Return (ID, authChain)
      | _ => Fail (errors_New "authorization chain verification failed")
      end
  end.

Definition RevokeAuthChain (s : AuthorizationService) (authChainID : uuid)
  (reason : string) : Prog unit :=
  authChain ← gorm.First authorization_chains authChainID;
  match authChain with
  | None => Fail (fmt_Errorf "authorization chain not found: " ErrRecordNotFound)
  | Some authChain =>
      (* Deactivate the chain *)
      let authChain := AuthorizationChain.with_IsActive authChain false in
      gorm.Save authorization_chains with_authorization_chains authChainID authChain
  end.

End AuthorizationService.

(** internal/router/router.go, [Initialize]: the only place the services are
    built. *)
Module router.
Definition blockchainService : BlockchainService := NewBlockchainService.
Definition authorizationService : AuthorizationService :=
  NewAuthorizationService (Some blockchainService).
End router.

(** ** Vocabulary of the licensing claims *)

(** The preconditions of [apply] that are checked before the duplicate and
    capacity checks. *)
Definition apply_admissible (db : DB) (applicantID : uuid) (req : ApplyLicenseRequest.t)
  (ipAsset : IPAsset.t) (licenseTerms : LicenseTerms.t) : Prop :=
  utils.ValidateApplyLicenseRequest req = true
  /\ (exists u, users db !! applicantID = Some u
                /\ User.Status u = UserStatusActive
                /\ (User.UserType u = UserTypeSecondaryCreator
                    \/ User.UserType u = UserTypeCreator))
  /\ ip_assets db !! ApplyLicenseRequest.IPAssetID req = Some ipAsset
  /\ IPAsset.VerificationStatus ipAsset = VerificationStatusApproved
  /\ IPAsset.CreatorID ipAsset <> applicantID
  /\ license_terms db !! ApplyLicenseRequest.LicenseTermsID req = Some licenseTerms
  /\ LicenseTerms.IPAssetID licenseTerms = ApplyLicenseRequest.IPAssetID req
  /\ LicenseTerms.IsActive licenseTerms = true.

(** The applicant already holds a pending or approved application for the asset. *)
Definition has_open_application (db : DB) (assetID applicantID : uuid) : Prop :=
  exists k a, license_applications db !! k = Some a
              /\ sql.open_application assetID applicantID k a.

(** Number of approved applications that reference the terms. *)
Definition approved_count (db : DB) (termsID : uuid) : Z :=
  gorm.count (sql.approved_under termsID) (license_applications db).

Definition duplicate_error (e : error) : Prop :=
  e = errors_New "you already have an approved license for this IP asset"
  \/ e = errors_New "you already have a pending application for this IP asset".

(** The actor owns the asset the application is for, or is a platform admin. *)
Definition may_decide (db : DB) (application : LicenseApplication.t) (actorID : uuid) : bool :=
  bool_decide (from_option IPAsset.CreatorID uuid_Nil
                 (ip_assets db !! LicenseApplication.IPAssetID application) = actorID)
  || from_option (fun u => bool_decide (User.UserType u = UserTypeAdmin)) false
       (users db !! actorID).

(** [max_licenses] of the terms an application references ([0] when the
    terms row is missing). *)
Definition max_licenses_of (db : DB) (application : LicenseApplication.t) : Z :=
  from_option LicenseTerms.MaxLicenses 0
    (license_terms db !! LicenseApplication.LicenseTermsID application).

(** Number of products in {active, draft} that reference the license. *)
Definition products_in_use (db : DB) (licenseID : uuid) : Z :=
  gorm.count (sql.product_in_use licenseID) (products db).

(** The store with one application row written. *)
Definition save_application (db : DB) (id : uuid) (a : LicenseApplication.t) : DB :=
  with_license_applications db (<[id := a]> (license_applications db)).

(** ** Calls and their effect on the store *)

(** One call of a modelled operation, with what the environment supplies
    (the key of a created row, the clock, a fault of the store). *)
Inductive Call :=
| CallApply (newID : uuid) (now : Time) (applicantID : uuid) (req : ApplyLicenseRequest.t)
| CallApprove (now : Time) (applicationID approverID : uuid) (req : ApproveLicenseRequest.t)
| CallReject (now : Time) (applicationID rejecterID : uuid) (req : RejectLicenseRequest.t)
| CallRevoke (now : Time) (applicationID revokerID : uuid) (req : RevokeLicenseRequest.t)
| CallVerify (now : Time) (licenseID : uuid)
| CallPurchase (newID : uuid) (fault : Fault) (productID buyerID : uuid)
    (req : PurchaseProductRequest.t)
| CallProcessPayment (now : Time) (id : uuid) (transaction : Transaction.t)
| CallVerifyByCode (s : AuthorizationService) (code : string)
| CallRevokeAuthChain (s : AuthorizationService) (authChainID : uuid) (reason : string).

(** The store a call leaves when it runs alone. *)
Definition exec (c : Call) (db : DB) : DB :=
  match c with
  | CallApply newID now applicantID req =>
      (run (LicenseService.ApplyForLicense newID now applicantID req) db).2
  | CallApprove now applicationID approverID req =>
      (run (LicenseService.ApproveLicense now applicationID approverID req) db).2
  | CallReject now applicationID rejecterID req =>
      (run (LicenseService.RejectLicense now applicationID rejecterID req) db).2
  | CallRevoke now applicationID revokerID req =>
      (run (LicenseService.RevokeLicense now applicationID revokerID req) db).2
  | CallVerify now licenseID =>
      (run (LicenseService.VerifyLicense now licenseID) db).2
  | CallPurchase newID fault productID buyerID req =>
      (run (ProductService.PurchaseProduct newID fault productID buyerID req) db).2
  | CallProcessPayment now id transaction =>
      (run (ProductService.processPayment now id transaction) db).2
  | CallVerifyByCode s code =>
      (run (AuthorizationService.VerifyProductByCode s code) db).2
  | CallRevokeAuthChain s authChainID reason =>
      (run (AuthorizationService.RevokeAuthChain s authChainID reason) db).2
  end.

(** Calls served one after the other. *)
Definition exec_all (calls : list Call) (db : DB) : DB :=
  fold_left (fun db c => exec c db) calls db.

(** ** Invariants of the data model *)

Definition is_open (a : LicenseApplication.t) : Prop :=
  LicenseApplication.Status a = ApplicationStatusPending
  \/ LicenseApplication.Status a = ApplicationStatusApproved.

#[global] Instance is_open_dec a : Decision (is_open a).
Proof. unfold is_open. apply _. Defined.

(** I2: at most one application in {pending, approved} per (asset, applicant). *)
Definition exclusive (db : DB) : Prop :=
  map_Forall (fun i a =>
    map_Forall (fun j b =>
      LicenseApplication.IPAssetID a = LicenseApplication.IPAssetID b ->
      LicenseApplication.ApplicantID a = LicenseApplication.ApplicantID b ->
      is_open a -> is_open b -> i = j) (license_applications db))
    (license_applications db).

#[global] Instance exclusive_dec db : Decision (exclusive db).
Proof. unfold exclusive. apply _. Defined.

(** I4: no product has a negative inventory. *)
Definition inventory_nonneg (db : DB) : Prop :=
  map_Forall (fun _ p => 0 <= Product.InventoryCount p) (products db).

#[global] Instance inventory_nonneg_dec db : Decision (inventory_nonneg db).
Proof. unfold inventory_nonneg. apply _. Defined.

(** A product in {active, draft} references the license. *)
Definition has_product_in_use (db : DB) (licenseID : uuid) : Prop :=
  exists id p, products db !! id = Some p /\ sql.product_in_use licenseID id p.

(** ** Vocabulary of the purchase claims *)

(** A product row after [q] units were sold. *)
Definition sold (q : Z) (p : Product.t) : Product.t :=
  Product.with_SalesCount
    (Product.with_InventoryCount p (Product.InventoryCount p - q))
    (Product.SalesCount p + q).

(** The store after a purchase committed: one transaction row more, one
    product row updated, every other table as before. *)
Definition purchase_committed (db : DB) (newID : uuid) (transaction : Transaction.t)
  (productID : uuid) (product : Product.t) (q : Z) : DB :=
  with_products
    (with_transactions db (<[newID := transaction]> (transactions db)))
    (<[productID := sold q product]> (products db)).

(** The transitions of one application in the workflow state machine; the
    asset, applicant and terms it refers to never change. *)
Definition application_transition (a a' : LicenseApplication.t) : Prop :=
  LicenseApplication.IPAssetID a' = LicenseApplication.IPAssetID a
  /\ LicenseApplication.ApplicantID a' = LicenseApplication.ApplicantID a
  /\ LicenseApplication.LicenseTermsID a' = LicenseApplication.LicenseTermsID a
  /\ ((LicenseApplication.Status a = ApplicationStatusPending
       /\ (LicenseApplication.Status a' = ApplicationStatusApproved
           \/ LicenseApplication.Status a' = ApplicationStatusRejected))
      \/ (LicenseApplication.Status a = ApplicationStatusApproved
          /\ LicenseApplication.Status a' = ApplicationStatusRevoked)).

(** What one call may do to the applications table: nothing, create one
    open application for a pair that had none, or move one application
    along a transition. *)
Definition applications_step (db db' : DB) : Prop :=
  license_applications db' = license_applications db
  \/ (exists id a,
        license_applications db !! id = None
        /\ license_applications db' = <[id := a]> (license_applications db)
        /\ is_open a
        /\ ~ has_open_application db (LicenseApplication.IPAssetID a)
               (LicenseApplication.ApplicantID a))
  \/ (exists id a a',
        license_applications db !! id = Some a
        /\ license_applications db' = <[id := a']> (license_applications db)
        /\ application_transition a a').

(** A number recorded in [revenue_shares]. *)
Definition share (t : Transaction.t) (key : string) : option float :=
  match Transaction.RevenueShares t !! key with
  | Some (JFloat x) => Some x
  | _ => None
  end.




(** The float64 value is exactly the decimal [q]. *)
Definition is_exactly (x : float) (q : Q) : bool :=
  match float_to_Q x with
  | Some v => Qeq_bool v q
  | None => false
  end.

(** The float64 value is within [eps] of the decimal [q]. *)
Definition is_within (eps : Q) (x : float) (q : Q) : bool :=
  match float_to_Q x with
  | Some v => Qle_bool (Qabs (v - q)) eps
  | None => false
  end.

(** The percentage [calculateRevenueShares] reads for a product. *)
Definition revenue_share_percent (db : DB) (product : Product.t) : float :=
  from_option LicenseTerms.RevenueSharePercentage 0%float
    (PreloadedProduct.License_LicenseTerms (ProductService.preload db product)).

(** ** Vocabulary of the authorization-chain claims *)

(** I6 for one chain: the license it references is approved and so is the
    asset, in the store as it is now. *)
Definition chain_live (db : DB) (c : AuthorizationChain.t) : Prop :=
  LicenseApplication.Status <$> license_applications db !! AuthorizationChain.LicenseID c
  = Some ApplicationStatusApproved
  /\ IPAsset.VerificationStatus <$> ip_assets db !! AuthorizationChain.IPAssetID c
     = Some VerificationStatusApproved.

(** ** Two approvals in flight *)

(** What the two calls returned and how many approved applications the
    terms have, after the calls' statements ran in the order [sched]. *)
Definition approvals_in_flight (sched : list bool) (now : Time)
  (applicationID applicationID' approverID termsID : uuid) (db : DB)
  : option (Result LicenseApplication.t) * option (Result LicenseApplication.t) * Z :=
  let '(p, q, db') :=
    interleave sched
      (LicenseService.ApproveLicense now applicationID approverID
         (ApproveLicenseRequest.mk ""))
      (LicenseService.ApproveLicense now applicationID' approverID
         (ApproveLicenseRequest.mk ""))
      db in
  (returned p, returned q, approved_count db' termsID).

(** ** Two purchases in flight *)

(** What two purchases of one product returned and the units the product
    is left with, after the calls' statements ran in the order [sched]. *)
Definition purchases_in_flight (sched : list bool) (newID newID' productID : uuid)
  (buyerID buyerID' : uuid) (req req' : PurchaseProductRequest.t) (db : DB)
  : option (Result Transaction.t) * option (Result Transaction.t) * option Z :=
  let '(p, q, db') :=
    interleave sched
      (ProductService.PurchaseProduct newID NoFault productID buyerID req)
      (ProductService.PurchaseProduct newID' NoFault productID buyerID' req')
      db in
  (returned p, returned q, Product.InventoryCount <$> products db' !! productID).

(** ** Two applications in flight *)

(** What two [apply] calls of one applicant for one asset returned, and how
    many open applications the pair has, after the calls' statements ran in
    the order [sched]. *)
Definition applies_in_flight (sched : list bool) (now : Time)
  (newID newID' applicantID : uuid) (req : ApplyLicenseRequest.t) (db : DB)
  : option (Result LicenseApplication.t) * option (Result LicenseApplication.t) * Z :=
  let '(p, q, db') :=
    interleave sched
      (LicenseService.ApplyForLicense newID now applicantID req)
      (LicenseService.ApplyForLicense newID' now applicantID req)
      db in
  (returned p, returned q,
   gorm.count (sql.open_application (ApplyLicenseRequest.IPAssetID req) applicantID)
     (license_applications db')).

(** I3: terms with a cap never have more approved applications than the cap. *)
Definition capacity_respected (db : DB) : Prop :=
  map_Forall (fun termsID t =>
    0 < LicenseTerms.MaxLicenses t ->
    approved_count db termsID <= LicenseTerms.MaxLicenses t) (license_terms db).

#[global] Instance capacity_respected_dec db : Decision (capacity_respected db).
Proof. unfold capacity_respected. apply _. Defined.

(** ** Sample stores *)

Module sample.

Definition creator : uuid := 1%N.
Definition licensee : uuid := 2%N.
Definition buyer : uuid := 3%N.
Definition admin : uuid := 4%N.
Definition licensee2 : uuid := 5%N.
Definition asset : uuid := 10%N.
Definition terms : uuid := 20%N.
Definition application : uuid := 30%N.
Definition application2 : uuid := 31%N.
Definition product : uuid := 40%N.
Definition transaction : uuid := 50%N.
Definition chain : uuid := 60%N.

Definition the_users : gmap uuid User.t :=
  {[ creator := User.mk UserTypeCreator UserStatusActive;
     licensee := User.mk UserTypeSecondaryCreator UserStatusActive;
     buyer := User.mk UserTypeBuyer UserStatusActive;
     admin := User.mk UserTypeAdmin UserStatusActive;
     licensee2 := User.mk UserTypeSecondaryCreator UserStatusActive ]}.

Definition the_asset : IPAsset.t := IPAsset.mk creator VerificationStatusApproved.

Definition the_terms (percent : float) (autoApprove : bool) (maxLicenses : Z)
  : LicenseTerms.t :=
  LicenseTerms.mk asset percent autoApprove maxLicenses true.

Definition an_application (applicant : uuid) (status : ApplicationStatus)
  (expiresAt : option Time) : LicenseApplication.t :=
  LicenseApplication.mk asset applicant terms ∅ status None None "" expiresAt true.

Definition a_product (price : float) (inventory : Z) (status : ProductStatus)
  : Product.t :=
  Product.mk licensee application price inventory status 0.

Definition a_chain (active : bool) : AuthorizationChain.t :=
  AuthorizationChain.mk product asset application None "9f2c" "CODE" active.

(** An approved asset with published terms and no application yet. *)
Definition published (autoApprove : bool) (maxLicenses : Z) : DB :=
  mkDB the_users {[ asset := the_asset ]}
       {[ terms := the_terms 20%float autoApprove maxLicenses ]} ∅ ∅ ∅ ∅.

(** The same with applications by the two licensees in the given states. *)
Definition applied (maxLicenses : Z) (status status2 : ApplicationStatus) : DB :=
  with_license_applications (published false maxLicenses)
    {[ application := an_application licensee status None;
       application2 := an_application licensee2 status2 None ]}.

(** A licensed product on sale, with its authorization chain. *)
Definition on_sale (price percent : float) (inventory : Z)
  (licenseStatus : ApplicationStatus) (expiresAt : option Time) : DB :=
  mkDB the_users {[ asset := the_asset ]}
       {[ terms := the_terms percent false 0 ]}
       {[ application := an_application licensee licenseStatus expiresAt ]}
       {[ product := a_product price inventory ProductStatusActive ]}
       ∅
       {[ chain := a_chain true ]}.

Definition apply_request : ApplyLicenseRequest.t :=
  ApplyLicenseRequest.mk asset terms ∅ "".

Definition purchase_request (quantity : Z) : PurchaseProductRequest.t :=
  PurchaseProductRequest.mk quantity "stripe" None "".

End sample.

(** * The rest of the service layer

    The methods of [ProductService], [LicenseService], [AuthorizationService],
    [BlockchainService] and [AdminService] that read and write the tables
    above, and the helpers of [internal/utils] they call.  A column that is
    not in the records above is not represented, and a write to it is not
    visible; goroutines that write only such columns or tables
    ([incrementViewCount], [createAuditLog], notifications) are left out. *)

Definition with_ip_assets (db : DB) (m : gmap uuid IPAsset.t) : DB :=
  mkDB (users db) m (license_terms db) (license_applications db) (products db)
       (transactions db) (authorization_chains db).

(** [t.Before(u)] of package [time]. *)
Definition Before (t u : Time) : bool := t <? u.

(** [db.Delete(&row)] on a model with [gorm.DeletedAt]: the row is marked
    deleted, and no later query sees it. *)
Definition gorm_Delete {R} (tbl : DB -> gmap uuid R) (set : DB -> gmap uuid R -> DB)
  (id : uuid) : Prog unit :=
  Stmt (fun db => (tt, set db (delete id (tbl db)))) Return.

(** ** unicode/utf8 *)

Module utf8.

Definition byte_of (c : Ascii.ascii) : Z := Z.of_N (Ascii.N_of_ascii c).

(** The bytes the rune that starts with [c] takes: the lead byte fixes the
    size and the range of the second byte ([first] and [acceptRanges]); a
    lead byte that is invalid, cut short or followed by a byte out of range
    is a rune of one byte. *)
Definition rune_size (c : Z) (rest : list Z) : nat :=
  let locb := 128 in
  let hicb := 191 in
  let cont (x : Z) := (locb <=? x) && (x <=? hicb) in
  let sized (size : nat) (lo hi : Z) : nat :=
    if (length rest <? size - 1)%nat then 1%nat
    else
      match rest with
      | c1 :: rest1 =>
          if (c1 <? lo) || (hi <? c1) then 1%nat
          else if (size =? 2)%nat then 2%nat
          else
            match rest1 with
            | c2 :: rest2 =>
                if negb (cont c2) then 1%nat
                else if (size =? 3)%nat then 3%nat
                else
                  match rest2 with
                  | c3 :: _ => if negb (cont c3) then 1%nat else 4%nat
                  | [] => 1%nat
                  end
            | [] => 1%nat
            end
      | [] => 1%nat
      end in
  if c <? 128 then 1%nat
  else if c <? 194 then 1%nat
  else if c <? 224 then sized 2%nat locb hicb
  else if c =? 224 then sized 3%nat 160 hicb
  else if c <? 237 then sized 3%nat locb hicb
  else if c =? 237 then sized 3%nat locb 159
  else if c <? 240 then sized 3%nat locb hicb
  else if c =? 240 then sized 4%nat 144 hicb
  else if c <? 244 then sized 4%nat locb hicb
  else if c =? 244 then sized 4%nat locb 143
  else 1%nat.

(** The loop of [RuneCountInString]; [skip] bytes of the rune under way are
    still to be passed over. *)
Fixpoint count_runes (skip : nat) (s : list Z) : Z :=
  match s with
  | [] => 0
  | c :: rest =>
      match skip with
      | S skip' => count_runes skip' rest
      | O => 1 + count_runes (rune_size c rest - 1) rest
      end
  end.

Definition RuneCountInString (s : string) : Z :=
  count_runes 0 (byte_of <$> String.list_ascii_of_string s).

End utf8.

(** ** ProductService: creating, reading and deleting products *)

Record ProductService := NewProductService {
  authorizationService : option AuthorizationService;  (* a pointer, possibly nil *)
}.

Module CreateProductRequest.
Record t := mk {
  LicenseID : uuid;             (* validate:"required" *)
  Title : string;               (* validate:"required,min=3,max=255" *)
  Description : string;         (* validate:"required,min=10" *)
  Category : string;            (* validate:"required" *)
  Price : float;                (* validate:"required,min=0.01" *)
  InventoryCount : Z;           (* validate:"min=0" *)
  Images : list string;
  Specifications : JSONB;
  Tags : list string;
}.
End CreateProductRequest.

(** [utils.ValidateStruct(req)] for a [CreateProductRequest]: [min] and [max]
    count the runes of a string and compare a number. *)
Definition utils_ValidateCreateProductRequest (req : CreateProductRequest.t) : bool :=
  negb (CreateProductRequest.LicenseID req =? uuid_Nil)%N
  && negb (String.eqb (CreateProductRequest.Title req) "")
  && (3 <=? utf8.RuneCountInString (CreateProductRequest.Title req))
  && (utf8.RuneCountInString (CreateProductRequest.Title req) <=? 255)
  && negb (String.eqb (CreateProductRequest.Description req) "")
  && (10 <=? utf8.RuneCountInString (CreateProductRequest.Description req))
  && negb (String.eqb (CreateProductRequest.Category req) "")
  && negb (PrimFloat.eqb (CreateProductRequest.Price req) 0%float)
  && PrimFloat.leb 0.01%float (CreateProductRequest.Price req)
  && (0 <=? CreateProductRequest.InventoryCount req).

(** The product row [CreateProduct] builds; [sales_count] is left at zero. *)
Definition new_product (creatorID : uuid) (req : CreateProductRequest.t) : Product.t :=
  Product.mk creatorID (CreateProductRequest.LicenseID req)
    (CreateProductRequest.Price req) (CreateProductRequest.InventoryCount req)
    ProductStatusDraft 0.

(** [s.db.Preload("Creator").Preload("License").Preload("License.IPAsset").
    First(product, product.ID)] *)
Definition reload_product (productID : uuid) : Prog (option PreloadedProduct.t) :=
  Stmt (fun db =>
          ((fun p =>
              let license := license_applications db !! Product.LicenseID p in
              PreloadedProduct.mk p license
                (l ← license; ip_assets db !! LicenseApplication.IPAssetID l) None)
             <$> products db !! productID, db)) Return.

Definition ProductService_CreateProduct (s : ProductService) (newID : uuid) (now : Time)
  (creatorID : uuid) (req : CreateProductRequest.t) : Prog PreloadedProduct.t :=
  (* Validate request *)
  reject_if (negb (utils_ValidateCreateProductRequest req))
    (fmt_Errorf "validation failed: " ValidationErrors);;
  (* Verify creator exists and is active *)
  creator ← gorm.First users creatorID;
  match creator with
  | None => Fail (fmt_Errorf "creator not found: " ErrRecordNotFound)
  | Some creator =>
  reject_if (bool_decide (User.Status creator <> UserStatusActive))
    (errors_New "creator account is not active");;
  reject_if (bool_decide (User.UserType creator <> UserTypeSecondaryCreator
                          /\ User.UserType creator <> UserTypeCreator))
    (errors_New "only secondary creators and creators can create products");;
  (* Verify license ownership and validity *)
  license ← LicenseService.load_application (CreateProductRequest.LicenseID req);
  match license with
  | None => Fail (errors_New "license not found")
  | Some license =>
  let license := PreloadedApplication.application license in
  (* Verify license belongs to the creator *)
  reject_if (bool_decide (LicenseApplication.ApplicantID license <> creatorID))
    (errors_New "unauthorized to use this license");;
  (* Verify license is approved and active *)
  reject_if (bool_decide (LicenseApplication.Status license <> ApplicationStatusApproved)
             || negb (LicenseApplication.IsActive license))
    (errors_New "license is not active or approved");;
  (* Check license expiration *)
  reject_if (match LicenseApplication.ExpiresAt license with
             | Some ExpiresAt => Before ExpiresAt now
             | None => false
             end)
    (errors_New "license has expired");;
  (* Create product *)
  let product := new_product creatorID req in
  (* Save product *)
  err ← gorm.Create products with_products newID product;
  match err with
  | Some err => Fail (fmt_Errorf "failed to create product: " err)
  | None =>
  (* Load relationships *)
  reloaded ← reload_product newID;
  (* go s.createAuthorizationChain(product) is [createAuthorizationChain] below *)
  Return (default (PreloadedProduct.mk product None None None) reloaded)
  end end end.

(** [userID] is [None] for a request without a session. *)
Definition ProductService_GetProduct (s : ProductService) (id : uuid)
  (userID : option uuid) : Prog Product.t :=
  product ← gorm.First products id;
  match product with
  | None => Fail (errors_New "product not found")
  | Some product =>
  (* Check visibility permissions *)
  (if bool_decide (Product.Status product <> ProductStatusActive) then
     (* Only creator and admins can see non-active products *)
     if bool_decide (userID <> Some (Product.CreatorID product)) then
       match userID with
       | Some userID =>
           user ← gorm.First users userID;
           reject_if (bool_decide (User.UserType <$> user <> Some UserTypeAdmin))
             (errors_New "product not found")
       | None => Fail (errors_New "product not found")
       end
     else Return tt
   else Return tt);;
  Return product
  end.

(** ["product_id = ? AND status = ?", id, completed] *)
Definition sql_completed_sale (productID : uuid) (id : uuid) (t : Transaction.t) : Prop :=
  Transaction.ProductID t = Some productID
  /\ Transaction.Status t = TransactionStatusCompleted.

#[global] Instance sql_completed_sale_dec productID id t :
  Decision (sql_completed_sale productID id t).
Proof. unfold sql_completed_sale. apply _. Defined.

Definition ProductService_DeleteProduct (s : ProductService) (id creatorID : uuid)
  : Prog unit :=
  (* Find and verify ownership *)
  product ← gorm.First products id;
  match product with
  | None => Fail (errors_New "product not found")
  | Some product =>
  reject_if (bool_decide (Product.CreatorID product <> creatorID))
    (errors_New "unauthorized to delete this product");;
  (* Check if product has been sold *)
  salesCount ← gorm.Count transactions (sql_completed_sale id);
  reject_if (0 <? salesCount) (errors_New "cannot delete product with completed sales");;
  (* Soft delete *)
  gorm_Delete products with_products id
  end.

(** ["product_id = ? AND is_active = ?", productID, true] *)
Definition sql_active_chain_of_product (productID : uuid)
  (id : uuid) (c : AuthorizationChain.t) : Prop :=
  AuthorizationChain.ProductID c = productID /\ AuthorizationChain.IsActive c = true.

#[global] Instance sql_active_chain_of_product_dec productID id c :
  Decision (sql_active_chain_of_product productID id c).
Proof. unfold sql_active_chain_of_product. apply _. Defined.

(** The relations [Preload("Product").Preload("IPAsset").Preload("License")]
    fills in on the chain the two verification methods return; a relation
    whose row is deleted or missing is left at its zero value, here [None]. *)
Module VerifiedChain.
Record t := mk {
  authChain : AuthorizationChain.t;
  Product : option Product.t;
  IPAsset : option IPAsset.t;
  License : option LicenseApplication.t;
}.
End VerifiedChain.

Definition preload_relations (db : DB) (authChain : AuthorizationChain.t)
  : VerifiedChain.t :=
  VerifiedChain.mk authChain
    (products db !! AuthorizationChain.ProductID authChain)
    (ip_assets db !! AuthorizationChain.IPAssetID authChain)
    (license_applications db !! AuthorizationChain.LicenseID authChain).

(** The result is the key and the row of the chain, as for
    [VerifyProductByCode]. *)
Definition ProductService_VerifyProductAuthenticity (s : ProductService)
  (productID : uuid) : Prog (uuid * AuthorizationChain.t) :=
  found ← gorm.FirstWhere authorization_chains (sql_active_chain_of_product productID);
  match found with
  | None => Fail (errors_New "authorization chain not found")
  | Some (ID, authChain) =>
      (* Verify the chain is valid *)
      match authorizationService s with
      | Some authorizationService =>
          r ← catch (AuthorizationService.VerifyChain authorizationService ID);
          match r with
          | Ok true => Return (ID, authChain)
          | _ => Fail (errors_New "authorization chain verification failed")
          end
      | None => Return (ID, authChain)
      end
  end.

(** ** LicenseService: reading one application *)

Definition LicenseService_GetLicenseApplication (id userID : uuid)
  : Prog LicenseApplication.t :=
  loaded ← LicenseService.load_application id;
  match loaded with
  | None => Fail (errors_New "license application not found")
  | Some loaded =>
  let application := PreloadedApplication.application loaded in
  (* Check permissions *)
  (if bool_decide (LicenseApplication.ApplicantID application <> userID)
      && bool_decide (from_option IPAsset.CreatorID uuid_Nil
                        (PreloadedApplication.IPAsset loaded) <> userID)
   then
     (* Check if user is admin *)
     user ← gorm.First users userID;
     match user with
     | None => Fail (errors_New "unauthorized to view license application")
     | Some user =>
         reject_if (bool_decide (User.UserType user <> UserTypeAdmin))
           (errors_New "unauthorized to view license application")
     end
   else Return tt);;
  Return application
  end.

(** ** internal/utils/crypto.go *)

(** How a call that may panic ends. *)
Inductive Outcome (A : Type) :=
| Returns (a : A)
| Panics.
Arguments Returns {A} a.
Arguments Panics {A}.

Module crypto.

Definition charset : string :=
  "abcdefghijklmnopqrstuvwxyzABCDEFGHIJKLMNOPQRSTUVWXYZ0123456789".

(** [charset[n.Int64()]]: an index outside the string panics. *)
Definition charset_at (n : Z) : option Ascii.ascii :=
  if n <? 0 then None else String.get (Z.to_nat n) charset.

(** The loop of [GenerateRandomString] from position [i] on, [n] bytes to
    go; [rand i] is what the [i]-th [rand.Int(rand.Reader, 62)] of the call
    returns. *)
Fixpoint fill (rand : nat -> Result Z) (i n : nat) : Outcome (Result string) :=
  match n with
  | O => Returns (Ok "")
  | S n' =>
      match rand i with
      | Err err => Returns (Err err)
      | Ok x =>
          match charset_at x with
          | None => Panics
          | Some c =>
              match fill rand (S i) n' with
              | Returns (Ok s) => Returns (Ok (String c s))
              | r => r
              end
          end
      end
  end.

(** [make([]byte, length)] panics on a negative length. *)
Definition GenerateRandomString (rand : nat -> Result Z) (length : Z)
  : Outcome (Result string) :=
  if length <? 0 then Panics else fill rand 0 (Z.to_nat length).

Definition GenerateVerificationCode (rand : nat -> Result Z) : Outcome (Result string) :=
  GenerateRandomString rand 32.

Definition GenerateAPIKey (rand : nat -> Result Z) : Outcome (Result string) :=
  let prefix := "ip_" in
  match GenerateRandomString rand 32 with
  | Returns (Ok randomPart) => Returns (Ok (String.append prefix randomPart))
  | r => r
  end.

End crypto.

(** ** encoding/hex *)

Module hex.

Definition hextable : string := "0123456789abcdef".

(** [hextable[n]] for [n] below 16. *)
Definition digit (n : N) : Ascii.ascii :=
  default (Ascii.ascii_of_nat 48) (String.get (N.to_nat n) hextable).

(** [hex.EncodeToString(src)]: two digits a byte, [v >> 4] then [v & 0x0f]. *)
Fixpoint EncodeToString (src : list Byte.byte) : string :=
  match src with
  | [] => ""
  | v :: src' =>
      String (digit (N.shiftr (Byte.to_N v) 4))
        (String (digit (N.land (Byte.to_N v) 15)) (EncodeToString src'))
  end.

End hex.

(** ** strconv *)

Module strconv.

Inductive NumError := ErrSyntax | ErrRange.

Definition digit (c : Ascii.ascii) : option Z :=
  let n := Z.of_N (Ascii.N_of_ascii c) in
  if (48 <=? n) && (n <=? 57) then Some (n - 48) else None.

(** [ParseUint(s, 10, 64)] after the empty-string test: the digits are read
    from the left; the first character that is no digit is a syntax error,
    the first digit that takes the number over [2^64 - 1] a range error with
    that maximum for value. *)
Fixpoint parse_digits (n : Z) (s : string) : Z * option NumError :=
  match s with
  | "" => (n, None)
  | String c s' =>
      match digit c with
      | None => (0, Some ErrSyntax)
      | Some d =>
          if 2 ^ 64 - 1 <? n * 10 + d then (2 ^ 64 - 1, Some ErrRange)
          else parse_digits (n * 10 + d) s'
      end
  end.

(** [ParseInt(s, 10, 0)] with a 64-bit [int]. *)
Definition ParseInt (s : string) : Z * option NumError :=
  match s with
  | "" => (0, Some ErrSyntax)
  | String c s' =>
      let neg := Ascii.eqb c (Ascii.ascii_of_nat 45) in        (* '-' *)
      let s := if Ascii.eqb c (Ascii.ascii_of_nat 43) || neg   (* '+' *)
               then s' else s in
      match s with
      | "" => (0, Some ErrSyntax)
      | _ =>
          match parse_digits 0 s with
          | (_, Some ErrSyntax) => (0, Some ErrSyntax)
          | (un, _) =>
              if negb neg && (2 ^ 63 <=? un) then (2 ^ 63 - 1, Some ErrRange)
              else if neg && (2 ^ 63 <? un) then (- 2 ^ 63, Some ErrRange)
              else (if neg then - un else un, None)
          end
      end
  end.

(** [Atoi(s)]: its fast path for short strings computes what [ParseInt] does. *)
Definition Atoi (s : string) : Z * option NumError := ParseInt s.

End strconv.

(** ** internal/utils/pagination.go *)

Module gin.

(** The query string of the request: each key with its first value. *)
Abbreviation Context := (gmap string string) (only parsing).

Definition DefaultQuery (c : Context) (key defaultValue : string) : string :=
  default defaultValue (c !! key).

Definition Query (c : Context) (key : string) : string := default "" (c !! key).

End gin.

Module PaginationParams.
Record t := mk {
  Page : Z;
  Limit : Z;
  Sort : string;
  Order : string;
  Search : string;
  Category : string;
}.
End PaginationParams.

(** What [Offset], [Limit] and [Order] add to a gorm query. *)
Module Query.
Record t := mk {
  Offset : option Z;
  Limit : option Z;
  Order : option string;
}.
Definition empty : t := mk None None None.
Definition with_Offset (q : t) (n : Z) : t := mk (Some n) (Limit q) (Order q).
Definition with_Limit (q : t) (n : Z) : t := mk (Offset q) (Some n) (Order q).
Definition with_Order (q : t) (s : string) : t := mk (Offset q) (Limit q) (Some s).
End Query.

(** A Go [int] operation on a 64-bit platform wraps around. *)
Definition wrap_int (n : Z) : Z := (n + 2 ^ 63) mod 2 ^ 64 - 2 ^ 63.

Module pagination.

Definition GetPaginationParams (c : gin.Context) : PaginationParams.t :=
  let page := (strconv.Atoi (gin.DefaultQuery c "page" "1")).1 in
  let limit := (strconv.Atoi (gin.DefaultQuery c "limit" "20")).1 in
  let sort := gin.DefaultQuery c "sort" "created_at" in
  let order := gin.DefaultQuery c "order" "desc" in
  let search := gin.Query c "search" in
  let category := gin.Query c "category" in
  (* Validate and set defaults *)
  let page := if page <? 1 then 1 else page in
  let limit := if (limit <? 1) || (100 <? limit) then 20 else limit in
  let order :=
    if negb (String.eqb order "asc") && negb (String.eqb order "desc")
    then "desc" else order in
  PaginationParams.mk page limit sort order search category.

Definition ApplyPagination (db : Query.t) (params : PaginationParams.t) : Query.t :=
  let offset :=
    wrap_int (wrap_int (PaginationParams.Page params - 1) * PaginationParams.Limit params) in
  Query.with_Limit (Query.with_Offset db offset) (PaginationParams.Limit params).

Definition ApplySort (db : Query.t) (params : PaginationParams.t)
  (allowedSortFields : list string) : Query.t :=
  (* Validate sort field *)
  let sortField := PaginationParams.Sort params in
  let validSort := existsb (fun field => String.eqb field sortField) allowedSortFields in
  let sortField := if negb validSort then "created_at" else sortField in
  Query.with_Order db (String.append sortField (String.append " " (PaginationParams.Order params))).

End pagination.

(** The sort fields [GetUserLicenses] allows. *)
Definition GetUserLicenses_allowedSortFields : list string :=
  ["created_at"; "approved_at"].

(** ** BlockchainService and AuthorizationService: creating a chain *)

(** [generateHash(data)]: [sum] is the SHA-256 digest of the record as
    [fmt.Sprintf] prints it. *)
Definition BlockchainService_generateHash (s : BlockchainService) (sum : list Byte.byte)
  : string :=
  hex.EncodeToString sum.

(** [CreateProductRecord(productID, licenseID)] returns the hash of the
    record and no error. *)
Definition BlockchainService_CreateProductRecord (s : BlockchainService)
  (sum : list Byte.byte) (productID licenseID : uuid) : Result string :=
  let hash := BlockchainService_generateHash s sum in
  Ok hash.

(** [s.db.Create(authChain)]: besides the primary key, the table has a
    unique index on [verification_code]. *)
Definition sql_has_code (code : string) (id : uuid) (c : AuthorizationChain.t) : Prop :=
  AuthorizationChain.VerificationCode c = code.

#[global] Instance sql_has_code_dec code id c : Decision (sql_has_code code id c).
Proof. unfold sql_has_code. apply _. Defined.

Definition Create_authorization_chain (id : uuid) (row : AuthorizationChain.t)
  : Prog (option error) :=
  Stmt (fun db =>
          match authorization_chains db !! id,
                gorm.first_where (sql_has_code (AuthorizationChain.VerificationCode row))
                  (authorization_chains db) with
          | None, None =>
              (None, with_authorization_chains db (<[id := row]> (authorization_chains db)))
          | _, _ => (Some ErrDuplicatedKey, db)
          end) Return.

(** [product] is the product as [CreateProduct] returned it, [productID]
    its key; [rand] and [sum] are what the random source and SHA-256 give
    this call, [newID] the key the store gives the chain. *)
Definition AuthorizationService_CreateProductAuthChain (s : AuthorizationService)
  (rand : nat -> Result Z) (sum : list Byte.byte) (newID : uuid)
  (productID : uuid) (product : PreloadedProduct.t)
  : Prog (Outcome (uuid * AuthorizationChain.t)) :=
  (* Generate unique verification code *)
  match crypto.GenerateRandomString rand 32 with
  | Panics => Return Panics
  | Returns (Err err) => Fail (fmt_Errorf "failed to generate verification code: " err)
  | Returns (Ok verificationCode) =>
  (* Create authorization chain record *)
  let authChain :=
    AuthorizationChain.mk productID
      (from_option LicenseApplication.IPAssetID uuid_Nil (PreloadedProduct.License product))
      (Product.LicenseID (PreloadedProduct.product product))
      None "" verificationCode true in
  (* Create blockchain record *)
  let authChain :=
    match blockchainService s with
    | Some blockchainService =>
        match BlockchainService_CreateProductRecord blockchainService sum productID
                (Product.LicenseID (PreloadedProduct.product product)) with
        | Ok hash =>
            AuthorizationChain.mk (AuthorizationChain.ProductID authChain)
              (AuthorizationChain.IPAssetID authChain)
              (AuthorizationChain.LicenseID authChain)
              (AuthorizationChain.ParentChainID authChain)
              hash
              (AuthorizationChain.VerificationCode authChain)
              (AuthorizationChain.IsActive authChain)
        | Err _ => authChain
        end
    | None => authChain
    end in
  (* Save to database *)
  err ← Create_authorization_chain newID authChain;
  match err with
  | Some err => Fail (fmt_Errorf "failed to create authorization chain: " err)
  | None => Return (Returns (newID, authChain))
  end
  end.

(** The goroutine [CreateProduct] starts; what the call returns is dropped. *)
Definition ProductService_createAuthorizationChain (s : ProductService)
  (rand : nat -> Result Z) (sum : list Byte.byte) (newID : uuid)
  (productID : uuid) (product : PreloadedProduct.t) : Prog unit :=
  match authorizationService s with
  | Some authorizationService =>
      _ ← catch (AuthorizationService_CreateProductAuthChain authorizationService
                   rand sum newID productID product);
      Return tt
  | None => Return tt
  end.

(** [Initialize] of the router builds the product service on the
    authorization service. *)
Definition router_productService : ProductService :=
  NewProductService (Some router.authorizationService).

(** ** AdminService (internal/services/admin_service.go) *)

Module AdminService.

(** The [metadata] column the two calls also write is not represented. *)
Definition with_VerificationStatus (a : IPAsset.t) (v : VerificationStatus) : IPAsset.t :=
  IPAsset.mk (IPAsset.CreatorID a) v.

Definition ApproveIPAsset (ipAssetID adminID : uuid) (message : string) : Prog unit :=
  (* Find IP asset *)
  ipAsset ← gorm.First ip_assets ipAssetID;
  match ipAsset with
  | None => Fail (errors_New "IP asset not found")
  | Some ipAsset =>
  reject_if (bool_decide (IPAsset.VerificationStatus ipAsset <> VerificationStatusPending))
    (errors_New "IP asset is not pending verification");;
  (* Update status *)
  let ipAsset := with_VerificationStatus ipAsset VerificationStatusApproved in
  gorm.Save ip_assets with_ip_assets ipAssetID ipAsset
  end.

Definition RejectIPAsset (ipAssetID adminID : uuid) (reason message : string)
  : Prog unit :=
  (* Find IP asset *)
  ipAsset ← gorm.First ip_assets ipAssetID;
  match ipAsset with
  | None => Fail (errors_New "IP asset not found")
  | Some ipAsset =>
  reject_if (bool_decide (IPAsset.VerificationStatus ipAsset <> VerificationStatusPending))
    (errors_New "IP asset is not pending verification");;
  (* Update status *)
  let ipAsset := with_VerificationStatus ipAsset VerificationStatusRejected in
  gorm.Save ip_assets with_ip_assets ipAssetID ipAsset
  end.

(** The [refunded_at] and [refund_reason] columns the call also writes are
    not represented. *)
Definition ProcessRefund (transactionID adminID : uuid) (reason : string) : Prog unit :=
  (* Find transaction *)
  transaction ← gorm.First transactions transactionID;
  match transaction with
  | None => Fail (errors_New "transaction not found")
  | Some transaction =>
  reject_if (bool_decide (Transaction.Status transaction <> TransactionStatusCompleted))
    (errors_New "can only refund completed transactions");;
  (* Update transaction status *)
  let transaction := Transaction.with_Status transaction TransactionStatusRefunded in
  gorm.Save transactions with_transactions transactionID transaction
  end.

End AdminService.

(** ** Vocabulary of the properties of the rest of the service layer *)

(** An ASCII letter or digit. *)
Definition is_alnum (c : Ascii.ascii) : bool :=
  let n := Z.of_N (Ascii.N_of_ascii c) in
  ((48 <=? n) && (n <=? 57)) || ((65 <=? n) && (n <=? 90)) || ((97 <=? n) && (n <=? 122)).

Fixpoint string_forall (P : Ascii.ascii -> bool) (s : string) : bool :=
  match s with
  | "" => true
  | String c s' => P c && string_forall P s'
  end.

(** A lowercase hexadecimal digit. *)
Definition is_lower_hex (c : Ascii.ascii) : bool :=
  let n := Z.of_N (Ascii.N_of_ascii c) in
  ((48 <=? n) && (n <=? 57)) || ((97 <=? n) && (n <=? 102)).

(** The user is a platform admin. *)
Definition is_admin (db : DB) (userID : uuid) : Prop :=
  User.UserType <$> users db !! userID = Some UserTypeAdmin.

(** A completed sale of the product is on record. *)
Definition has_completed_sale (db : DB) (productID : uuid) : Prop :=
  exists id t, transactions db !! id = Some t /\ sql_completed_sale productID id t.

(** ** More sample data *)

Module sample_catalogue.

Definition product2 : uuid := 41%N.
Definition chain2 : uuid := 61%N.

Definition request : CreateProductRequest.t :=
  CreateProductRequest.mk sample.application "Poster" "A printed poster" "print"
    12.5%float 10 [] ∅ [].

(** The licensee holds an approved license and has no product yet. *)
Definition licensed : DB :=
  with_license_applications (sample.published false 0)
    {[ sample.application :=
         sample.an_application sample.licensee ApplicationStatusApproved None ]}.

(** The store and the product once the licensee has created it. *)
Definition created : DB :=
  with_products licensed {[ product2 := new_product sample.licensee request ]}.
Definition the_product : PreloadedProduct.t :=
  PreloadedProduct.mk (new_product sample.licensee request)
    (Some (sample.an_application sample.licensee ApplicationStatusApproved None))
    (Some sample.the_asset) None.

(** Published terms on an asset that still waits for its verification. *)
Definition unverified : DB :=
  with_ip_assets (sample.published false 0)
    {[ sample.asset := IPAsset.mk sample.creator VerificationStatusPending ]}.

(** The product on sale with one sale of two units, paid. *)
Definition a_sale (status : TransactionStatus) : Transaction.t :=
  Transaction.mk TransactionTypeProductSale sample.buyer sample.licensee
    (Some sample.product) 20%float 1%float ∅ "stripe" status (Some 1001).
Definition sold : DB :=
  with_transactions
    (with_products (sample.on_sale 10%float 20%float 5 ApplicationStatusApproved None)
       {[ sample.product := Product.mk sample.licensee sample.application 10%float 3
                              ProductStatusActive 2 ]})
    {[ sample.transaction := a_sale TransactionStatusCompleted ]}.

(** The random source always draws [0]; the digest is 32 zero bytes. *)
Definition rand : nat -> Result Z := fun _ => Ok 0.
(** A random source that draws 0, 1, ..., 61, 0, ... *)
Definition counting : nat -> Result Z := fun i => Ok (Z.of_nat (i mod 62)).
Definition sum : list Byte.byte := replicate 32 Byte.x00.

End sample_catalogue.

(** Row [p'] is row [p] after some units went from the inventory to the
    sales count; nothing else differs. *)
Definition sold_from (p p' : Product.t) : Prop :=
  Product.InventoryCount p' + Product.SalesCount p'
  = Product.InventoryCount p + Product.SalesCount p
  /\ Product.InventoryCount p' <= Product.InventoryCount p
  /\ Product.Status p' = Product.Status p
  /\ Product.Price p' = Product.Price p
  /\ Product.CreatorID p' = Product.CreatorID p
  /\ Product.LicenseID p' = Product.LicenseID p.

(** ** Running programs *)

Lemma run_bind {A B} (p : Prog A) (f : A -> Prog B) db :
  run (p ≫= f) db =
  match run p db with
  | (Ok a, db') => run (f a) db'
  | (Err e, db') => (Err e, db')
  end.
Proof.
  revert db. induction p as [a|e|X q k IH]; intros db; simpl; try done.
  destruct (q db) as [x db']. apply IH.
Qed.

Lemma run_reject_if cond e db :
  run (reject_if cond e) db = (if cond then Err e else Ok tt, db).
Proof. by destruct cond. Qed.

Lemma run_First {R} (tbl : DB -> gmap uuid R) id db :
  run (gorm.First tbl id) db = (Ok (tbl db !! id), db).
Proof. done. Qed.

Lemma run_FirstWhere {R} (tbl : DB -> gmap uuid R) P `{!forall id r, Decision (P id r)} db :
  run (gorm.FirstWhere tbl P) db = (Ok (gorm.first_where P (tbl db)), db).
Proof. done. Qed.

Lemma run_Count {R} (tbl : DB -> gmap uuid R) P `{!forall id r, Decision (P id r)} db :
  run (gorm.Count tbl P) db = (Ok (gorm.count P (tbl db)), db).
Proof. done. Qed.

Lemma run_Create {R} (tbl : DB -> gmap uuid R) set id row db :
  run (gorm.Create tbl set id row) db =
  match tbl db !! id with
  | Some _ => (Ok (Some ErrDuplicatedKey), db)
  | None => (Ok None, set db (<[id := row]> (tbl db)))
  end.
Proof. unfold gorm.Create. simpl. by destruct (tbl db !! id). Qed.

Lemma run_Save {R} (tbl : DB -> gmap uuid R) set id row db :
  run (gorm.Save tbl set id row) db = (Ok tt, set db (<[id := row]> (tbl db))).
Proof. done. Qed.

Lemma run_UpdateColumn {R} (tbl : DB -> gmap uuid R) set id f db :
  run (gorm.UpdateColumn tbl set id f) db = (Ok tt, set db (alter f id (tbl db))).
Proof. done. Qed.

Lemma run_load_application id db :
  run (LicenseService.load_application id) db =
  (Ok (match license_applications db !! id with
       | None => None
       | Some a =>
           Some (PreloadedApplication.mk a
                   (ip_assets db !! LicenseApplication.IPAssetID a)
                   (license_terms db !! LicenseApplication.LicenseTermsID a))
       end), db).
Proof. done. Qed.

Lemma trace_bind {A B} (p : Prog A) (f : A -> Prog B) db :
  trace (p ≫= f) db =
  trace p db ++ match run p db with
                | (Ok a, db') => trace (f a) db'
                | (Err _, _) => []
                end.
Proof.
  revert db. induction p as [a|e|X q k IH]; intros db; simpl; try done.
  destruct (q db) as [x db']. by rewrite IH.
Qed.

Lemma trace_reject_if cond e db : trace (reject_if cond e) db = [].
Proof. by destruct cond. Qed.

(** Boolean tests recorded by a case split, as propositions. *)
Ltac reflect_tests :=
  repeat match goal with
    | H : bool_decide _ = true |- _ => apply bool_decide_eq_true in H
    | H : bool_decide _ = false |- _ => apply bool_decide_eq_false in H
    | H : negb _ = true |- _ => apply negb_true_iff in H
    | H : negb _ = false |- _ => apply negb_false_iff in H
    | H : (_ || _)%bool = false |- _ => apply orb_false_iff in H; destruct H
    | H : (_ && _)%bool = true |- _ => apply andb_true_iff in H; destruct H
    | H : (_ <? _) = true |- _ => apply Z.ltb_lt in H
    | H : (_ <? _) = false |- _ => apply Z.ltb_ge in H
    | H : (_ <=? _) = true |- _ => apply Z.leb_le in H
    | H : (_ <=? _) = false |- _ => apply Z.leb_gt in H
    | H : String.eqb _ _ = true |- _ => apply String.eqb_eq in H
    | H : String.eqb _ _ = false |- _ => apply String.eqb_neq in H
    end.

(** One statement of a service method: rewrite it to its effect and split
    on the value the method inspects. *)
Ltac step_reject :=
  lazymatch goal with
  | |- context [run (reject_if ?c ?e ≫= _) _] =>
      rewrite (run_bind (reject_if c e)), run_reject_if; destruct c eqn:?
  | |- context [run (reject_if ?c ?e) _] =>
      rewrite run_reject_if; destruct c eqn:?
  end.
Ltac step_First :=
  lazymatch goal with
  | |- context [run (gorm.First ?tbl ?id ≫= _) ?db] =>
      rewrite (run_bind (gorm.First tbl id)), run_First;
      first [ match goal with H : tbl db !! id = _ |- _ => rewrite H end
            | destruct (tbl db !! id) eqn:? ]
  end.
Ltac step_FirstWhere :=
  lazymatch goal with
  | |- context [run (gorm.FirstWhere ?tbl ?P ≫= _) ?db] =>
      rewrite (run_bind (gorm.FirstWhere tbl P)), run_FirstWhere;
      first [ match goal with H : gorm.first_where P (tbl db) = _ |- _ => rewrite H end
            | destruct (gorm.first_where P (tbl db)) as [[??]|] eqn:? ]
  end.
Ltac step_Count :=
  lazymatch goal with
  | |- context [run (gorm.Count ?tbl ?P ≫= _) ?db] =>
      rewrite (run_bind (gorm.Count tbl P)), run_Count
  end.
Ltac step_load_application :=
  lazymatch goal with
  | |- context [run (LicenseService.load_application ?id ≫= _) ?db] =>
      rewrite (run_bind (LicenseService.load_application id)), run_load_application;
      first [ match goal with H : license_applications db !! id = _ |- _ => rewrite H end
            | destruct (license_applications db !! id) eqn:? ]
  end.
Ltac step :=
  first [ step_reject | step_First | step_FirstWhere | step_Count
        | step_load_application ];
  reflect_tests.

(** ** Queries *)

Lemma first_by_key_None {R} (l : list (uuid * R)) :
  gorm.first_by_key l = None <-> l = [].
Proof.
  destruct l as [|x l]; simpl; [done|].
  split; [|done]. destruct (gorm.first_by_key l) as [y|]; [|done].
  by destruct (x.1 <? y.1)%N.
Qed.

Lemma first_by_key_elem {R} (l : list (uuid * R)) x :
  gorm.first_by_key l = Some x -> x ∈ l.
Proof.
  revert x. induction l as [|y l IH]; intros x; simpl; [done|].
  destruct (gorm.first_by_key l) as [z|].
  - destruct (y.1 <? z.1)%N; intros [= <-]; [left|right; by apply IH].
  - intros [= <-]. left.
Qed.

Section queries.
Context {R : Type} (P : uuid -> R -> Prop) `{!forall id r, Decision (P id r)}.
Implicit Types m : gmap uuid R.

Lemma Where_lookup m k r :
  gorm.Where P m !! k = Some r <-> m !! k = Some r /\ P k r.
Proof. unfold gorm.Where. by rewrite map_lookup_filter_Some. Qed.

Lemma Where_empty m :
  gorm.Where P m = ∅ <-> forall k r, m !! k = Some r -> ~ P k r.
Proof. unfold gorm.Where. by rewrite map_empty_filter. Qed.

Lemma first_where_Some m k r :
  gorm.first_where P m = Some (k, r) -> m !! k = Some r /\ P k r.
Proof.
  intros Hf%first_by_key_elem. apply elem_of_map_to_list in Hf.
  by apply Where_lookup.
Qed.

Lemma first_where_None m :
  gorm.first_where P m = None <-> forall k r, m !! k = Some r -> ~ P k r.
Proof.
  unfold gorm.first_where.
  by rewrite first_by_key_None, map_to_list_empty_iff, Where_empty.
Qed.

Lemma first_where_is_Some m k r :
  m !! k = Some r -> P k r -> is_Some (gorm.first_where P m).
Proof.
  intros Hk HP. destruct (gorm.first_where P m) eqn:Hf; [by eexists|].
  rewrite first_where_None in Hf. by destruct (Hf k r).
Qed.

Lemma count_nonneg m : 0 <= gorm.count P m.
Proof. unfold gorm.count. lia. Qed.

Lemma count_zero m :
  gorm.count P m = 0 <-> forall k r, m !! k = Some r -> ~ P k r.
Proof.
  unfold gorm.count. rewrite <- Where_empty, <- map_size_empty_iff. lia.
Qed.

Lemma count_pos m k r : m !! k = Some r -> P k r -> 0 < gorm.count P m.
Proof.
  intros Hk HP. pose proof (count_nonneg m).
  destruct (decide (gorm.count P m = 0)) as [Hz|]; [|lia].
  rewrite count_zero in Hz. by destruct (Hz k r).
Qed.
End queries.

(** ** ApplyForLicense *)

Lemma active_terms_found db termsID assetID n t :
  gorm.first_where (sql.active_terms termsID assetID) (license_terms db) = Some (n, t) ->
  n = termsID /\ license_terms db !! termsID = Some t
  /\ LicenseTerms.IPAssetID t = assetID /\ LicenseTerms.IsActive t = true.
Proof.
  intros [Hk (-> & ? & ?)]%first_where_Some. done.
Qed.

Lemma active_terms_find db termsID assetID t :
  license_terms db !! termsID = Some t ->
  LicenseTerms.IPAssetID t = assetID -> LicenseTerms.IsActive t = true ->
  gorm.first_where (sql.active_terms termsID assetID) (license_terms db)
  = Some (termsID, t).
Proof.
  intros Hk Ha Hact.
  destruct (first_where_is_Some (sql.active_terms termsID assetID)
              (license_terms db) termsID t Hk) as [[n t'] Hf]; [done|].
  rewrite Hf. apply active_terms_found in Hf as (-> & Hk' & _). congruence.
Qed.

Lemma open_application_None db assetID applicantID :
  gorm.first_where (sql.open_application assetID applicantID) (license_applications db)
  = None <-> ~ has_open_application db assetID applicantID.
Proof.
  rewrite first_where_None. unfold has_open_application. split.
  - intros H (k & a & Hk & HP). by apply (H k a).
  - intros H k a Hk HP. apply H. eauto.
Qed.

Ltac fail_unchanged := cbn [run]; by intros [= <- <-].

Lemma ApplyForLicense_error_unchanged newID now applicantID req db e db' :
  run (LicenseService.ApplyForLicense newID now applicantID req) db = (Err e, db') ->
  db' = db.
Proof.
  unfold LicenseService.ApplyForLicense.
  step; [fail_unchanged|]. step; [|fail_unchanged].
  step; [fail_unchanged|]. step; [fail_unchanged|].
  step; [|fail_unchanged]. step; [fail_unchanged|]. step; [fail_unchanged|].
  step; [|fail_unchanged]. step; [case_bool_decide; fail_unchanged|].
  rewrite run_bind. destruct (0 <? _).
  - step. step; [fail_unchanged|].
    rewrite run_bind, run_Create. destruct (license_applications db !! newID); [fail_unchanged|].
    rewrite run_bind, run_First. done.
  - cbn [run]. rewrite run_bind, run_Create.
    destruct (license_applications db !! newID); [fail_unchanged|].
    rewrite run_bind, run_First. done.
Qed.

(** What [apply] does once the checks on applicant, asset and terms have
    passed. *)
Lemma ApplyForLicense_admissible newID now applicantID req db ipAsset licenseTerms :
  apply_admissible db applicantID req ipAsset licenseTerms ->
  run (LicenseService.ApplyForLicense newID now applicantID req) db =
  match gorm.first_where
          (sql.open_application (ApplyLicenseRequest.IPAssetID req) applicantID)
          (license_applications db) with
  | Some (_, existingApp) =>
      (Err (if bool_decide (LicenseApplication.Status existingApp = ApplicationStatusApproved)
            then errors_New "you already have an approved license for this IP asset"
            else errors_New "you already have a pending application for this IP asset"),
       db)
  | None =>
      if (0 <? LicenseTerms.MaxLicenses licenseTerms)
         && (LicenseTerms.MaxLicenses licenseTerms
             <=? approved_count db (ApplyLicenseRequest.LicenseTermsID req))
      then (Err (errors_New "license limit reached for this license terms"), db)
      else
        let application :=
          LicenseService.new_application now applicantID req licenseTerms ipAsset in
        match license_applications db !! newID with
        | Some _ =>
            (Err (fmt_Errorf "failed to create license application: " ErrDuplicatedKey), db)
        | None =>
            (Ok application,
             with_license_applications db (<[newID := application]> (license_applications db)))
        end
  end.
Proof.
  intros (Hv & (u & Hu & Hact & Hty) & Ha & Hver & Hown & Ht & Hta & Htact).
  unfold LicenseService.ApplyForLicense.
  step; [congruence|]. step. step; [congruence|].
  step; [naive_solver|]. step. step; [congruence|]. step; [congruence|].
  rewrite run_bind, run_FirstWhere, (active_terms_find _ _ _ _ Ht Hta Htact).
  rewrite run_bind, run_FirstWhere.
  destruct (gorm.first_where _ (license_applications db)) as [[? existingApp]|].
  { by case_bool_decide. }
  rewrite run_bind. fold (approved_count db (ApplyLicenseRequest.LicenseTermsID req)).
  destruct (0 <? _).
  - rewrite run_bind, run_Count, run_reject_if.
    fold (approved_count db (ApplyLicenseRequest.LicenseTermsID req)).
    destruct (_ <=? _); [done|]. cbn [andb].
    rewrite run_bind, run_Create.
    destruct (license_applications db !! newID); [done|].
    rewrite run_bind, run_First. cbn. by rewrite lookup_insert_eq.
  - cbn [run andb]. rewrite run_bind, run_Create.
    destruct (license_applications db !! newID); [done|].
    rewrite run_bind, run_First. cbn. by rewrite lookup_insert_eq.
Qed.

Lemma ApplyForLicense_Ok_admissible newID now applicantID req db app db' :
  run (LicenseService.ApplyForLicense newID now applicantID req) db = (Ok app, db') ->
  exists ipAsset licenseTerms, apply_admissible db applicantID req ipAsset licenseTerms.
Proof.
  unfold LicenseService.ApplyForLicense.
  step; [done|]. step; [|done]. step; [done|]. step; [done|].
  step; [|done]. step; [done|]. step; [done|]. step; [|done].
  intros _.
  match goal with H : gorm.first_where _ (license_terms db) = _ |- _ =>
    apply active_terms_found in H as (-> & ? & ? & ?) end.
  eexists _, _. unfold apply_admissible. split_and!; try done.
  - eexists. split_and!; [done|by apply dec_stable|].
    match goal with H : ~ (_ /\ _) |- _ => apply not_and_l in H as [?|?] end;
      [left|right]; by apply dec_stable.
  - by apply dec_stable.
Qed.

Lemma ApplyForLicense_trace newID now applicantID req db ipAsset licenseTerms :
  apply_admissible db applicantID req ipAsset licenseTerms ->
  ~ has_open_application db (ApplyLicenseRequest.IPAssetID req) applicantID ->
  license_applications db !! newID = None ->
  let application := LicenseService.new_application now applicantID req licenseTerms ipAsset in
  let db' := with_license_applications db (<[newID := application]> (license_applications db)) in
  Forall (fun s => s = db \/ s = db')
    (trace (LicenseService.ApplyForLicense newID now applicantID req) db).
Proof.
  intros (Hv & (u & Hu & Hact & Hty) & Ha & Hver & Hown & Ht & Hta & Htact) Hopen Hfresh.
  apply open_application_None in Hopen.
  intros application db'. unfold LicenseService.ApplyForLicense.
  rewrite trace_bind, trace_reject_if, run_reject_if, Hv. cbn [negb app].
  rewrite trace_bind, run_First, Hu. cbn [trace gorm.First app]. constructor; [by left|].
  rewrite trace_bind, trace_reject_if, run_reject_if, bool_decide_eq_false_2 by naive_solver.
  cbn [app].
  rewrite trace_bind, trace_reject_if, run_reject_if, bool_decide_eq_false_2 by naive_solver.
  cbn [app].
  rewrite trace_bind, run_First, Ha. cbn [trace gorm.First app]. constructor; [by left|].
  rewrite trace_bind, trace_reject_if, run_reject_if, bool_decide_eq_false_2 by naive_solver.
  cbn [app].
  rewrite trace_bind, trace_reject_if, run_reject_if, bool_decide_eq_false_2 by naive_solver.
  cbn [app].
  rewrite trace_bind, run_FirstWhere, (active_terms_find _ _ _ _ Ht Hta Htact).
  cbn [trace gorm.FirstWhere app]. constructor; [by left|].
  rewrite trace_bind, run_FirstWhere, Hopen.
  cbn [trace gorm.FirstWhere app]. constructor; [by left|].
  rewrite trace_bind.
  assert (Htail : Forall (fun s => s = db \/ s = db')
            (trace (gorm.Create license_applications with_license_applications newID application
                    ≫= fun err =>
                      match err with
                      | Some err => Fail (fmt_Errorf "failed to create license application: " err)
                      | None => gorm.First license_applications newID
                                ≫= fun reloaded => Return (default application reloaded)
                      end) db)).
  { rewrite trace_bind, run_Create, Hfresh. cbn. rewrite Hfresh.
    constructor; [by right|]. constructor; [by right|]. constructor. }
  destruct (0 <? _).
  - rewrite trace_bind, run_Count, trace_reject_if. cbn [trace gorm.Count app].
    constructor; [by left|]. rewrite run_bind, run_Count, run_reject_if.
    destruct (_ <=? _); [constructor|]. apply Htail.
  - cbn [trace run app]. apply Htail.
Qed.

(** ** Claims about [apply] *)

(** C10. [apply] itself enforces the capacity cap: when the terms have
    [max_licenses > 0] and the number of approved applications referencing
    them has reached the cap, the call fails and leaves the store as it was;
    once the earlier checks of the call have passed, the error is the
    capacity error. *)
Theorem apply_enforces_capacity newID now applicantID req db licenseTerms :
  license_terms db !! ApplyLicenseRequest.LicenseTermsID req = Some licenseTerms ->
  0 < LicenseTerms.MaxLicenses licenseTerms ->
  LicenseTerms.MaxLicenses licenseTerms
    <= approved_count db (ApplyLicenseRequest.LicenseTermsID req) ->
  (exists e, run (LicenseService.ApplyForLicense newID now applicantID req) db = (Err e, db))
  /\ (forall ipAsset,
        apply_admissible db applicantID req ipAsset licenseTerms ->
        ~ has_open_application db (ApplyLicenseRequest.IPAssetID req) applicantID ->
        run (LicenseService.ApplyForLicense newID now applicantID req) db
        = (Err (errors_New "license limit reached for this license terms"), db)).
Proof.
  intros Ht Hpos Hfull.
  assert (Hlimit : forall ipAsset,
        apply_admissible db applicantID req ipAsset licenseTerms ->
        ~ has_open_application db (ApplyLicenseRequest.IPAssetID req) applicantID ->
        run (LicenseService.ApplyForLicense newID now applicantID req) db
        = (Err (errors_New "license limit reached for this license terms"), db)).
  { intros ipAsset Hadm Hopen%open_application_None.
    rewrite (ApplyForLicense_admissible _ _ _ _ _ _ _ Hadm), Hopen.
    by rewrite (proj2 (Z.ltb_lt _ _) Hpos), (proj2 (Z.leb_le _ _) Hfull). }
  split; [|done].
  destruct (run (LicenseService.ApplyForLicense newID now applicantID req) db)
    as [[app|e] db'] eqn:Hrun.
  - destruct (ApplyForLicense_Ok_admissible _ _ _ _ _ _ _ Hrun) as (a & t & Hadm).
    assert (t = licenseTerms) as -> by (destruct Hadm as (_&_&_&_&_&?&_); congruence).
    rewrite (ApplyForLicense_admissible _ _ _ _ _ _ _ Hadm) in Hrun.
    destruct (gorm.first_where _ _) as [[? ?]|]; [done|].
    by rewrite (proj2 (Z.ltb_lt _ _) Hpos), (proj2 (Z.leb_le _ _) Hfull) in Hrun.
  - apply ApplyForLicense_error_unchanged in Hrun as ->. eauto.
Qed.

Lemma apply_enforces_capacity_witness :
  run (LicenseService.ApplyForLicense 32%N 1000 sample.creator sample.apply_request)
      (sample.applied 1 ApplicationStatusApproved ApplicationStatusRejected)
  = (Err (errors_New "cannot apply for license on your own IP asset"),
     sample.applied 1 ApplicationStatusApproved ApplicationStatusRejected)
  /\ run (LicenseService.ApplyForLicense 32%N 1000 sample.licensee2 sample.apply_request)
         (sample.applied 1 ApplicationStatusApproved ApplicationStatusRejected)
     = (Err (errors_New "license limit reached for this license terms"),
        sample.applied 1 ApplicationStatusApproved ApplicationStatusRejected).
Proof.
  split.
  - destruct (apply_enforces_capacity 32%N 1000 sample.creator sample.apply_request
                (sample.applied 1 ApplicationStatusApproved ApplicationStatusRejected)
                (sample.the_terms 20%float false 1)) as [[e He] _];
      [reflexivity | reflexivity | vm_compute; discriminate |].
    rewrite He. vm_compute in He. congruence.
  - destruct (apply_enforces_capacity 32%N 1000 sample.licensee2 sample.apply_request
                (sample.applied 1 ApplicationStatusApproved ApplicationStatusRejected)
                (sample.the_terms 20%float false 1)) as [_ Hlimit];
      [reflexivity | reflexivity | vm_compute; discriminate |].
    apply (Hlimit sample.the_asset).
    + unfold apply_admissible. split_and!; try reflexivity; try discriminate.
      eexists. split_and!; [reflexivity | reflexivity | by left].
    + apply open_application_None. reflexivity.
Defined.

(** C5. An [apply] call against terms with [auto_approve = true] whose
    other preconditions hold returns an application that is approved, with
    [approved_at] set to the time of the call and the approver attributed by
    the system (the owner of the asset is recorded, no approver having
    acted); the row is approved in every store in which it exists, from the
    single statement that creates it onwards, so no later read sees it
    pending. *)
Theorem apply_auto_approve newID now applicantID req db ipAsset licenseTerms :
  apply_admissible db applicantID req ipAsset licenseTerms ->
  ~ has_open_application db (ApplyLicenseRequest.IPAssetID req) applicantID ->
  (LicenseTerms.MaxLicenses licenseTerms <= 0
   \/ approved_count db (ApplyLicenseRequest.LicenseTermsID req)
      < LicenseTerms.MaxLicenses licenseTerms) ->
  license_applications db !! newID = None ->
  LicenseTerms.AutoApprove licenseTerms = true ->
  exists application db',
    run (LicenseService.ApplyForLicense newID now applicantID req) db = (Ok application, db')
    /\ LicenseApplication.Status application = ApplicationStatusApproved
    /\ LicenseApplication.ApprovedAt application = Some now
    /\ LicenseApplication.ApprovedBy application = Some (IPAsset.CreatorID ipAsset)
    /\ license_applications db' !! newID = Some application
    /\ Forall (fun s => forall a, license_applications s !! newID = Some a ->
                                  LicenseApplication.Status a = ApplicationStatusApproved)
         (db :: trace (LicenseService.ApplyForLicense newID now applicantID req) db).
Proof.
  intros Hadm Hopen Hcap Hfresh Hauto.
  eexists _, _. split_and!.
  - rewrite (ApplyForLicense_admissible _ _ _ _ _ _ _ Hadm).
    rewrite (proj2 (open_application_None _ _ _) Hopen).
    replace (_ && _) with false; [by rewrite Hfresh|].
    symmetry. apply andb_false_iff. rewrite Z.ltb_ge, Z.leb_gt. tauto.
  - unfold LicenseService.new_application. by rewrite Hauto.
  - unfold LicenseService.new_application. by rewrite Hauto.
  - unfold LicenseService.new_application. by rewrite Hauto.
  - cbn. by rewrite lookup_insert_eq.
  - constructor; [intros a; by rewrite Hfresh|].
    eapply Forall_impl; [by apply ApplyForLicense_trace|].
    intros s [->| ->] a; [by rewrite Hfresh|]. cbn. rewrite lookup_insert_eq.
    intros [= <-]. unfold LicenseService.new_application. by rewrite Hauto.
Qed.

Lemma apply_auto_approve_witness :
  exists application db',
    run (LicenseService.ApplyForLicense 32%N 1000 sample.licensee sample.apply_request)
        (sample.published true 0) = (Ok application, db')
    /\ LicenseApplication.Status application = ApplicationStatusApproved
    /\ LicenseApplication.ApprovedAt application = Some 1000
    /\ LicenseApplication.ApprovedBy application = Some sample.creator
    /\ license_applications db' !! 32%N = Some application
    /\ Forall (fun s => forall a, license_applications s !! 32%N = Some a ->
                                  LicenseApplication.Status a = ApplicationStatusApproved)
         (sample.published true 0
          :: trace (LicenseService.ApplyForLicense 32%N 1000 sample.licensee
                      sample.apply_request) (sample.published true 0)).
Proof.
  apply (apply_auto_approve 32%N 1000 sample.licensee sample.apply_request
           (sample.published true 0) sample.the_asset (sample.the_terms 20%float true 0)).
  - unfold apply_admissible. split_and!; try reflexivity; try discriminate.
    eexists. split_and!; [reflexivity | reflexivity | by left].
  - apply open_application_None. reflexivity.
  - left. reflexivity.
  - reflexivity.
  - reflexivity.
Defined.

(** ** ApproveLicense, RejectLicense, RevokeLicense, VerifyLicense *)

Lemma run_creator_or_admin a ipAsset terms actorID err db :
  ipAsset = ip_assets db !! LicenseApplication.IPAssetID a ->
  run (LicenseService.creator_or_admin (PreloadedApplication.mk a ipAsset terms) actorID err) db
  = (if may_decide db a actorID then Ok tt else Err err, db).
Proof.
  intros ->. unfold LicenseService.creator_or_admin, may_decide.
  cbn [PreloadedApplication.IPAsset].
  destruct (decide (from_option IPAsset.CreatorID uuid_Nil
                      (ip_assets db !! LicenseApplication.IPAssetID a) = actorID)) as [Hown|Hown].
  - by rewrite bool_decide_eq_false_2, bool_decide_eq_true_2 by auto.
  - rewrite bool_decide_eq_true_2, bool_decide_eq_false_2 by done. cbn [orb].
    rewrite run_bind, run_First.
    destruct (users db !! actorID) as [u|]; [|done]. cbn [from_option].
    rewrite run_reject_if. by repeat case_bool_decide.
Qed.

Ltac step_creator_or_admin :=
  rewrite (run_bind (LicenseService.creator_or_admin _ _ _)),
    run_creator_or_admin by reflexivity.

Lemma ApproveLicense_run now applicationID approverID req db :
  run (LicenseService.ApproveLicense now applicationID approverID req) db =
  match license_applications db !! applicationID with
  | None => (Err (errors_New "license application not found"), db)
  | Some application =>
      if negb (may_decide db application approverID)
      then (Err (errors_New "unauthorized to approve license"), db)
      else if bool_decide (LicenseApplication.Status application <> ApplicationStatusPending)
      then (Err (errors_New "license application already processed"), db)
      else if (0 <? max_licenses_of db application)
              && (max_licenses_of db application
                  <=? gorm.count (sql.approved_under_except
                                    (LicenseApplication.LicenseTermsID application)
                                    applicationID) (license_applications db))
      then (Err (errors_New "license limit reached"), db)
      else
        let application :=
          LicenseService.approved_application now approverID req application in
        (Ok application, save_application db applicationID application)
  end.
Proof.
  unfold LicenseService.ApproveLicense.
  rewrite run_bind, run_load_application.
  destruct (license_applications db !! applicationID) as [a|]; [|done].
  cbn [PreloadedApplication.application PreloadedApplication.LicenseTerms].
  step_creator_or_admin. destruct (may_decide db a approverID); [|done]. cbn [negb].
  step; [done|].
  fold (max_licenses_of db a). rewrite run_bind. destruct (0 <? max_licenses_of db a).
  - rewrite run_bind, run_Count, run_reject_if. destruct (_ <=? _); [done|].
    cbn [andb]. by rewrite run_bind, run_Save.
  - cbn [run andb]. by rewrite run_bind, run_Save.
Qed.

Lemma RejectLicense_run now applicationID rejecterID req db :
  run (LicenseService.RejectLicense now applicationID rejecterID req) db =
  if negb (utils.ValidateRejectLicenseRequest req)
  then (Err (fmt_Errorf "validation failed: " ValidationErrors), db)
  else
    match license_applications db !! applicationID with
    | None => (Err (errors_New "license application not found"), db)
    | Some application =>
        if negb (may_decide db application rejecterID)
        then (Err (errors_New "unauthorized to reject license"), db)
        else if bool_decide (LicenseApplication.Status application <> ApplicationStatusPending)
        then (Err (errors_New "license application already processed"), db)
        else
          let application :=
            LicenseService.rejected_application now rejecterID req application in
          (Ok application, save_application db applicationID application)
    end.
Proof.
  unfold LicenseService.RejectLicense.
  rewrite run_bind, run_reject_if. destruct (negb _); [done|].
  rewrite run_bind, run_load_application.
  destruct (license_applications db !! applicationID) as [a|]; [|done].
  cbn [PreloadedApplication.application].
  step_creator_or_admin. destruct (may_decide db a rejecterID); [|done]. cbn [negb].
  step; [done|].
  by rewrite run_bind, run_Save.
Qed.

Lemma RevokeLicense_run now applicationID revokerID req db :
  run (LicenseService.RevokeLicense now applicationID revokerID req) db =
  if negb (utils.ValidateRevokeLicenseRequest req)
  then (Err (fmt_Errorf "validation failed: " ValidationErrors), db)
  else
    match license_applications db !! applicationID with
    | None => (Err (errors_New "license application not found"), db)
    | Some application =>
        if negb (may_decide db application revokerID)
        then (Err (errors_New "unauthorized to revoke license"), db)
        else if bool_decide (LicenseApplication.Status application <> ApplicationStatusApproved)
        then (Err (errors_New "can only revoke approved licenses"), db)
        else if 0 <? products_in_use db applicationID
        then (Err (errors_New "cannot revoke license with active products"), db)
        else
          let application :=
            LicenseService.revoked_application now revokerID req application in
          (Ok application, save_application db applicationID application)
    end.
Proof.
  unfold LicenseService.RevokeLicense.
  rewrite run_bind, run_reject_if. destruct (negb _); [done|].
  rewrite run_bind, run_load_application.
  destruct (license_applications db !! applicationID) as [a|]; [|done].
  cbn [PreloadedApplication.application].
  step_creator_or_admin. destruct (may_decide db a revokerID); [|done]. cbn [negb].
  step; [done|].
  rewrite run_bind, run_Count. fold (products_in_use db applicationID).
  rewrite run_bind, run_reject_if. destruct (0 <? _); [done|].
  by rewrite run_bind, run_Save.
Qed.

Lemma VerifyLicense_run now licenseID db :
  run (LicenseService.VerifyLicense now licenseID) db =
  match license_applications db !! licenseID with
  | None => (Err (errors_New "license not found"), db)
  | Some license =>
      if bool_decide (LicenseApplication.Status license <> ApplicationStatusApproved)
         || negb (LicenseApplication.IsActive license)
      then (Err (errors_New "license is not active"), db)
      else if match LicenseApplication.ExpiresAt license with
              | Some ExpiresAt => After now ExpiresAt
              | None => false
              end
      then (Err (errors_New "license has expired"), db)
      else (Ok license, db)
  end.
Proof.
  unfold LicenseService.VerifyLicense.
  rewrite run_bind, run_load_application.
  destruct (license_applications db !! licenseID) as [a|]; [|done].
  cbn [PreloadedApplication.application].
  rewrite run_bind, run_reject_if. destruct (_ || _); [done|].
  rewrite run_bind, run_reject_if. by destruct (match _ with Some _ => _ | None => _ end).
Qed.

(** ** PurchaseProduct *)

(** Running alone, a transaction is all or nothing. *)
Lemma run_in_transaction {A} (body : Prog A) pending db :
  run (gorm.in_transaction body pending) db =
  match run body (pending db) with
  | (Ok a, db') => (Ok a, db')
  | (Err e, _) => (Err e, db)
  end.
Proof.
  revert pending db. induction body as [a|e|X q k IH]; intros pending db; [done..|].
  cbn [gorm.in_transaction run]. rewrite IH.
  by destruct (q (pending db)) as [x db1].
Qed.

Lemma run_Transaction {A} (body : Prog A) db :
  run (gorm.Transaction body) db =
  match run body db with
  | (Ok a, db') => (Ok a, db')
  | (Err e, _) => (Err e, db)
  end.
Proof. apply run_in_transaction. Qed.

(** A stored row differs from the row written in its two decimal columns. *)
Lemma stored_inv t row :
  Transaction.stored t = Some row ->
  decimal.store (Transaction.Amount t) = Some (Transaction.Amount row)
  /\ decimal.store (Transaction.PlatformFee t) = Some (Transaction.PlatformFee row)
  /\ Transaction.RevenueShares row = Transaction.RevenueShares t
  /\ Transaction.Status row = Transaction.Status t
  /\ Transaction.ProductID row = Transaction.ProductID t
  /\ Transaction.BuyerID row = Transaction.BuyerID t
  /\ Transaction.SellerID row = Transaction.SellerID t.
Proof.
  unfold Transaction.stored.
  destruct (decimal.store (Transaction.Amount t)) as [amount|]; [|done].
  destruct (decimal.store (Transaction.PlatformFee t)) as [platformFee|]; [|done].
  by intros [= <-].
Qed.

Lemma run_load_product productID db :
  run (ProductService.load_product productID) db
  = (Ok (ProductService.preload db <$> products db !! productID), db).
Proof. done. Qed.

(** The three writes of the transaction body, on a product that exists. *)
Lemma purchase_writes db newID transaction productID product q :
  products db !! productID = Some product ->
  with_products
    (with_products
       (with_transactions db (<[newID := transaction]> (transactions db)))
       (alter (fun p => Product.with_InventoryCount p (Product.InventoryCount p - q))
          productID (products db)))
    (alter (fun p => Product.with_SalesCount p (Product.SalesCount p + q)) productID
       (alter (fun p => Product.with_InventoryCount p (Product.InventoryCount p - q))
          productID (products db)))
  = purchase_committed db newID transaction productID product q.
Proof.
  intros Hp. unfold purchase_committed, with_products, with_transactions. cbn. f_equal.
  apply map_eq. intros i. destruct (decide (i = productID)) as [->|Hne].
  - by rewrite lookup_insert_eq, !lookup_alter_eq, Hp.
  - by rewrite lookup_insert_ne, !lookup_alter_ne.
Qed.

Lemma PurchaseProduct_run newID fault productID buyerID req db :
  run (ProductService.PurchaseProduct newID fault productID buyerID req) db =
  if negb (utils.ValidatePurchaseProductRequest req)
  then (Err (fmt_Errorf "validation failed: " ValidationErrors), db)
  else
    match products db !! productID with
    | None => (Err (errors_New "product not found"), db)
    | Some product =>
        if bool_decide (Product.Status product <> ProductStatusActive)
        then (Err (errors_New "product is not available for purchase"), db)
        else if Product.InventoryCount product <? PurchaseProductRequest.Quantity req
        then (Err (errors_New "insufficient inventory"), db)
        else
          match users db !! buyerID with
          | None => (Err (fmt_Errorf "buyer not found: " ErrRecordNotFound), db)
          | Some buyer =>
              if bool_decide (User.Status buyer <> UserStatusActive)
              then (Err (errors_New "buyer account is not active"), db)
              else if bool_decide (fault = CreateFails)
              then (Err (fmt_Errorf "failed to create transaction: " ErrWriteFailed), db)
              else
                match Transaction.stored
                        (ProductService.new_transaction productID buyerID req
                           (ProductService.preload db product)) with
                | None =>
                    (Err (fmt_Errorf "failed to create transaction: " ErrWriteFailed), db)
                | Some transaction =>
                    match transactions db !! newID with
                    | Some _ =>
                        (Err (fmt_Errorf "failed to create transaction: " ErrDuplicatedKey),
                         db)
                    | None =>
                        if bool_decide (fault = InventoryUpdateFails)
                        then (Err (fmt_Errorf "failed to update inventory: " ErrWriteFailed),
                              db)
                        else if bool_decide (fault = SalesUpdateFails)
                        then (Err (fmt_Errorf "failed to update sales count: "
                                     ErrWriteFailed), db)
                        else
                          (Ok transaction,
                           purchase_committed db newID transaction productID product
                             (PurchaseProductRequest.Quantity req))
                    end
                end
          end
    end.
Proof.
  unfold ProductService.PurchaseProduct, ProductService.purchaseProductTransaction.
  rewrite run_bind, run_reject_if. destruct (negb _); [done|].
  rewrite run_bind, run_Transaction. unfold ProductService.purchase_body.
  rewrite run_bind, run_load_product.
  destruct (products db !! productID) as [product|] eqn:Hp; [|done].
  cbn [fmap option_fmap option_map PreloadedProduct.product ProductService.preload].
  step; [done|]. step; [done|].
  rewrite run_bind, run_First. destruct (users db !! buyerID) as [buyer|]; [|done].
  step; [done|]. rewrite run_bind.
  destruct (bool_decide (fault = CreateFails)); [done|].
  destruct (Transaction.stored _) as [transaction|]; [|done].
  rewrite run_Create. destruct (transactions db !! newID) eqn:Hnew; [done|].
  step; [done|]. rewrite run_bind, run_UpdateColumn.
  step; [done|]. rewrite run_bind, run_UpdateColumn. cbn [run products].
  rewrite run_bind, run_First. cbn [transactions with_products with_transactions].
  rewrite lookup_insert_eq. cbn [run default from_option].
  by rewrite <- (purchase_writes _ _ _ _ _ _ Hp).
Qed.

(** ** AuthorizationService and BlockchainService *)

Lemma run_catch {A} (p : Prog A) db :
  run (catch p) db = (Ok (run p db).1, (run p db).2).
Proof.
  revert db. induction p as [a|e|X q k IH]; intros db; cbn; try done.
  destruct (q db) as [x db']. apply IH.
Qed.

Lemma run_load_chain id db :
  run (load_chain id) db =
  (Ok (match authorization_chains db !! id with
       | None => None
       | Some c =>
           Some (PreloadedChain.mk c
                   (ip_assets db !! AuthorizationChain.IPAssetID c)
                   (license_applications db !! AuthorizationChain.LicenseID c))
       end), db).
Proof. done. Qed.

Lemma BlockchainService_VerifyChain_run bs authChainID db :
  run (BlockchainService.VerifyChain bs authChainID) db =
  match authorization_chains db !! authChainID with
  | None => (Err (fmt_Errorf "authorization chain not found: " ErrRecordNotFound), db)
  | Some authChain =>
      if String.eqb (AuthorizationChain.BlockchainHash authChain) ""
      then (Err (errors_New "no blockchain hash found"), db)
      else if negb (AuthorizationChain.IsActive authChain)
      then (Err (errors_New "authorization chain is not active"), db)
      else if bool_decide (IPAsset.VerificationStatus
                             <$> ip_assets db !! AuthorizationChain.IPAssetID authChain
                           <> Some VerificationStatusApproved)
      then (Err (errors_New "IP asset is not approved"), db)
      else if bool_decide (LicenseApplication.Status
                             <$> license_applications db !! AuthorizationChain.LicenseID authChain
                           <> Some ApplicationStatusApproved)
      then (Err (errors_New "license is not approved"), db)
      else (Ok true, db)
  end.
Proof.
  unfold BlockchainService.VerifyChain.
  rewrite run_bind, run_load_chain.
  destruct (authorization_chains db !! authChainID) as [c|]; [|done].
  cbn [PreloadedChain.authChain PreloadedChain.IPAsset PreloadedChain.License].
  rewrite run_bind, run_reject_if. destruct (String.eqb _ _); [done|].
  rewrite run_bind, run_reject_if. destruct (negb _); [done|].
  rewrite run_bind, run_reject_if. destruct (bool_decide _); [done|].
  rewrite run_bind, run_reject_if. by destruct (bool_decide _).
Qed.

Lemma AuthorizationService_VerifyChain_unchanged s authChainID db :
  (run (AuthorizationService.VerifyChain s authChainID) db).2 = db.
Proof.
  unfold AuthorizationService.VerifyChain. destruct (blockchainService s) as [bs|].
  - rewrite BlockchainService_VerifyChain_run. by repeat case_match.
  - rewrite run_bind, run_load_chain. by case_match.
Qed.

Lemma VerifyProductByCode_unchanged s code db :
  (run (AuthorizationService.VerifyProductByCode s code) db).2 = db.
Proof.
  unfold AuthorizationService.VerifyProductByCode.
  rewrite run_bind, run_FirstWhere.
  destruct (gorm.first_where _ _) as [[id c]|]; [|done].
  rewrite run_bind, run_catch.
  rewrite AuthorizationService_VerifyChain_unchanged.
  by destruct (run _ db).1 as [[|]|].
Qed.

Lemma RevokeAuthChain_run s authChainID reason db :
  run (AuthorizationService.RevokeAuthChain s authChainID reason) db =
  match authorization_chains db !! authChainID with
  | None => (Err (fmt_Errorf "authorization chain not found: " ErrRecordNotFound), db)
  | Some authChain =>
      (Ok tt, with_authorization_chains db
                (<[authChainID := AuthorizationChain.with_IsActive authChain false]>
                   (authorization_chains db)))
  end.
Proof.
  unfold AuthorizationService.RevokeAuthChain. rewrite run_bind, run_First.
  by destruct (authorization_chains db !! authChainID).
Qed.

(** ** The effect of each call on the tables *)

Lemma ApplyForLicense_effect newID now applicantID req db :
  (exists e, run (LicenseService.ApplyForLicense newID now applicantID req) db = (Err e, db))
  \/ (exists ipAsset licenseTerms,
        apply_admissible db applicantID req ipAsset licenseTerms
        /\ ~ has_open_application db (ApplyLicenseRequest.IPAssetID req) applicantID
        /\ license_applications db !! newID = None
        /\ run (LicenseService.ApplyForLicense newID now applicantID req) db
           = (Ok (LicenseService.new_application now applicantID req licenseTerms ipAsset),
              save_application db newID
                (LicenseService.new_application now applicantID req licenseTerms ipAsset))).
Proof.
  destruct (run (LicenseService.ApplyForLicense newID now applicantID req) db)
    as [[app|e] db'] eqn:Hrun.
  - right. destruct (ApplyForLicense_Ok_admissible _ _ _ _ _ _ _ Hrun) as (a & t & Hadm).
    exists a, t. rewrite (ApplyForLicense_admissible _ _ _ _ _ _ _ Hadm) in Hrun.
    destruct (gorm.first_where _ _) as [[? ?]|] eqn:Hopen; [done|].
    apply open_application_None in Hopen.
    destruct (_ && _); [done|].
    destruct (license_applications db !! newID); [done|].
    by injection Hrun as <- <-.
  - left. apply ApplyForLicense_error_unchanged in Hrun as ->. eauto.
Qed.

Lemma new_application_fields now applicantID req licenseTerms ipAsset :
  let a := LicenseService.new_application now applicantID req licenseTerms ipAsset in
  LicenseApplication.IPAssetID a = ApplyLicenseRequest.IPAssetID req
  /\ LicenseApplication.ApplicantID a = applicantID
  /\ LicenseApplication.LicenseTermsID a = ApplyLicenseRequest.LicenseTermsID req
  /\ LicenseApplication.Status a
     = (if LicenseTerms.AutoApprove licenseTerms
        then ApplicationStatusApproved else ApplicationStatusPending)
  /\ LicenseApplication.IsActive a = true
  /\ LicenseApplication.ExpiresAt a = None.
Proof. unfold LicenseService.new_application. by destruct (LicenseTerms.AutoApprove _). Qed.

Lemma approved_application_fields now approverID req a :
  let a' := LicenseService.approved_application now approverID req a in
  LicenseApplication.IPAssetID a' = LicenseApplication.IPAssetID a
  /\ LicenseApplication.ApplicantID a' = LicenseApplication.ApplicantID a
  /\ LicenseApplication.LicenseTermsID a' = LicenseApplication.LicenseTermsID a
  /\ LicenseApplication.Status a' = ApplicationStatusApproved
  /\ LicenseApplication.ApprovedAt a' = Some now
  /\ LicenseApplication.ApprovedBy a' = Some approverID.
Proof. unfold LicenseService.approved_application. by destruct (negb _). Qed.

Lemma rejected_application_fields now rejecterID req a :
  let a' := LicenseService.rejected_application now rejecterID req a in
  LicenseApplication.IPAssetID a' = LicenseApplication.IPAssetID a
  /\ LicenseApplication.ApplicantID a' = LicenseApplication.ApplicantID a
  /\ LicenseApplication.LicenseTermsID a' = LicenseApplication.LicenseTermsID a
  /\ LicenseApplication.Status a' = ApplicationStatusRejected.
Proof. done. Qed.

Lemma revoked_application_fields now revokerID req a :
  let a' := LicenseService.revoked_application now revokerID req a in
  LicenseApplication.IPAssetID a' = LicenseApplication.IPAssetID a
  /\ LicenseApplication.ApplicantID a' = LicenseApplication.ApplicantID a
  /\ LicenseApplication.LicenseTermsID a' = LicenseApplication.LicenseTermsID a
  /\ LicenseApplication.Status a' = ApplicationStatusRevoked
  /\ LicenseApplication.IsActive a' = false.
Proof. done. Qed.

(** Every call moves the applications table by one step of the workflow. *)
Lemma exec_applications_step c db : applications_step db (exec c db).
Proof.
  destruct c as [newID now applicantID req|now id actor req|now id actor req
                |now id actor req|now id|newID fault productID buyerID req
                |now id t|s code|s id reason]; cbn [exec].
  - destruct (ApplyForLicense_effect newID now applicantID req db)
      as [[e ->]|(a & t & Hadm & Hopen & Hfresh & ->)]; [by left|].
    right; left. eexists newID, _. split_and!; [done|done| |].
    + destruct (new_application_fields now applicantID req t a) as (_&_&_&Hs&_).
      unfold is_open. rewrite Hs. destruct (LicenseTerms.AutoApprove t); auto.
    + by destruct (new_application_fields now applicantID req t a) as (-> & -> & _).
  - rewrite ApproveLicense_run.
    destruct (license_applications db !! id) as [a|] eqn:Ha; [|by left].
    destruct (negb _); [by left|]. case_bool_decide as Hst; [by left|].
    destruct (_ && _); [by left|]. right; right. exists id, a. eexists.
    split_and!; [done|done|].
    destruct (approved_application_fields now actor req a) as (?&?&?&?&_).
    unfold application_transition. split_and!; try done. left.
    split; [done|by left].
  - rewrite RejectLicense_run. destruct (negb _); [by left|].
    destruct (license_applications db !! id) as [a|] eqn:Ha; [|by left].
    destruct (negb _); [by left|]. case_bool_decide as Hst; [by left|].
    right; right. exists id, a. eexists. split_and!; [done|done|].
    unfold application_transition. split_and!; try done. left.
    split; [done|by right].
  - rewrite RevokeLicense_run. destruct (negb _); [by left|].
    destruct (license_applications db !! id) as [a|] eqn:Ha; [|by left].
    destruct (negb _); [by left|]. case_bool_decide as Hst; [by left|].
    destruct (0 <? _); [by left|].
    right; right. exists id, a. eexists. split_and!; [done|done|].
    unfold application_transition. split_and!; try done. right.
    split; [done|done].
  - left. rewrite VerifyLicense_run. by repeat case_match.
  - left. rewrite PurchaseProduct_run. by repeat case_match.
  - by left.
  - left. by rewrite VerifyProductByCode_unchanged.
  - left. rewrite RevokeAuthChain_run. by case_match.
Qed.

(** Only a purchase writes the products table, and only by selling. *)
Lemma exec_products c db :
  products (exec c db) = products db
  \/ (exists productID product q,
        products db !! productID = Some product
        /\ q <= Product.InventoryCount product
        /\ products (exec c db) = <[productID := sold q product]> (products db)).
Proof.
  destruct c as [newID now applicantID req|now id actor req|now id actor req
                |now id actor req|now id|newID fault productID buyerID req
                |now id t|s code|s id reason]; cbn [exec].
  - left. by destruct (ApplyForLicense_effect newID now applicantID req db)
      as [[e ->]|(a & t & _ & _ & _ & ->)].
  - left. rewrite ApproveLicense_run. by repeat case_match.
  - left. rewrite RejectLicense_run. by repeat case_match.
  - left. rewrite RevokeLicense_run. by repeat case_match.
  - left. rewrite VerifyLicense_run. by repeat case_match.
  - rewrite PurchaseProduct_run. destruct (negb _); [by left|].
    destruct (products db !! productID) as [product|] eqn:Hp; [|by left].
    destruct (bool_decide _); [by left|].
    destruct (_ <? _) eqn:Hq; [by left|]. apply Z.ltb_ge in Hq.
    destruct (users db !! buyerID); [|by left].
    repeat (destruct (bool_decide _); [by left|]).
    destruct (Transaction.stored _); [|by left].
    destruct (transactions db !! newID); [by left|].
    repeat (destruct (bool_decide _); [by left|]).
    right. by exists productID, product, (PurchaseProductRequest.Quantity req).
  - by left.
  - left. by rewrite VerifyProductByCode_unchanged.
  - left. rewrite RevokeAuthChain_run. by case_match.
Qed.

(** ** Invariants along sequences of calls *)

Lemma exec_all_ind (P : DB -> Prop) :
  (forall c db, P db -> P (exec c db)) ->
  forall calls db, P db -> P (exec_all calls db).
Proof.
  intros Hstep calls. unfold exec_all.
  induction calls as [|c calls IH]; intros db HP; cbn; [done|].
  apply IH, Hstep, HP.
Qed.

Lemma exclusive_step db db' :
  exclusive db -> applications_step db db' -> exclusive db'.
Proof.
  unfold exclusive, map_Forall.
  intros Hex [Heq|[(id & a & Hnone & Heq & Hopen & Hno)|(id & a & a' & Hsome & Heq & Htr)]]
    i x Hi j y Hj Hasset Happl Hox Hoy; rewrite Heq in Hi, Hj.
  - eauto.
  - apply lookup_insert_Some in Hi as [[<- <-]|[Hni Hi]];
      apply lookup_insert_Some in Hj as [[<- <-]|[Hnj Hj]]; [done| | |eauto].
    + destruct Hno. exists j, y. unfold sql.open_application. split; [done|].
      split_and!; [by symmetry|by symmetry|apply Hoy].
    + destruct Hno. exists i, x. unfold sql.open_application. split; [done|].
      split_and!; [done|done|apply Hox].
  - destruct Htr as (Ha1 & Ha2 & _ & Hst).
    assert (Hback : is_open a' -> is_open a).
    { unfold is_open. destruct Hst as [[-> _]|[-> ->]]; [by left|]. by intros [|]. }
    apply lookup_insert_Some in Hi as [[<- <-]|[Hni Hi]];
      apply lookup_insert_Some in Hj as [[<- <-]|[Hnj Hj]]; [done| | |eauto].
    + apply (Hex id a Hsome j y Hj); [congruence|congruence|auto|done].
    + apply (Hex i x Hi id a Hsome); [congruence|congruence|done|auto].
Qed.

Lemma exclusive_exec_all calls db : exclusive db -> exclusive (exec_all calls db).
Proof.
  apply exec_all_ind. intros c db' Hex.
  eapply exclusive_step; [done|apply exec_applications_step].
Qed.

(** [revoked] is terminal: no step of the workflow leaves it. *)
Lemma revoked_step db db' id a :
  license_applications db !! id = Some a ->
  LicenseApplication.Status a = ApplicationStatusRevoked ->
  applications_step db db' ->
  license_applications db' !! id = Some a.
Proof.
  intros Ha Hst [->|[(id' & a' & Hnone & -> & _)|(id' & b & b' & Hsome & -> & Htr)]];
    [done| |].
  - rewrite lookup_insert_ne; [done|congruence].
  - destruct (decide (id' = id)) as [->|Hne]; [|by rewrite lookup_insert_ne].
    destruct Htr as (_ & _ & _ & [[Hb _]|[Hb _]]); congruence.
Qed.

Lemma revoked_exec_all calls db id a :
  license_applications db !! id = Some a ->
  LicenseApplication.Status a = ApplicationStatusRevoked ->
  license_applications (exec_all calls db) !! id = Some a.
Proof.
  intros Ha Hst. revert db Ha.
  apply (exec_all_ind (fun db => license_applications db !! id = Some a)).
  intros c db' Ha.
  eapply revoked_step; [done|done|apply exec_applications_step].
Qed.

Lemma inventory_nonneg_exec c db : inventory_nonneg db -> inventory_nonneg (exec c db).
Proof.
  unfold inventory_nonneg.
  intros Hinv. destruct (exec_products c db) as [->|(id & p & q & Hp & Hq & ->)]; [done|].
  apply map_Forall_insert_2; [|done]. cbn. lia.
Qed.

Lemma has_product_in_use_count db licenseID :
  has_product_in_use db licenseID <-> 0 < products_in_use db licenseID.
Proof.
  unfold has_product_in_use, products_in_use. split.
  - intros (id & p & Hp & Huse). by eapply count_pos.
  - intros Hpos. destruct (gorm.first_where (sql.product_in_use licenseID) (products db))
      as [[id p]|] eqn:Hf.
    + apply first_where_Some in Hf. naive_solver.
    + pose proof (proj2 (count_zero _ _) (proj1 (first_where_None _ _) Hf)). lia.
Qed.

(** ** Claims about the license workflow *)

(** Served one after the other, the calls keep every (asset, applicant)
    pair at one application at most in {pending, approved}, and [apply]
    fails and writes nothing whenever the applicant already holds such an
    application for the asset, with the duplicate-application error once the
    checks on applicant, asset and terms have passed.  The license service
    opens no transaction and takes no lock, and the table has no unique
    index on the pair: two calls in flight are studied further below. *)
Theorem applications_exclusive calls db :
  exclusive db ->
  exclusive (exec_all calls db)
  /\ (forall newID now applicantID req db0,
        has_open_application db0 (ApplyLicenseRequest.IPAssetID req) applicantID ->
        (exists e,
           run (LicenseService.ApplyForLicense newID now applicantID req) db0 = (Err e, db0))
        /\ (forall ipAsset licenseTerms,
              apply_admissible db0 applicantID req ipAsset licenseTerms ->
              exists e,
                run (LicenseService.ApplyForLicense newID now applicantID req) db0
                = (Err e, db0) /\ duplicate_error e)).
Proof.
  intros Hex. split; [by apply exclusive_exec_all|].
  intros newID now applicantID req db0 Hopen. split.
  - destruct (ApplyForLicense_effect newID now applicantID req db0)
      as [?|(a & t & _ & Hno & _)]; [done|by destruct Hno].
  - intros a t Hadm. rewrite (ApplyForLicense_admissible _ _ _ _ _ _ _ Hadm).
    destruct (gorm.first_where _ _) as [[k existing]|] eqn:Hf.
    + eexists. split; [done|]. unfold duplicate_error. case_bool_decide; auto.
    + by apply open_application_None in Hf.
Qed.

Lemma applications_exclusive_witness :
  exclusive
    (exec_all
       [CallApply 32%N 1000 sample.licensee sample.apply_request;
        CallApprove 1001 sample.application sample.creator (ApproveLicenseRequest.mk "ok");
        CallApply 33%N 1002 sample.licensee2 sample.apply_request;
        CallRevoke 1003 sample.application sample.admin
          (RevokeLicenseRequest.mk "breach" "");
        CallApply 34%N 1004 sample.licensee sample.apply_request]
       (sample.applied 0 ApplicationStatusPending ApplicationStatusRejected))
  /\ run (LicenseService.ApplyForLicense 32%N 1000 sample.licensee sample.apply_request)
         (sample.applied 0 ApplicationStatusPending ApplicationStatusRejected)
     = (Err (errors_New "you already have a pending application for this IP asset"),
        sample.applied 0 ApplicationStatusPending ApplicationStatusRejected).
Proof.
  destruct (applications_exclusive
              [CallApply 32%N 1000 sample.licensee sample.apply_request;
               CallApprove 1001 sample.application sample.creator
                 (ApproveLicenseRequest.mk "ok");
               CallApply 33%N 1002 sample.licensee2 sample.apply_request;
               CallRevoke 1003 sample.application sample.admin
                 (RevokeLicenseRequest.mk "breach" "");
               CallApply 34%N 1004 sample.licensee sample.apply_request]
              (sample.applied 0 ApplicationStatusPending ApplicationStatusRejected))
    as [Hex Hdup].
  { apply (bool_decide_unpack _). vm_compute. exact I. }
  split; [exact Hex|].
  destruct (Hdup 32%N 1000 sample.licensee sample.apply_request
              (sample.applied 0 ApplicationStatusPending ApplicationStatusRejected))
    as [[e He] _].
  { exists sample.application, (sample.an_application sample.licensee ApplicationStatusPending None).
    split; [reflexivity|]. unfold sql.open_application. split_and!; try reflexivity. by left. }
  rewrite He. vm_compute in He. congruence.
Defined.

(** C7. [revoke] succeeds only on an approved application that no product
    in {active, draft} references; the application then becomes revoked
    with [is_active = false] and stays revoked through every later call.
    While such a product exists the call fails (with the conflict error
    once validation, lookup, authorization and the status check have
    passed), and every failing call leaves the store exactly as it was. *)
Theorem revoke_license now applicationID revokerID req db :
  (forall application' db',
     run (LicenseService.RevokeLicense now applicationID revokerID req) db
     = (Ok application', db') ->
     exists application,
       license_applications db !! applicationID = Some application
       /\ LicenseApplication.Status application = ApplicationStatusApproved
       /\ ~ has_product_in_use db applicationID
       /\ LicenseApplication.Status application' = ApplicationStatusRevoked
       /\ LicenseApplication.IsActive application' = false
       /\ db' = save_application db applicationID application'
       /\ forall calls,
            license_applications (exec_all calls db') !! applicationID = Some application')
  /\ (forall application,
        utils.ValidateRevokeLicenseRequest req = true ->
        license_applications db !! applicationID = Some application ->
        may_decide db application revokerID = true ->
        LicenseApplication.Status application = ApplicationStatusApproved ->
        ~ has_product_in_use db applicationID ->
        exists application',
          run (LicenseService.RevokeLicense now applicationID revokerID req) db
          = (Ok application', save_application db applicationID application'))
  /\ (has_product_in_use db applicationID ->
      (exists e,
         run (LicenseService.RevokeLicense now applicationID revokerID req) db = (Err e, db))
      /\ (forall application,
            utils.ValidateRevokeLicenseRequest req = true ->
            license_applications db !! applicationID = Some application ->
            may_decide db application revokerID = true ->
            LicenseApplication.Status application = ApplicationStatusApproved ->
            run (LicenseService.RevokeLicense now applicationID revokerID req) db
            = (Err (errors_New "cannot revoke license with active products"), db)))
  /\ (forall e db',
        run (LicenseService.RevokeLicense now applicationID revokerID req) db = (Err e, db') ->
        db' = db).
Proof.
  rewrite RevokeLicense_run. split_and!.
  - intros a' db'. destruct (negb _); [done|].
    destruct (license_applications db !! applicationID) as [a|]; [|done].
    destruct (negb _); [done|]. case_bool_decide as Hst; [done|].
    destruct (0 <? _) eqn:Hcount; [done|]. intros [= <- <-].
    exists a. split_and!; try done.
    + rewrite has_product_in_use_count. apply Z.ltb_ge in Hcount. lia.
    + intros calls. apply revoked_exec_all; [|done]. cbn. apply lookup_insert_eq.
  - intros a -> -> -> -> Hno. rewrite has_product_in_use_count in Hno.
    cbn [negb]. rewrite bool_decide_eq_false_2 by auto.
    rewrite (proj2 (Z.ltb_ge _ _)) by lia. eauto.
  - intros Huse%has_product_in_use_count. apply Z.ltb_lt in Huse. split.
    + destruct (negb _); [eauto|].
      destruct (license_applications db !! applicationID) as [a|]; [|eauto].
      destruct (negb _); [eauto|]. case_bool_decide; [eauto|].
      rewrite Huse. eauto.
    + intros a -> -> -> ->. cbn [negb].
      by rewrite bool_decide_eq_false_2, Huse by auto.
  - intros e db'. by repeat case_match; intros [= <- <-].
Qed.

Lemma revoke_license_witness :
  run (LicenseService.RevokeLicense 1000 sample.application sample.creator
         (RevokeLicenseRequest.mk "breach of terms" ""))
      (sample.on_sale 10%float 20%float 5 ApplicationStatusApproved None)
  = (Err (errors_New "cannot revoke license with active products"),
     sample.on_sale 10%float 20%float 5 ApplicationStatusApproved None)
  /\ exists application',
       run (LicenseService.RevokeLicense 1000 sample.application sample.creator
              (RevokeLicenseRequest.mk "breach of terms" ""))
           (sample.applied 0 ApplicationStatusApproved ApplicationStatusPending)
       = (Ok application',
          save_application (sample.applied 0 ApplicationStatusApproved ApplicationStatusPending)
            sample.application application').
Proof.
  split.
  - destruct (revoke_license 1000 sample.application sample.creator
                (RevokeLicenseRequest.mk "breach of terms" "")
                (sample.on_sale 10%float 20%float 5 ApplicationStatusApproved None))
      as (_ & _ & Hconflict & _).
    destruct Hconflict as [_ Hconflict].
    { exists sample.product, (sample.a_product 10%float 5 ProductStatusActive).
      split; [reflexivity|]. unfold sql.product_in_use. split; [reflexivity|by left]. }
    by apply (Hconflict (sample.an_application sample.licensee ApplicationStatusApproved None)).
  - destruct (revoke_license 1000 sample.application sample.creator
                (RevokeLicenseRequest.mk "breach of terms" "")
                (sample.applied 0 ApplicationStatusApproved ApplicationStatusPending))
      as (_ & Hok & _).
    apply (Hok (sample.an_application sample.licensee ApplicationStatusApproved None));
      try reflexivity.
    rewrite has_product_in_use_count. vm_compute. discriminate.
Defined.

(** C9. For a license whose [expires_at] is set and earlier than the
    current time, [verify] fails and returns the store unchanged, so neither
    the status nor any other field of the stored application is touched; the
    error is the expiry error once the check that the license is approved
    and active has passed. *)
Theorem verify_license_expired now licenseID db license expiresAt :
  license_applications db !! licenseID = Some license ->
  LicenseApplication.ExpiresAt license = Some expiresAt ->
  expiresAt < now ->
  (exists e, run (LicenseService.VerifyLicense now licenseID) db = (Err e, db))
  /\ (LicenseApplication.Status license = ApplicationStatusApproved ->
      LicenseApplication.IsActive license = true ->
      run (LicenseService.VerifyLicense now licenseID) db
      = (Err (errors_New "license has expired"), db)).
Proof.
  intros Hl He Hlt. rewrite VerifyLicense_run, Hl, He. unfold After.
  rewrite (proj2 (Z.ltb_lt _ _) Hlt). split.
  - destruct (_ || _); eauto.
  - intros -> ->. by rewrite bool_decide_eq_false_2 by auto.
Qed.

Lemma verify_license_expired_witness :
  run (LicenseService.VerifyLicense 1000 sample.application)
      (sample.on_sale 10%float 20%float 5 ApplicationStatusApproved (Some 500))
  = (Err (errors_New "license has expired"),
     sample.on_sale 10%float 20%float 5 ApplicationStatusApproved (Some 500)).
Proof.
  apply (verify_license_expired 1000 sample.application
           (sample.on_sale 10%float 20%float 5 ApplicationStatusApproved (Some 500))
           (sample.an_application sample.licensee ApplicationStatusApproved (Some 500)) 500);
    reflexivity.
Defined.

(** ** Claims about purchase and settlement *)

Lemma new_transaction_Status productID buyerID req loaded :
  Transaction.Status (ProductService.new_transaction productID buyerID req loaded)
  = TransactionStatusPending.
Proof. unfold ProductService.new_transaction. by destruct (_ || _). Qed.

(** Purchases served one after the other.  A purchase fails, writing
    nothing, when the product is not active or holds fewer units than
    requested.  A purchase that succeeds found the product active with
    enough units, created the pending transaction and took exactly the
    requested quantity off [inventory_count]; a purchase that fails at any
    point, a failing write included, leaves no trace.  Hence no sequence of
    calls, each complete before the next starts, makes an inventory
    negative. *)
Theorem purchase_inventory calls db :
  inventory_nonneg db ->
  inventory_nonneg (exec_all calls db)
  /\ (forall newID fault productID buyerID req db0,
        let q := PurchaseProductRequest.Quantity req in
        let call := ProductService.PurchaseProduct newID fault productID buyerID req in
        (forall product,
           products db0 !! productID = Some product ->
           Product.Status product <> ProductStatusActive
           \/ Product.InventoryCount product < q ->
           exists e, run call db0 = (Err e, db0))
        /\ (forall transaction db',
              run call db0 = (Ok transaction, db') ->
              exists product,
                products db0 !! productID = Some product
                /\ Product.Status product = ProductStatusActive
                /\ q <= Product.InventoryCount product
                /\ transactions db0 !! newID = None
                /\ Transaction.Status transaction = TransactionStatusPending
                /\ db' = purchase_committed db0 newID transaction productID product q
                /\ transactions db' !! newID = Some transaction
                /\ Product.InventoryCount <$> products db' !! productID
                   = Some (Product.InventoryCount product - q)
                /\ Product.SalesCount <$> products db' !! productID
                   = Some (Product.SalesCount product + q))
        /\ (forall e db', run call db0 = (Err e, db') -> db' = db0)
        /\ (forall product buyer transaction,
              utils.ValidatePurchaseProductRequest req = true ->
              products db0 !! productID = Some product ->
              Product.Status product = ProductStatusActive ->
              q <= Product.InventoryCount product ->
              users db0 !! buyerID = Some buyer ->
              User.Status buyer = UserStatusActive ->
              Transaction.stored
                (ProductService.new_transaction productID buyerID req
                   (ProductService.preload db0 product)) = Some transaction ->
              transactions db0 !! newID = None ->
              fault = NoFault ->
              run call db0
              = (Ok transaction,
                 purchase_committed db0 newID transaction productID product q))).
Proof.
  intros Hinv. split.
  { revert db Hinv. apply (exec_all_ind inventory_nonneg), inventory_nonneg_exec. }
  intros newID fault productID buyerID req db0 q call. subst q call.
  rewrite PurchaseProduct_run. split_and!.
  - intros product -> Hbad. destruct (negb _); [eauto|].
    case_bool_decide as Hst; [eauto|].
    destruct (_ <? _) eqn:Hq; [eauto|]. apply Z.ltb_ge in Hq.
    destruct Hbad as [?|?]; [done|lia].
  - intros t db'. destruct (negb _); [done|].
    destruct (products db0 !! productID) as [product|] eqn:Hp; [|done].
    case_bool_decide as Hst; [done|].
    destruct (_ <? _) eqn:Hq; [done|]. apply Z.ltb_ge in Hq.
    destruct (users db0 !! buyerID); [|done].
    repeat (destruct (bool_decide _); [done|]).
    destruct (Transaction.stored _) as [row|] eqn:Hrow; [|done].
    destruct (transactions db0 !! newID) eqn:Hnew; [done|].
    repeat (destruct (bool_decide _); [done|]).
    intros [= <- <-]. exists product. split_and!; try done.
    + apply stored_inv in Hrow as (_ & _ & _ & -> & _). apply new_transaction_Status.
    + cbn. apply lookup_insert_eq.
    + cbn. by rewrite lookup_insert_eq.
    + cbn. by rewrite lookup_insert_eq.
  - intros e db'. by repeat case_match; intros [= <- <-].
  - intros product buyer transaction -> -> -> Hq -> -> -> -> ->. cbn [negb].
    rewrite !bool_decide_eq_false_2 by (auto || discriminate).
    by rewrite (proj2 (Z.ltb_ge _ _) Hq).
Qed.

Lemma purchase_inventory_witness :
  inventory_nonneg
    (exec_all
       [CallPurchase 50%N NoFault sample.product sample.buyer (sample.purchase_request 2);
        CallPurchase 51%N NoFault sample.product sample.buyer (sample.purchase_request 2)]
       (sample.on_sale 10%float 20%float 2 ApplicationStatusApproved None))
  /\ run (ProductService.PurchaseProduct 51%N NoFault sample.product sample.buyer
            (sample.purchase_request 2))
         (exec (CallPurchase 50%N NoFault sample.product sample.buyer
                  (sample.purchase_request 2))
            (sample.on_sale 10%float 20%float 2 ApplicationStatusApproved None))
     = (Err (errors_New "insufficient inventory"),
        exec (CallPurchase 50%N NoFault sample.product sample.buyer
                (sample.purchase_request 2))
          (sample.on_sale 10%float 20%float 2 ApplicationStatusApproved None)).
Proof.
  destruct (purchase_inventory
              [CallPurchase 50%N NoFault sample.product sample.buyer
                 (sample.purchase_request 2);
               CallPurchase 51%N NoFault sample.product sample.buyer
                 (sample.purchase_request 2)]
              (sample.on_sale 10%float 20%float 2 ApplicationStatusApproved None))
    as [Hinv Hcall].
  { apply (bool_decide_unpack _). vm_compute. exact I. }
  split; [exact Hinv|].
  destruct (Hcall 51%N NoFault sample.product sample.buyer (sample.purchase_request 2)
              (exec (CallPurchase 50%N NoFault sample.product sample.buyer
                       (sample.purchase_request 2))
                 (sample.on_sale 10%float 20%float 2 ApplicationStatusApproved None)))
    as [Hreject _].
  destruct (Hreject (sold 2 (sample.a_product 10%float 2 ProductStatusActive)))
    as [e He]; [reflexivity|right; reflexivity|].
  rewrite He. vm_compute in He. congruence.
Defined.

(** ** The inventory check under concurrent purchases *)

(** C3 fails on the code.  A product with two units left; two buyers order
    two units each at the same time.  The read that opens each transaction
    takes no lock, so both calls read an inventory of two before either has
    committed: both pass the check, both commit their pending transaction
    and their decrement, and the inventory is left at minus two.  Neither
    session waits for the other in this order, the first having committed
    before the second writes. *)
Lemma purchase_race_oversells :
  (exists transaction transaction',
     purchases_in_flight
       [false; true; false; false; false; false; false; false;
        true; true; true; true; true; true]
       50%N 51%N sample.product sample.buyer sample.licensee2
       (sample.purchase_request 2) (sample.purchase_request 2)
       (sample.on_sale 10%float 20%float 2 ApplicationStatusApproved None)
     = (Some (Ok transaction), Some (Ok transaction'), Some (-2))
     /\ Transaction.Status transaction = TransactionStatusPending
     /\ Transaction.Status transaction' = TransactionStatusPending)
  /\ inventory_nonneg (sample.on_sale 10%float 20%float 2 ApplicationStatusApproved None)
  /\ ~ inventory_nonneg
         (interleave
            [false; true; false; false; false; false; false; false;
             true; true; true; true; true; true]
            (ProductService.PurchaseProduct 50%N NoFault sample.product sample.buyer
               (sample.purchase_request 2))
            (ProductService.PurchaseProduct 51%N NoFault sample.product sample.licensee2
               (sample.purchase_request 2))
            (sample.on_sale 10%float 20%float 2 ApplicationStatusApproved None)).2.
Proof.
  split_and!.
  - eexists _, _. split_and!; [vm_compute; reflexivity|reflexivity..].
  - apply (bool_decide_eq_true_1 (inventory_nonneg _)). vm_compute. reflexivity.
  - apply (bool_decide_eq_false_1 (inventory_nonneg _)). vm_compute. reflexivity.
Qed.

(** The same two calls served one after the other: the second is refused
    and the inventory stops at zero. *)
Lemma purchase_serial_refused :
  exists transaction,
    purchases_in_flight
      [false; false; false; false; false; false; false;
       true; true; true; true; true; true; true]
      50%N 51%N sample.product sample.buyer sample.licensee2
      (sample.purchase_request 2) (sample.purchase_request 2)
      (sample.on_sale 10%float 20%float 2 ApplicationStatusApproved None)
    = (Some (Ok transaction), Some (Err (errors_New "insufficient inventory")), Some 0).
Proof. eexists. vm_compute. reflexivity. Qed.

(** ** Claims about the revenue split *)

Lemma calculateRevenueShares_lookup totalAmount platformFee loaded :
  let shares := ProductService.calculateRevenueShares totalAmount platformFee loaded in
  let net := PrimFloat.sub totalAmount platformFee in
  let percent :=
    from_option LicenseTerms.RevenueSharePercentage 0%float
      (PreloadedProduct.License_LicenseTerms loaded) in
  let ip := PrimFloat.mul net (PrimFloat.div percent 100%float) in
  shares !! "net_amount" = Some (JFloat net)
  /\ shares !! "revenue_share_percent" = Some (JFloat percent)
  /\ shares !! "ip_creator_share" = Some (JFloat ip)
  /\ shares !! "secondary_creator_share" = Some (JFloat (PrimFloat.sub net ip))
  /\ shares !! "total_amount" = Some (JFloat totalAmount)
  /\ shares !! "platform_fee" = Some (JFloat platformFee).
Proof. cbv zeta. unfold ProductService.calculateRevenueShares. split_and!; reflexivity. Qed.

Lemma new_transaction_shares productID buyerID req loaded :
  let t := ProductService.new_transaction productID buyerID req loaded in
  let net := PrimFloat.sub (Transaction.Amount t) (Transaction.PlatformFee t) in
  let percent :=
    from_option LicenseTerms.RevenueSharePercentage 0%float
      (PreloadedProduct.License_LicenseTerms loaded) in
  let ip := PrimFloat.mul net (PrimFloat.div percent 100%float) in
  Transaction.Amount t
  = PrimFloat.mul (Product.Price (PreloadedProduct.product loaded))
      (float64_of_int (PurchaseProductRequest.Quantity req))
  /\ Transaction.PlatformFee t
     = PrimFloat.mul (Transaction.Amount t) (PrimFloat.div 5%float 100%float)
  /\ share t "net_amount" = Some net
  /\ share t "revenue_share_percent" = Some percent
  /\ share t "ip_creator_share" = Some ip
  /\ share t "secondary_creator_share" = Some (PrimFloat.sub net ip)
  /\ share t "total_amount" = Some (Transaction.Amount t)
  /\ share t "platform_fee" = Some (Transaction.PlatformFee t).
Proof.
  cbv zeta. unfold ProductService.new_transaction, share.
  set (total := PrimFloat.mul _ _). set (fee := PrimFloat.mul total _).
  destruct (calculateRevenueShares_lookup total fee loaded)
    as (H1 & H2 & H3 & H4 & H5 & H6).
  destruct (_ || _); cbn [Transaction.Amount Transaction.PlatformFee
                          Transaction.RevenueShares Transaction.with_RevenueShares];
    rewrite ?lookup_insert_ne by done; rewrite H1, H2, H3, H4, H5, H6; done.
Qed.

(** The numbers a stored row records in [revenue_shares] are those of the
    row written. *)
Lemma stored_share t row key :
  Transaction.stored t = Some row -> share row key = share t key.
Proof. intros (_ & _ & Hshares & _)%stored_inv. unfold share. by rewrite Hshares. Qed.





(** C8, as the code has it.  Scenario C (price 10.00, quantity 3, platform
    fee 5%, revenue share 20%): the transaction carries the float64 values
    [30], [1.5] and [28.5], which are exactly 30.00, 1.50 and 28.50, and for
    the two shares the float64 values of the literals [5.7] and [22.8],
    which are the doubles nearest to 5.70 and 22.80, within 10^-15 of them. *)
Theorem scenario_c_amounts newID fault productID buyerID req db product transaction db' :
  run (ProductService.PurchaseProduct newID fault productID buyerID req) db
  = (Ok transaction, db') ->
  products db !! productID = Some product ->
  Product.Price product = 10%float ->
  PurchaseProductRequest.Quantity req = 3 ->
  revenue_share_percent db product = 20%float ->
  (Transaction.Amount transaction = 30%float
   /\ Transaction.PlatformFee transaction = 1.5%float
   /\ share transaction "net_amount" = Some 28.5%float
   /\ share transaction "ip_creator_share" = Some 5.7%float
   /\ share transaction "secondary_creator_share" = Some 22.8%float)
  /\ (is_exactly 30%float 30 = true
      /\ is_exactly 1.5%float 1.5 = true
      /\ is_exactly 28.5%float 28.5 = true
      /\ is_within (1 # 1000000000000000) 5.7%float 5.7 = true
      /\ is_within (1 # 1000000000000000) 22.8%float 22.8 = true).
Proof.
  intros Hrun Hp Hprice Hq Hpct. split; [|by vm_compute].
  rewrite PurchaseProduct_run, Hp in Hrun.
  destruct (negb _); [done|].
  repeat (destruct (bool_decide _); [done|]).
  destruct (_ <? _); [done|]. destruct (users db !! buyerID); [|done].
  repeat (destruct (bool_decide _); [done|]).
  destruct (Transaction.stored _) as [row|] eqn:Hrow; [|done].
  destruct (transactions db !! newID); [done|].
  repeat (destruct (bool_decide _); [done|]).
  injection Hrun as <- <-.
  destruct (new_transaction_shares productID buyerID req (ProductService.preload db product))
    as (Ha & Hf & H1 & _ & H3 & H4 & _).
  unfold revenue_share_percent in Hpct.
  cbn [PreloadedProduct.product ProductService.preload] in Ha.
  rewrite Hprice, Hq in Ha.
  rewrite !(stored_share _ _ _ Hrow), H1, H3, H4, Hpct, Hf, Ha.
  apply stored_inv in Hrow as (Hamount & Hfee & _).
  rewrite Hf, Ha in Hfee. rewrite Ha in Hamount.
  change (decimal.store _) with (Some 30%float) in Hamount.
  change (decimal.store _) with (Some 1.5%float) in Hfee.
  injection Hamount as <-. injection Hfee as <-. split_and!; reflexivity.
Qed.

Lemma scenario_c_amounts_witness :
  exists transaction db',
    run (ProductService.PurchaseProduct sample.transaction NoFault sample.product
           sample.buyer (sample.purchase_request 3))
        (sample.on_sale 10%float 20%float 5 ApplicationStatusApproved None)
    = (Ok transaction, db')
    /\ Transaction.Amount transaction = 30%float
    /\ Transaction.PlatformFee transaction = 1.5%float
    /\ share transaction "net_amount" = Some 28.5%float
    /\ share transaction "ip_creator_share" = Some 5.7%float
    /\ share transaction "secondary_creator_share" = Some 22.8%float.
Proof.
  destruct (run (ProductService.PurchaseProduct sample.transaction NoFault sample.product
                   sample.buyer (sample.purchase_request 3))
              (sample.on_sale 10%float 20%float 5 ApplicationStatusApproved None))
    as [[transaction|e] db'] eqn:Hrun; [|vm_compute in Hrun; discriminate].
  exists transaction, db'. split; [reflexivity|].
  apply (scenario_c_amounts _ _ _ _ _ _
           (sample.a_product 10%float 5 ProductStatusActive) _ _ Hrun);
    reflexivity.
Defined.

(** C8 as stated fails on "exact decimal": the recorded ip_creator_share
    of Scenario C is the float64 6417629469002957 / 2^50, which is not 5.70
    (nor is the recorded secondary_creator_share 22.80). *)
Lemma scenario_c_shares_not_exact_decimals :
  match run (ProductService.PurchaseProduct sample.transaction NoFault sample.product
               sample.buyer (sample.purchase_request 3))
            (sample.on_sale 10%float 20%float 5 ApplicationStatusApproved None) with
  | (Ok transaction, _) =>
      match share transaction "ip_creator_share",
            share transaction "secondary_creator_share" with
      | Some ip, Some sec =>
          float_to_Q ip = Some (6417629469002957 # 1125899906842624)
          /\ is_exactly ip 5.7 = false
          /\ is_exactly sec 22.8 = false
      | _, _ => False
      end
  | (Err _, _) => False
  end.
Proof. vm_compute. split_and!; reflexivity. Qed.

(** ** Claims about authorization chains *)

Lemma VerifyProductByCode_run s bs code db :
  blockchainService s = Some bs ->
  run (AuthorizationService.VerifyProductByCode s code) db =
  match gorm.first_where (sql.active_chain_with_code code) (authorization_chains db) with
  | None => (Err (errors_New "invalid verification code"), db)
  | Some (ID, authChain) =>
      if negb (String.eqb (AuthorizationChain.BlockchainHash authChain) "")
         && bool_decide (chain_live db authChain)
      then (Ok (ID, authChain), db)
      else (Err (errors_New "authorization chain verification failed"), db)
  end.
Proof.
  intros Hbs. unfold AuthorizationService.VerifyProductByCode.
  rewrite run_bind, run_FirstWhere.
  destruct (gorm.first_where _ _) as [[ID c]|] eqn:Hfound; [|done].
  apply first_where_Some in Hfound as [Hc [_ Hactive]].
  rewrite run_bind, run_catch. unfold AuthorizationService.VerifyChain. rewrite Hbs.
  rewrite BlockchainService_VerifyChain_run, Hc, Hactive. cbn [negb].
  destruct (String.eqb _ _); [done|]. cbn [negb andb].
  unfold chain_live.
  destruct (decide (IPAsset.VerificationStatus
                      <$> ip_assets db !! AuthorizationChain.IPAssetID c
                    = Some VerificationStatusApproved)) as [Ha|Ha].
  - rewrite (bool_decide_eq_false_2 (_ <> _)) by auto.
    destruct (decide (LicenseApplication.Status
                        <$> license_applications db !! AuthorizationChain.LicenseID c
                      = Some ApplicationStatusApproved)) as [Hl|Hl].
    + rewrite (bool_decide_eq_false_2 (_ <> _)) by auto.
      by rewrite bool_decide_eq_true_2.
    + rewrite (bool_decide_eq_true_2 (_ <> _)) by done.
      by rewrite bool_decide_eq_false_2 by tauto.
  - rewrite (bool_decide_eq_true_2 (_ <> _)) by done.
    by rewrite bool_decide_eq_false_2 by tauto.
Qed.

(** C4. [verifyByCode], on the authorization service the router builds,
    fails whenever, in the store as it is at the call, the license the chain
    references is not approved or its asset is not approved, whatever the
    chain's own [is_active] flag says: if that holds of every active chain
    carrying the code the call fails, and for each such chain the error is
    the verification failure. *)
Theorem verify_by_code_live code db :
  (forall id c,
     authorization_chains db !! id = Some c ->
     AuthorizationChain.VerificationCode c = code ->
     AuthorizationChain.IsActive c = true ->
     ~ chain_live db c) ->
  (exists e,
     run (AuthorizationService.VerifyProductByCode router.authorizationService code) db
     = (Err e, db))
  /\ (forall id c,
        authorization_chains db !! id = Some c ->
        AuthorizationChain.VerificationCode c = code ->
        AuthorizationChain.IsActive c = true ->
        run (AuthorizationService.VerifyProductByCode router.authorizationService code) db
        = (Err (errors_New "authorization chain verification failed"), db)).
Proof.
  intros Hdead.
  rewrite (VerifyProductByCode_run router.authorizationService router.blockchainService code db eq_refl).
  destruct (gorm.first_where _ _) as [[ID c]|] eqn:Hfound.
  - pose proof (first_where_Some _ _ _ _ Hfound) as [Hc [Hcode Hactive]].
    rewrite (bool_decide_eq_false_2 (chain_live db c)) by eauto.
    rewrite andb_false_r. eauto.
  - split; [eauto|]. intros id c Hc Hcode Hactive.
    by destruct (proj1 (first_where_None _ _) Hfound id c Hc).
Qed.

Lemma verify_by_code_live_witness :
  run (AuthorizationService.VerifyProductByCode router.authorizationService "CODE")
      (sample.on_sale 10%float 20%float 5 ApplicationStatusRevoked None)
  = (Err (errors_New "authorization chain verification failed"),
     sample.on_sale 10%float 20%float 5 ApplicationStatusRevoked None).
Proof.
  destruct (verify_by_code_live "CODE"
              (sample.on_sale 10%float 20%float 5 ApplicationStatusRevoked None))
    as [_ Hfail].
  - intros id c Hc _ _ [Hlicense _].
    unfold sample.on_sale in Hc. cbn [authorization_chains] in Hc.
    apply lookup_singleton_Some in Hc as [<- <-]. vm_compute in Hlicense. discriminate.
  - apply (Hfail sample.chain (sample.a_chain true)); reflexivity.
Defined.

(** A verification that succeeds has checked the store as it is now. *)
Lemma verify_by_code_Ok s bs code db id c db' :
  blockchainService s = Some bs ->
  run (AuthorizationService.VerifyProductByCode s code) db = (Ok (id, c), db') ->
  authorization_chains db !! id = Some c /\ AuthorizationChain.IsActive c = true
  /\ chain_live db c /\ db' = db.
Proof.
  intros Hbs. rewrite (VerifyProductByCode_run _ _ _ _ Hbs).
  destruct (gorm.first_where _ _) as [[ID c']|] eqn:Hfound; [|done].
  apply first_where_Some in Hfound as [Hc [_ Hactive]].
  destruct (negb _); [|done]. case_bool_decide; [|done].
  by intros [= <- <- <-].
Qed.

(** Without a blockchain service (a nil pointer, which the router never
    passes) the fallback of [VerifyChain] looks at the chain's own flag
    only, and a chain of a revoked license still verifies. *)
Remark verify_by_code_fallback :
  is_Ok (run (AuthorizationService.VerifyProductByCode (NewAuthorizationService None) "CODE")
           (sample.on_sale 10%float 20%float 5 ApplicationStatusRevoked None)).1
  = true.
Proof. vm_compute. reflexivity. Qed.

(** ** The capacity check under concurrent approvals *)

(** C2 fails on the code.  Terms with [max_licenses = 1] and two pending
    applications; the owner approves both at the same time.  Each call
    counts the approved applications before either has saved: both find
    none, both save, and two applications end up approved. *)
Lemma approve_race_overshoots :
  LicenseTerms.MaxLicenses <$> license_terms
      (sample.applied 1 ApplicationStatusPending ApplicationStatusPending) !! sample.terms
  = Some 1
  /\ approvals_in_flight [false; false; true; true; false; true] 1000
       sample.application sample.application2 sample.creator sample.terms
       (sample.applied 1 ApplicationStatusPending ApplicationStatusPending)
     = (Some (Ok (LicenseService.approved_application 1000 sample.creator
                    (ApproveLicenseRequest.mk "")
                    (sample.an_application sample.licensee ApplicationStatusPending None))),
        Some (Ok (LicenseService.approved_application 1000 sample.creator
                    (ApproveLicenseRequest.mk "")
                    (sample.an_application sample.licensee2 ApplicationStatusPending None))),
        2)
  /\ capacity_respected (sample.applied 1 ApplicationStatusPending ApplicationStatusPending)
  /\ ~ capacity_respected
         (interleave [false; false; true; true; false; true]
            (LicenseService.ApproveLicense 1000 sample.application sample.creator
               (ApproveLicenseRequest.mk ""))
            (LicenseService.ApproveLicense 1000 sample.application2 sample.creator
               (ApproveLicenseRequest.mk ""))
            (sample.applied 1 ApplicationStatusPending ApplicationStatusPending)).2.
Proof.
  split_and!; [vm_compute; reflexivity|vm_compute; reflexivity| |].
  - apply (bool_decide_eq_true_1 (capacity_respected _)). vm_compute. reflexivity.
  - apply (bool_decide_eq_false_1 (capacity_respected _)). vm_compute. reflexivity.
Qed.

(** The same two calls served one after the other: the second is refused. *)
Lemma approve_serial_refused :
  approvals_in_flight [false; false; false; true; true; true] 1000
    sample.application sample.application2 sample.creator sample.terms
    (sample.applied 1 ApplicationStatusPending ApplicationStatusPending)
  = (Some (Ok (LicenseService.approved_application 1000 sample.creator
                 (ApproveLicenseRequest.mk "")
                 (sample.an_application sample.licensee ApplicationStatusPending None))),
     Some (Err (errors_New "license limit reached")),
     1).
Proof. vm_compute. reflexivity. Qed.

(** ** The duplicate check under concurrent applications *)

(** C6 fails on the code.  One applicant sends the same application twice
    at the same time (no cap on the terms, no application yet).  Each call
    looks for an open application of the pair before either has created
    its row: both find none, both create, and the pair holds two pending
    applications. *)
Lemma apply_race_duplicates :
  applies_in_flight
    [false; false; false; false; true; true; true; true; false; false; true; true]
    1000 32%N 33%N sample.licensee sample.apply_request (sample.published false 0)
  = (Some (Ok (LicenseService.new_application 1000 sample.licensee sample.apply_request
                 (sample.the_terms 20%float false 0) sample.the_asset)),
     Some (Ok (LicenseService.new_application 1000 sample.licensee sample.apply_request
                 (sample.the_terms 20%float false 0) sample.the_asset)),
     2)
  /\ ~ exclusive
         (interleave
            [false; false; false; false; true; true; true; true; false; false; true; true]
            (LicenseService.ApplyForLicense 32%N 1000 sample.licensee sample.apply_request)
            (LicenseService.ApplyForLicense 33%N 1000 sample.licensee sample.apply_request)
            (sample.published false 0)).2.
Proof.
  split; [vm_compute; reflexivity|].
  apply (bool_decide_eq_false_1 (exclusive _)). vm_compute. reflexivity.
Qed.

(** The same two calls served one after the other: the second is refused. *)
Lemma apply_serial_refused :
  applies_in_flight
    [false; false; false; false; false; false; true; true; true; true; true; true]
    1000 32%N 33%N sample.licensee sample.apply_request (sample.published false 0)
  = (Some (Ok (LicenseService.new_application 1000 sample.licensee sample.apply_request
                 (sample.the_terms 20%float false 0) sample.the_asset)),
     Some (Err (errors_New "you already have a pending application for this IP asset")),
     1).
Proof. vm_compute. reflexivity. Qed.

(** ** The capacity cap when calls are served one after the other *)

Section counting.
Context {R : Type} (P : uuid -> R -> Prop) `{!forall id r, Decision (P id r)}.
Implicit Types m : gmap uuid R.

Lemma count_delete m k :
  gorm.count P m
  = gorm.count P (delete k m)
    + match m !! k with
      | Some x => if decide (P k x) then 1 else 0
      | None => 0
      end.
Proof.
  unfold gorm.count, gorm.Where. rewrite map_filter_delete, map_size_delete.
  rewrite map_lookup_filter. destruct (m !! k) as [x|] eqn:Hk; cbn.
  - case_guard as HP; cbn; [|lia].
    assert (size (filter (fun kv => P kv.1 kv.2) m) <> 0%nat); [|lia].
    apply map_size_non_empty_iff. intros Hempty.
    by apply (map_filter_empty_not_lookup _ _ k x) in Hempty.
  - lia.
Qed.

Lemma count_insert m k x :
  gorm.count P (<[k := x]> m)
  = gorm.count P (delete k m) + (if decide (P k x) then 1 else 0).
Proof.
  rewrite (count_delete (<[k := x]> m) k), lookup_insert_eq, delete_insert_eq.
  done.
Qed.
End counting.

Lemma count_approved_except termsID id (m : gmap uuid LicenseApplication.t) :
  gorm.count (sql.approved_under_except termsID id) m
  = gorm.count (sql.approved_under termsID) (delete id m).
Proof.
  unfold gorm.count, gorm.Where. f_equal. f_equal.
  apply map_eq. intros i. apply option_eq. intros a.
  rewrite !map_lookup_filter_Some, lookup_delete_Some.
  unfold sql.approved_under_except, sql.approved_under. cbn. naive_solver.
Qed.

Lemma capacity_respected_step db db' :
  license_terms db' = license_terms db ->
  (forall termsID t,
     license_terms db !! termsID = Some t -> 0 < LicenseTerms.MaxLicenses t ->
     approved_count db termsID <= LicenseTerms.MaxLicenses t ->
     approved_count db' termsID <= LicenseTerms.MaxLicenses t) ->
  capacity_respected db -> capacity_respected db'.
Proof.
  unfold capacity_respected, map_Forall. intros -> Hstep Hcap termsID t Ht Hpos.
  eauto.
Qed.

Lemma capacity_respected_exec c db :
  capacity_respected db -> capacity_respected (exec c db).
Proof.
  destruct c as [newID now applicantID req|now id actor req|now id actor req
                |now id actor req|now id|newID fault productID buyerID req
                |now id t|s code|s id reason]; cbn [exec].
  - destruct (ApplyForLicense_effect newID now applicantID req db)
      as [[e ->]|(a & t & Hadm & Hopen & Hfresh & Hrun)]; [done|].
    pose proof Hrun as Hrun'.
    rewrite (ApplyForLicense_admissible _ _ _ _ _ _ _ Hadm) in Hrun'.
    rewrite (proj2 (open_application_None _ _ _) Hopen), Hfresh in Hrun'.
    destruct (_ && _) eqn:Hcheck; [done|]. clear Hrun'. rewrite Hrun.
    apply capacity_respected_step; [done|]. intros termsID t' Ht' Hpos Hle.
    unfold approved_count, save_application. cbn.
    rewrite count_insert, delete_id by done. fold (approved_count db termsID).
    destruct (new_application_fields now applicantID req t a) as (_&_&Htid&_).
    case_decide as Hnew; [|lia]. destruct Hnew as [Hnew _]. rewrite Htid in Hnew.
    subst termsID. destruct Hadm as (_&_&_&_&_&Ht&_).
    assert (t' = t) as -> by congruence.
    apply andb_false_iff in Hcheck as [Hc|Hc]; [apply Z.ltb_ge in Hc|apply Z.leb_gt in Hc]; lia.
  - rewrite ApproveLicense_run.
    destruct (license_applications db !! id) as [a|] eqn:Ha; [|done].
    destruct (negb _); [done|]. case_bool_decide as Hst; [done|].
    destruct (_ && _) eqn:Hcheck; [done|].
    apply capacity_respected_step; [done|]. intros termsID t' Ht' Hpos Hle.
    unfold approved_count, save_application in *. cbn. rewrite count_insert.
    rewrite (count_delete _ _ id), Ha in Hle.
    rewrite (decide_False (P := sql.approved_under termsID id a)) in Hle
      by (intros [_ Hs]; congruence).
    destruct (approved_application_fields now actor req a) as (_&_&Htid&_).
    destruct (decide (sql.approved_under termsID id
                        (LicenseService.approved_application now actor req a)))
      as [[Hnew _]|Hnew]; [|lia].
    rewrite Htid in Hnew. subst termsID.
    rewrite count_approved_except in Hcheck. unfold max_licenses_of in Hcheck.
    rewrite Ht' in Hcheck. cbn in Hcheck.
    apply andb_false_iff in Hcheck as [Hc|Hc]; [apply Z.ltb_ge in Hc|apply Z.leb_gt in Hc]; lia.
  - rewrite RejectLicense_run. destruct (negb _); [done|].
    destruct (license_applications db !! id) as [a|] eqn:Ha; [|done].
    destruct (negb _); [done|]. case_bool_decide as Hst; [done|].
    apply capacity_respected_step; [done|]. intros termsID t' Ht' Hpos Hle.
    unfold approved_count, save_application in *. cbn. rewrite count_insert.
    rewrite (count_delete _ _ id), Ha in Hle.
    rewrite decide_False by (intros [_ Hs]; done). case_decide; lia.
  - rewrite RevokeLicense_run. destruct (negb _); [done|].
    destruct (license_applications db !! id) as [a|] eqn:Ha; [|done].
    destruct (negb _); [done|]. case_bool_decide as Hst; [done|].
    destruct (0 <? _); [done|].
    apply capacity_respected_step; [done|]. intros termsID t' Ht' Hpos Hle.
    unfold approved_count, save_application in *. cbn. rewrite count_insert.
    rewrite (count_delete _ _ id), Ha in Hle.
    rewrite decide_False by (intros [_ Hs]; done). case_decide; lia.
  - rewrite VerifyLicense_run. by repeat case_match.
  - rewrite PurchaseProduct_run. by repeat case_match.
  - done.
  - by rewrite VerifyProductByCode_unchanged.
  - rewrite RevokeAuthChain_run. by case_match.
Qed.

(** I3 is kept by every sequence of calls served one after the other: the
    overshoot of two approvals in flight needs their statements to overlap. *)
Lemma capacity_respected_exec_all calls db :
  capacity_respected db -> capacity_respected (exec_all calls db).
Proof. apply (exec_all_ind capacity_respected), capacity_respected_exec. Qed.

Lemma capacity_respected_exec_all_witness :
  capacity_respected
    (exec_all [CallApprove 1000 sample.application sample.creator (ApproveLicenseRequest.mk "");
               CallApprove 1001 sample.application2 sample.creator (ApproveLicenseRequest.mk "")]
       (sample.applied 1 ApplicationStatusPending ApplicationStatusPending)).
Proof.
  apply capacity_respected_exec_all.
  apply (bool_decide_unpack _). vm_compute. exact I.
Defined.

(** ** Products: creating, reading, deleting *)

Lemma run_reload_product productID db :
  run (reload_product productID) db =
  (Ok ((fun p =>
          let license := license_applications db !! Product.LicenseID p in
          PreloadedProduct.mk p license
            (l ← license; ip_assets db !! LicenseApplication.IPAssetID l) None)
         <$> products db !! productID), db).
Proof. done. Qed.

Lemma CreateProduct_run s newID now creatorID req db :
  run (ProductService_CreateProduct s newID now creatorID req) db =
  if negb (utils_ValidateCreateProductRequest req)
  then (Err (fmt_Errorf "validation failed: " ValidationErrors), db)
  else
    match users db !! creatorID with
    | None => (Err (fmt_Errorf "creator not found: " ErrRecordNotFound), db)
    | Some creator =>
        if bool_decide (User.Status creator <> UserStatusActive)
        then (Err (errors_New "creator account is not active"), db)
        else if bool_decide (User.UserType creator <> UserTypeSecondaryCreator
                             /\ User.UserType creator <> UserTypeCreator)
        then (Err (errors_New "only secondary creators and creators can create products"), db)
        else
          match license_applications db !! CreateProductRequest.LicenseID req with
          | None => (Err (errors_New "license not found"), db)
          | Some license =>
              if bool_decide (LicenseApplication.ApplicantID license <> creatorID)
              then (Err (errors_New "unauthorized to use this license"), db)
              else if bool_decide (LicenseApplication.Status license
                                   <> ApplicationStatusApproved)
                      || negb (LicenseApplication.IsActive license)
              then (Err (errors_New "license is not active or approved"), db)
              else if match LicenseApplication.ExpiresAt license with
                      | Some ExpiresAt => Before ExpiresAt now
                      | None => false
                      end
              then (Err (errors_New "license has expired"), db)
              else
                match products db !! newID with
                | Some _ =>
                    (Err (fmt_Errorf "failed to create product: " ErrDuplicatedKey), db)
                | None =>
                    (Ok (PreloadedProduct.mk (new_product creatorID req) (Some license)
                           (ip_assets db !! LicenseApplication.IPAssetID license) None),
                     with_products db
                       (<[newID := new_product creatorID req]> (products db)))
                end
          end
    end.
Proof.
  unfold ProductService_CreateProduct.
  step; [done|]. step; [|done]. step; [done|]. step; [done|].
  step; [|done]. cbn [PreloadedApplication.application].
  step; [done|].
  rewrite (run_bind (reject_if _ _)), run_reject_if.
  destruct (bool_decide _ || negb _); [done|].
  rewrite (run_bind (reject_if _ _)), run_reject_if.
  destruct (match LicenseApplication.ExpiresAt _ with Some _ => _ | None => _ end); [done|].
  rewrite run_bind, run_Create.
  destruct (products db !! newID) as [?|] eqn:Hnew; [done|].
  rewrite run_bind, run_reload_product. cbn [products with_products license_applications ip_assets].
  rewrite lookup_insert_eq. cbn. 
  match goal with H : license_applications db !! _ = Some _ |- _ => rewrite H end.
  done.
Qed.

Lemma GetProduct_run s id userID db :
  run (ProductService_GetProduct s id userID) db =
  match products db !! id with
  | None => (Err (errors_New "product not found"), db)
  | Some product =>
      if bool_decide (Product.Status product = ProductStatusActive)
         || bool_decide (userID = Some (Product.CreatorID product))
         || bool_decide (User.UserType <$> (userID ≫= fun u => users db !! u)
                         = Some UserTypeAdmin)
      then (Ok product, db)
      else (Err (errors_New "product not found"), db)
  end.
Proof.
  unfold ProductService_GetProduct.
  rewrite run_bind, run_First. destruct (products db !! id) as [p|]; [|done].
  rewrite run_bind.
  destruct (decide (Product.Status p = ProductStatusActive)) as [Ha|Ha].
  { by rewrite bool_decide_eq_false_2, bool_decide_eq_true_2 by auto. }
  rewrite bool_decide_eq_true_2, (bool_decide_eq_false_2 (_ = ProductStatusActive)) by done.
  destruct (decide (userID = Some (Product.CreatorID p))) as [Hc|Hc].
  { by rewrite bool_decide_eq_false_2, bool_decide_eq_true_2 by auto. }
  rewrite bool_decide_eq_true_2, (bool_decide_eq_false_2 (userID = _)) by done.
  cbn [orb]. destruct userID as [u|]; [|done]. cbn [mbind option_bind].
  rewrite run_bind, run_First, run_reject_if.
  destruct (decide (User.UserType <$> users db !! u = Some UserTypeAdmin)) as [Hu|Hu].
  - by rewrite bool_decide_eq_false_2, bool_decide_eq_true_2 by auto.
  - by rewrite bool_decide_eq_true_2, bool_decide_eq_false_2 by done.
Qed.

Lemma DeleteProduct_run s id creatorID db :
  run (ProductService_DeleteProduct s id creatorID) db =
  match products db !! id with
  | None => (Err (errors_New "product not found"), db)
  | Some product =>
      if bool_decide (Product.CreatorID product <> creatorID)
      then (Err (errors_New "unauthorized to delete this product"), db)
      else if 0 <? gorm.count (sql_completed_sale id) (transactions db)
      then (Err (errors_New "cannot delete product with completed sales"), db)
      else (Ok tt, with_products db (delete id (products db)))
  end.
Proof.
  unfold ProductService_DeleteProduct.
  rewrite run_bind, run_First. destruct (products db !! id) as [p|]; [|done].
  step; [done|]. step.
  rewrite (run_bind (reject_if _ _)), run_reject_if.
  by destruct (0 <? _).
Qed.

Lemma VerifyProductAuthenticity_run productID db :
  run (ProductService_VerifyProductAuthenticity router_productService productID) db =
  match gorm.first_where (sql_active_chain_of_product productID) (authorization_chains db) with
  | None => (Err (errors_New "authorization chain not found"), db)
  | Some (ID, authChain) =>
      if negb (String.eqb (AuthorizationChain.BlockchainHash authChain) "")
         && bool_decide (chain_live db authChain)
      then (Ok (ID, authChain), db)
      else (Err (errors_New "authorization chain verification failed"), db)
  end.
Proof.
  unfold ProductService_VerifyProductAuthenticity.
  rewrite run_bind, run_FirstWhere.
  destruct (gorm.first_where _ _) as [[ID c]|] eqn:Hfound; [|done].
  apply first_where_Some in Hfound as [Hc [_ Hactive]].
  cbn [router_productService authorizationService].
  rewrite run_bind, run_catch. unfold AuthorizationService.VerifyChain.
  cbn [router.authorizationService blockchainService].
  rewrite BlockchainService_VerifyChain_run, Hc, Hactive. cbn [negb].
  destruct (String.eqb _ _); [done|]. cbn [negb andb].
  unfold chain_live.
  destruct (decide (IPAsset.VerificationStatus
                      <$> ip_assets db !! AuthorizationChain.IPAssetID c
                    = Some VerificationStatusApproved)) as [Ha|Ha].
  - rewrite (bool_decide_eq_false_2 (_ <> _)) by auto.
    destruct (decide (LicenseApplication.Status
                        <$> license_applications db !! AuthorizationChain.LicenseID c
                      = Some ApplicationStatusApproved)) as [Hl|Hl].
    + by rewrite (bool_decide_eq_false_2 (_ <> _)), bool_decide_eq_true_2 by auto.
    + rewrite (bool_decide_eq_true_2 (_ <> _)), bool_decide_eq_false_2 by tauto. done.
  - rewrite (bool_decide_eq_true_2 (_ <> _)), bool_decide_eq_false_2 by tauto. done.
Qed.

Lemma GetLicenseApplication_run id userID db :
  run (LicenseService_GetLicenseApplication id userID) db =
  match license_applications db !! id with
  | None => (Err (errors_New "license application not found"), db)
  | Some application =>
      if bool_decide (LicenseApplication.ApplicantID application = userID)
         || may_decide db application userID
      then (Ok application, db)
      else (Err (errors_New "unauthorized to view license application"), db)
  end.
Proof.
  unfold LicenseService_GetLicenseApplication, may_decide.
  rewrite run_bind, run_load_application.
  destruct (license_applications db !! id) as [a|]; [|done].
  cbn [PreloadedApplication.application PreloadedApplication.IPAsset].
  rewrite run_bind.
  destruct (decide (LicenseApplication.ApplicantID a = userID)) as [Hu|Hu].
  { by rewrite (bool_decide_eq_false_2 (_ <> userID)),
      (bool_decide_eq_true_2 (_ = userID)) by auto. }
  rewrite (bool_decide_eq_true_2 (_ <> userID)),
    (bool_decide_eq_false_2 (_ = userID)) by done.
  cbn [andb orb].
  destruct (decide (from_option IPAsset.CreatorID uuid_Nil
                      (ip_assets db !! LicenseApplication.IPAssetID a) = userID)) as [Hc|Hc].
  { by rewrite (bool_decide_eq_false_2 (_ <> userID)),
      (bool_decide_eq_true_2 (_ = userID)) by auto. }
  rewrite (bool_decide_eq_true_2 (_ <> userID)),
    (bool_decide_eq_false_2 (_ = userID)) by done.
  cbn [orb].
  rewrite run_bind, run_First.
  destruct (users db !! userID) as [u|]; [|done]. cbn [from_option].
  rewrite run_reject_if. by repeat case_bool_decide.
Qed.

(** ** Chains: creation *)

Lemma run_Create_authorization_chain id row db :
  run (Create_authorization_chain id row) db =
  match authorization_chains db !! id,
        gorm.first_where (sql_has_code (AuthorizationChain.VerificationCode row))
          (authorization_chains db) with
  | None, None =>
      (Ok None, with_authorization_chains db (<[id := row]> (authorization_chains db)))
  | _, _ => (Ok (Some ErrDuplicatedKey), db)
  end.
Proof.
  unfold Create_authorization_chain. cbn [run].
  destruct (authorization_chains db !! id); [done|].
  by destruct (gorm.first_where _ _).
Qed.

Lemma CreateProductAuthChain_run rand sum newID productID product db :
  run (AuthorizationService_CreateProductAuthChain router.authorizationService
         rand sum newID productID product) db =
  match crypto.GenerateRandomString rand 32 with
  | Panics => (Ok Panics, db)
  | Returns (Err err) =>
      (Err (fmt_Errorf "failed to generate verification code: " err), db)
  | Returns (Ok verificationCode) =>
      let authChain :=
        AuthorizationChain.mk productID
          (from_option LicenseApplication.IPAssetID uuid_Nil
             (PreloadedProduct.License product))
          (Product.LicenseID (PreloadedProduct.product product))
          None (hex.EncodeToString sum) verificationCode true in
      match authorization_chains db !! newID,
            gorm.first_where (sql_has_code verificationCode) (authorization_chains db) with
      | None, None =>
          (Ok (Returns (newID, authChain)),
           with_authorization_chains db (<[newID := authChain]> (authorization_chains db)))
      | _, _ =>
          (Err (fmt_Errorf "failed to create authorization chain: " ErrDuplicatedKey), db)
      end
  end.
Proof.
  unfold AuthorizationService_CreateProductAuthChain.
  destruct (crypto.GenerateRandomString rand 32) as [[code|err]|]; [|done..].
  cbn [router.authorizationService blockchainService
       BlockchainService_CreateProductRecord BlockchainService_generateHash
       AuthorizationChain.ProductID AuthorizationChain.IPAssetID
       AuthorizationChain.LicenseID AuthorizationChain.ParentChainID
       AuthorizationChain.VerificationCode AuthorizationChain.IsActive].
  rewrite run_bind, run_Create_authorization_chain.
  cbn [AuthorizationChain.VerificationCode].
  destruct (authorization_chains db !! newID); [done|].
  by destruct (gorm.first_where _ _).
Qed.

(** ** AdminService *)

Lemma ApproveIPAsset_run ipAssetID adminID message db :
  run (AdminService.ApproveIPAsset ipAssetID adminID message) db =
  match ip_assets db !! ipAssetID with
  | None => (Err (errors_New "IP asset not found"), db)
  | Some ipAsset =>
      if bool_decide (IPAsset.VerificationStatus ipAsset <> VerificationStatusPending)
      then (Err (errors_New "IP asset is not pending verification"), db)
      else (Ok tt,
            with_ip_assets db
              (<[ipAssetID := AdminService.with_VerificationStatus ipAsset
                                VerificationStatusApproved]> (ip_assets db)))
  end.
Proof.
  unfold AdminService.ApproveIPAsset.
  rewrite run_bind, run_First. destruct (ip_assets db !! ipAssetID) as [a|]; [|done].
  rewrite (run_bind (reject_if _ _)), run_reject_if. by case_bool_decide.
Qed.

Lemma RejectIPAsset_run ipAssetID adminID reason message db :
  run (AdminService.RejectIPAsset ipAssetID adminID reason message) db =
  match ip_assets db !! ipAssetID with
  | None => (Err (errors_New "IP asset not found"), db)
  | Some ipAsset =>
      if bool_decide (IPAsset.VerificationStatus ipAsset <> VerificationStatusPending)
      then (Err (errors_New "IP asset is not pending verification"), db)
      else (Ok tt,
            with_ip_assets db
              (<[ipAssetID := AdminService.with_VerificationStatus ipAsset
                                VerificationStatusRejected]> (ip_assets db)))
  end.
Proof.
  unfold AdminService.RejectIPAsset.
  rewrite run_bind, run_First. destruct (ip_assets db !! ipAssetID) as [a|]; [|done].
  rewrite (run_bind (reject_if _ _)), run_reject_if. by case_bool_decide.
Qed.

Lemma ProcessRefund_run transactionID adminID reason db :
  run (AdminService.ProcessRefund transactionID adminID reason) db =
  match transactions db !! transactionID with
  | None => (Err (errors_New "transaction not found"), db)
  | Some transaction =>
      if bool_decide (Transaction.Status transaction <> TransactionStatusCompleted)
      then (Err (errors_New "can only refund completed transactions"), db)
      else (Ok tt,
            with_transactions db
              (<[transactionID := Transaction.with_Status transaction
                                    TransactionStatusRefunded]> (transactions db)))
  end.
Proof.
  unfold AdminService.ProcessRefund.
  rewrite run_bind, run_First. destruct (transactions db !! transactionID) as [t|]; [|done].
  rewrite (run_bind (reject_if _ _)), run_reject_if. by case_bool_decide.
Qed.

(** ** Queries and effects used below *)

Lemma count_pos_inv {R} (P : uuid -> R -> Prop) `{!forall id r, Decision (P id r)}
    (m : gmap uuid R) :
  0 < gorm.count P m -> exists k r, m !! k = Some r /\ P k r.
Proof.
  intros Hpos. destruct (gorm.first_where P m) as [[k r]|] eqn:Hf.
  - apply first_where_Some in Hf. by exists k, r.
  - pose proof (proj2 (count_zero P m) (proj1 (first_where_None P m) Hf)). lia.
Qed.

Lemma create_product_effect s newID now creatorID req db product db' :
  run (ProductService_CreateProduct s newID now creatorID req) db = (Ok product, db') ->
  products db !! newID = None
  /\ (exists license,
        license_applications db !! CreateProductRequest.LicenseID req = Some license
        /\ LicenseApplication.Status license = ApplicationStatusApproved)
  /\ db' = with_products db (<[newID := new_product creatorID req]> (products db)).
Proof.
  rewrite CreateProduct_run. destruct (negb _); [done|].
  destruct (users db !! creatorID) as [creator|]; [|done].
  do 2 (case_bool_decide; [done|]).
  destruct (license_applications db !! CreateProductRequest.LicenseID req)
    as [license|] eqn:Hlicense; [|done].
  case_bool_decide; [done|].
  destruct (bool_decide _ || negb _) eqn:Hactive; [done|].
  destruct (match LicenseApplication.ExpiresAt license with
            | Some _ => _ | None => _ end); [done|].
  destruct (products db !! newID) eqn:Hnew; [done|].
  intros [= <- <-]. split; [done|]. split; [|done].
  exists license. split; [done|].
  apply orb_false_iff in Hactive as [Hst _]. apply bool_decide_eq_false in Hst.
  destruct (decide (LicenseApplication.Status license = ApplicationStatusApproved)); tauto.
Qed.

Lemma DeleteProduct_Ok s id creatorID db db' :
  run (ProductService_DeleteProduct s id creatorID) db = (Ok tt, db') ->
  (exists product, products db !! id = Some product
                   /\ Product.CreatorID product = creatorID)
  /\ ~ has_completed_sale db id
  /\ db' = with_products db (delete id (products db)).
Proof.
  rewrite DeleteProduct_run.
  destruct (products db !! id) as [product|]; [|done].
  case_bool_decide as Howner; [done|].
  destruct (0 <? _) eqn:Hsales; [done|]. intros [= <-].
  split; [exists product; split; [done|]|split; [|done]].
  - destruct (decide (Product.CreatorID product = creatorID)); tauto.
  - intros (k & t & Hk & Ht). apply Z.ltb_ge in Hsales.
    pose proof (count_pos (sql_completed_sale id) _ _ _ Hk Ht). lia.
Qed.

Lemma delete_product_completed s id db product :
  products db !! id = Some product ->
  has_completed_sale db id ->
  run (ProductService_DeleteProduct s id (Product.CreatorID product)) db
  = (Err (errors_New "cannot delete product with completed sales"), db).
Proof.
  intros Hproduct (k & t & Hk & Ht).
  rewrite DeleteProduct_run, Hproduct, bool_decide_eq_false_2 by auto.
  by rewrite (proj2 (Z.ltb_lt 0 _)) by (by eapply count_pos).
Qed.

Lemma first_where_unique {R} (P : uuid -> R -> Prop) `{!forall id r, Decision (P id r)}
    (m : gmap uuid R) id r :
  m !! id = Some r -> P id r ->
  (forall k r', m !! k = Some r' -> P k r' -> k = id) ->
  gorm.first_where P m = Some (id, r).
Proof.
  intros Hid HP Honly.
  destruct (first_where_is_Some P m id r Hid HP) as [[k r'] Hf].
  destruct (first_where_Some P m k r' Hf) as [Hk HP'].
  assert (k = id) as -> by eauto. rewrite Hf. do 2 f_equal. congruence.
Qed.

Lemma hex_EncodeToString_nonempty sum : sum <> [] -> hex.EncodeToString sum <> "".
Proof. by destruct sum. Qed.

Lemma exec_sold_from c db id p :
  products db !! id = Some p ->
  exists p', products (exec c db) !! id = Some p' /\ sold_from p p'.
Proof.
  intros Hp.
  assert (sold_from p p) as Hrefl by (unfold sold_from; split_and!; (done || lia)).
  assert (products (exec c db) = products db ->
          exists p', products (exec c db) !! id = Some p' /\ sold_from p p') as Hsame.
  { intros ->. by exists p. }
  destruct c as [newID now applicantID req|now k actor req|now k actor req
                |now k actor req|now k|newID fault productID buyerID req
                |now k t|s code|s k reason]; cbn [exec] in *.
  - apply Hsame. by destruct (ApplyForLicense_effect newID now applicantID req db)
      as [[e ->]|(a & t & _ & _ & _ & ->)].
  - apply Hsame. rewrite ApproveLicense_run. by repeat case_match.
  - apply Hsame. rewrite RejectLicense_run. by repeat case_match.
  - apply Hsame. rewrite RevokeLicense_run. by repeat case_match.
  - apply Hsame. rewrite VerifyLicense_run. by repeat case_match.
  - clear Hsame. rewrite PurchaseProduct_run.
    destruct (negb _) eqn:Hvalid; [by exists p|].
    destruct (products db !! productID) as [product|] eqn:Hproduct; [|by exists p].
    destruct (bool_decide _); [by exists p|].
    destruct (_ <? _) eqn:Hq; [by exists p|]. apply Z.ltb_ge in Hq.
    destruct (users db !! buyerID); [|by exists p].
    repeat (destruct (bool_decide _); [by exists p|]).
    destruct (Transaction.stored _); [|by exists p].
    destruct (transactions db !! newID); [by exists p|].
    repeat (destruct (bool_decide _); [by exists p|]).
    cbn. destruct (decide (productID = id)) as [->|Hne].
    + rewrite lookup_insert_eq. assert (product = p) as -> by congruence.
      eexists. split; [done|].
      apply negb_false_iff, andb_true_iff in Hvalid as [Hmin%Z.leb_le _].
      unfold sold_from, sold. cbn. split_and!; (done || lia).
    + rewrite lookup_insert_ne by done. by exists p.
  - by apply Hsame.
  - apply Hsame. by rewrite VerifyProductByCode_unchanged.
  - apply Hsame. rewrite RevokeAuthChain_run. by case_match.
Qed.

Lemma apply_after_closing db id a a' newID now req ipAsset licenseTerms :
  exclusive db ->
  license_applications db !! id = Some a -> is_open a ->
  ~ is_open a' ->
  ApplyLicenseRequest.IPAssetID req = LicenseApplication.IPAssetID a ->
  apply_admissible db (LicenseApplication.ApplicantID a) req ipAsset licenseTerms ->
  license_applications db !! newID = None ->
  (0 < LicenseTerms.MaxLicenses licenseTerms ->
   approved_count db (ApplyLicenseRequest.LicenseTermsID req)
   < LicenseTerms.MaxLicenses licenseTerms) ->
  run (LicenseService.ApplyForLicense newID now (LicenseApplication.ApplicantID a) req)
      (save_application db id a')
  = (Ok (LicenseService.new_application now (LicenseApplication.ApplicantID a) req
           licenseTerms ipAsset),
     save_application (save_application db id a') newID
       (LicenseService.new_application now (LicenseApplication.ApplicantID a) req
          licenseTerms ipAsset)).
Proof.
  intros Hex Ha Hopen Hclosed Hasset Hadm Hfresh Hcap.
  rewrite (ApplyForLicense_admissible _ _ _ _ _ ipAsset licenseTerms) by exact Hadm.
  assert (~ has_open_application (save_application db id a')
              (ApplyLicenseRequest.IPAssetID req) (LicenseApplication.ApplicantID a))
    as Hnone.
  { intros (k & b & Hk & Hb1 & Hb2 & Hb3). cbn in Hk.
    destruct (decide (k = id)) as [->|Hne].
    - rewrite lookup_insert_eq in Hk. injection Hk as <-. by apply Hclosed.
    - rewrite lookup_insert_ne in Hk by done.
      apply Hne. symmetry.
      apply (map_Forall_lookup_1 _ _ _ _ Hex) in Ha.
      apply (map_Forall_lookup_1 _ _ _ _ Ha) in Hk.
      apply Hk. 1,2: congruence. 1: exact Hopen. exact Hb3. }
  rewrite (proj2 (open_application_None _ _ _) Hnone).
  assert (approved_count (save_application db id a') (ApplyLicenseRequest.LicenseTermsID req)
          <= approved_count db (ApplyLicenseRequest.LicenseTermsID req)) as Hle.
  { unfold approved_count, save_application. cbn.
    rewrite count_insert, (count_delete _ (license_applications db) id), Ha.
    rewrite (decide_False (P := sql.approved_under _ id a'))
      by (intros [_ Hs]; apply Hclosed; by right).
    case_decide; lia. }
  destruct (0 <? LicenseTerms.MaxLicenses licenseTerms) eqn:Hpos; cbn [andb].
  - apply Z.ltb_lt in Hpos. specialize (Hcap Hpos).
    rewrite (proj2 (Z.leb_gt _ _)) by lia.
    cbn. destruct (decide (newID = id)) as [->|]; [congruence|].
    by rewrite lookup_insert_ne, Hfresh.
  - cbn. destruct (decide (newID = id)) as [->|]; [congruence|].
    by rewrite lookup_insert_ne, Hfresh.
Qed.

(** ** Random strings *)

Lemma string_forall_get P s n c :
  string_forall P s = true -> String.get n s = Some c -> P c = true.
Proof.
  revert n. induction s as [|a s IH]; intros n; simpl; [done|].
  intros [Ha Hs]%andb_true_iff. destruct n as [|n]; [by intros [= <-]|].
  by apply IH.
Qed.

Lemma string_get_is_Some s n : is_Some (String.get n s) <-> (n < String.length s)%nat.
Proof.
  revert n. induction s as [|a s IH]; intros n; simpl.
  - split; [by intros [? ?]|lia].
  - destruct n as [|n]; [split; [lia|by eexists]|]. rewrite IH. lia.
Qed.

Lemma charset_at_Some x c :
  crypto.charset_at x = Some c -> 0 <= x < 62 /\ is_alnum c = true.
Proof.
  unfold crypto.charset_at. destruct (x <? 0) eqn:Hx; [done|].
  apply Z.ltb_ge in Hx. intros Hget. split.
  - split; [done|].
    assert (Z.to_nat x < String.length crypto.charset)%nat as Hlt
      by (apply string_get_is_Some; by eexists).
    change (String.length crypto.charset) with 62%nat in Hlt. lia.
  - eapply string_forall_get; [|done]. by vm_compute.
Qed.

Lemma charset_at_is_Some x : 0 <= x < 62 -> is_Some (crypto.charset_at x).
Proof.
  intros Hx. unfold crypto.charset_at.
  rewrite (proj2 (Z.ltb_ge x 0)) by lia.
  apply string_get_is_Some. change (String.length crypto.charset) with 62%nat. lia.
Qed.

Lemma fill_spec rand i n :
  (forall j x, rand j = Ok x -> 0 <= x < 62) ->
  match crypto.fill rand i n with
  | Returns (Ok s) =>
      String.length s = n /\ string_forall is_alnum s = true
      /\ (forall j, (i <= j < i + n)%nat -> exists x, rand j = Ok x)
  | Returns (Err err) =>
      exists j, (i <= j < i + n)%nat /\ rand j = Err err
                /\ (forall k, (i <= k < j)%nat -> exists x, rand k = Ok x)
  | Panics => False
  end.
Proof.
  intros Hrand. revert i. induction n as [|n IH]; intros i; simpl.
  { split; [done|]. split; [done|]. intros j ?. lia. }
  destruct (rand i) as [x|err] eqn:Hi.
  - destruct (charset_at_is_Some x (Hrand _ _ Hi)) as [c Hc]. rewrite Hc.
    apply charset_at_Some in Hc as [_ Hc].
    specialize (IH (S i)). destruct (crypto.fill rand (S i) n) as [[s|err]|].
    + destruct IH as (Hlen & Hall & Hdraws). split; [|split].
      * simpl. by rewrite Hlen.
      * simpl. by rewrite Hc, Hall.
      * intros j Hj. destruct (decide (j = i)) as [->|]; [by eexists|].
        apply Hdraws. lia.
    + destruct IH as (j & Hj & Herr & Hbefore). exists j. split; [lia|]. split; [done|].
      intros k Hk. destruct (decide (k = i)) as [->|]; [by eexists|].
      apply Hbefore. lia.
    + done.
  - exists i. split; [lia|]. split; [done|]. intros k ?. lia.
Qed.

(** ** Numbers in query strings *)

Lemma parse_digits_range n s :
  0 <= n <= 2 ^ 64 - 1 -> 0 <= (strconv.parse_digits n s).1 <= 2 ^ 64 - 1.
Proof.
  revert n. induction s as [|c s IH]; intros n Hn; simpl; [done|].
  destruct (strconv.digit c) as [d|] eqn:Hd; [|simpl; lia].
  assert (0 <= d <= 9) as Hd'.
  { unfold strconv.digit in Hd. destruct (_ && _) eqn:Hr; [|done].
    apply andb_true_iff in Hr as [?%Z.leb_le ?%Z.leb_le]. injection Hd as <-. lia. }
  destruct (2 ^ 64 - 1 <? n * 10 + d) eqn:Hover; [simpl; lia|].
  apply Z.ltb_ge in Hover. apply IH. lia.
Qed.

Lemma Atoi_range s : - 2 ^ 63 <= (strconv.Atoi s).1 <= 2 ^ 63 - 1.
Proof.
  unfold strconv.Atoi, strconv.ParseInt. destruct s as [|c s]; [simpl; lia|].
  set (neg := Ascii.eqb c (Ascii.ascii_of_nat 45)).
  destruct (if Ascii.eqb c (Ascii.ascii_of_nat 43) || neg then s else String c s)
    as [|c1 s1]; [simpl; lia|].
  pose proof (parse_digits_range 0 (String c1 s1) ltac:(lia)) as Hrange.
  destruct (strconv.parse_digits 0 (String c1 s1)) as [un [[]|]] eqn:Hparse;
    cbn [fst] in *; try (simpl; lia).
  - destruct (negb neg && (2 ^ 63 <=? un)) eqn:H1; [simpl; lia|].
    destruct (neg && (2 ^ 63 <? un)) eqn:H2; [simpl; lia|]. cbn [fst].
    destruct neg; cbn in H1, H2.
    + apply Z.ltb_ge in H2. lia.
    + apply Z.leb_gt in H1. lia.
  - destruct (negb neg && (2 ^ 63 <=? un)) eqn:H1; [simpl; lia|].
    destruct (neg && (2 ^ 63 <? un)) eqn:H2; [simpl; lia|]. cbn [fst].
    destruct neg; cbn in H1, H2.
    + apply Z.ltb_ge in H2. lia.
    + apply Z.leb_gt in H1. lia.
Qed.

Lemma GetPaginationParams_range c :
  1 <= PaginationParams.Page (pagination.GetPaginationParams c) <= 2 ^ 63 - 1
  /\ 1 <= PaginationParams.Limit (pagination.GetPaginationParams c) <= 100
  /\ (PaginationParams.Order (pagination.GetPaginationParams c) = "asc"
      \/ PaginationParams.Order (pagination.GetPaginationParams c) = "desc").
Proof.
  unfold pagination.GetPaginationParams. cbv zeta.
  cbn [PaginationParams.Page PaginationParams.Limit PaginationParams.Order].
  split; [|split].
  - pose proof (Atoi_range (gin.DefaultQuery c "page" "1")). case_match; lia.
  - destruct (_ || _) eqn:Hl; [lia|].
    apply orb_false_iff in Hl as [?%Z.ltb_ge ?%Z.ltb_ge]. lia.
  - match goal with |- context [if ?b then _ else _] => destruct b eqn:Ho end; [by right|].
    apply andb_false_iff in Ho as [Ho|Ho]; apply negb_false_iff, String.eqb_eq in Ho; auto.
Qed.

Lemma GenerateRandomString_32 rand :
  (forall j x, rand j = Ok x -> 0 <= x < 62) ->
  match crypto.GenerateRandomString rand 32 with
  | Returns (Ok s) => String.length s = 32%nat /\ string_forall is_alnum s = true
  | Returns (Err err) => exists j, (j < 32)%nat /\ rand j = Err err
  | Panics => False
  end.
Proof.
  intros Hrand. pose proof (fill_spec rand 0 32 Hrand) as Hfill.
  change (crypto.GenerateRandomString rand 32) with (crypto.fill rand 0 32).
  destruct (crypto.fill rand 0 32) as [[s|err]|]; [| |done].
  - by destruct Hfill as (? & ? & _).
  - destruct Hfill as (j & Hj & Herr & _). exists j. split; [lia|done].
Qed.

(** * Further properties of the license workflow *)

(** Approving, rejecting and revoking are reserved to the creator of the
    asset and to admins: for any other actor, the applicant included, each of
    the three calls fails with its own "unauthorized" error and writes
    nothing, whatever the state of the application. *)
Theorem license_decisions_need_owner_or_admin now applicationID actorID db application :
  license_applications db !! applicationID = Some application ->
  may_decide db application actorID = false ->
  (forall req,
     run (LicenseService.ApproveLicense now applicationID actorID req) db
     = (Err (errors_New "unauthorized to approve license"), db))
  /\ (forall req,
        utils.ValidateRejectLicenseRequest req = true ->
        run (LicenseService.RejectLicense now applicationID actorID req) db
        = (Err (errors_New "unauthorized to reject license"), db))
  /\ (forall req,
        utils.ValidateRevokeLicenseRequest req = true ->
        run (LicenseService.RevokeLicense now applicationID actorID req) db
        = (Err (errors_New "unauthorized to revoke license"), db)).
Proof.
  intros Ha Hno. split_and!.
  - intros req. by rewrite ApproveLicense_run, Ha, Hno.
  - intros req Hreq. by rewrite RejectLicense_run, Hreq, Ha, Hno.
  - intros req Hreq. by rewrite RevokeLicense_run, Hreq, Ha, Hno.
Qed.

Lemma license_decisions_need_owner_or_admin_witness :
  run (LicenseService.ApproveLicense 1000 sample.application sample.licensee
         (ApproveLicenseRequest.mk "ok"))
      (sample.applied 0 ApplicationStatusPending ApplicationStatusPending)
  = (Err (errors_New "unauthorized to approve license"),
     sample.applied 0 ApplicationStatusPending ApplicationStatusPending).
Proof.
  destruct (license_decisions_need_owner_or_admin 1000 sample.application sample.licensee
              (sample.applied 0 ApplicationStatusPending ApplicationStatusPending)
              (sample.an_application sample.licensee ApplicationStatusPending None))
    as [Happrove _]; [reflexivity|vm_compute; reflexivity|].
  apply Happrove.
Defined.

(** A rejected application is final: no sequence of the calls of [Call],
    served one after the other, changes its row; it is never approved or
    reopened. *)
Theorem rejected_is_final calls db id a :
  license_applications db !! id = Some a ->
  LicenseApplication.Status a = ApplicationStatusRejected ->
  license_applications (exec_all calls db) !! id = Some a.
Proof.
  intros Ha Hrejected.
  apply (exec_all_ind (fun db => license_applications db !! id = Some a)); [|done].
  clear db Ha. intros c db Ha.
  destruct (exec_applications_step c db) as [->|[(k & b & Hk & -> & _)|(k & b & b' & Hk & -> & Ht)]].
  - done.
  - rewrite lookup_insert_ne; [done|]. intros ->. congruence.
  - destruct (decide (k = id)) as [->|]; [|by rewrite lookup_insert_ne].
    rewrite Ha in Hk. injection Hk as <-.
    destruct Ht as (_ & _ & _ & [[? _]|[? _]]); congruence.
Qed.

Lemma rejected_is_final_witness :
  license_applications
    (exec_all [CallApprove 1000 sample.application sample.creator (ApproveLicenseRequest.mk "");
               CallRevoke 1001 sample.application sample.admin
                 (RevokeLicenseRequest.mk "late" "")]
       (sample.applied 0 ApplicationStatusRejected ApplicationStatusPending))
    !! sample.application
  = Some (sample.an_application sample.licensee ApplicationStatusRejected None).
Proof.
  apply (rejected_is_final _ (sample.applied 0 ApplicationStatusRejected ApplicationStatusPending));
    reflexivity.
Defined.

(** An application that was rejected or revoked no longer blocks its
    applicant: while it is pending or approved a second application for the
    asset is refused as a duplicate, and once [RejectLicense] or
    [RevokeLicense] has succeeded on it the same request is accepted. *)
Theorem reapply_after_rejection_or_revocation
    db id a now actorID newID now' req ipAsset licenseTerms :
  exclusive db ->
  license_applications db !! id = Some a -> is_open a ->
  ApplyLicenseRequest.IPAssetID req = LicenseApplication.IPAssetID a ->
  apply_admissible db (LicenseApplication.ApplicantID a) req ipAsset licenseTerms ->
  license_applications db !! newID = None ->
  (0 < LicenseTerms.MaxLicenses licenseTerms ->
   approved_count db (ApplyLicenseRequest.LicenseTermsID req)
   < LicenseTerms.MaxLicenses licenseTerms) ->
  let apply := LicenseService.ApplyForLicense newID now' (LicenseApplication.ApplicantID a) req in
  let application :=
    LicenseService.new_application now' (LicenseApplication.ApplicantID a) req
      licenseTerms ipAsset in
  (exists e, run apply db = (Err e, db) /\ duplicate_error e)
  /\ (forall reqR a' db1,
        run (LicenseService.RejectLicense now id actorID reqR) db = (Ok a', db1) ->
        run apply db1 = (Ok application, save_application db1 newID application))
  /\ (forall reqV a' db1,
        run (LicenseService.RevokeLicense now id actorID reqV) db = (Ok a', db1) ->
        run apply db1 = (Ok application, save_application db1 newID application)).
Proof.
  intros Hex Ha Hopen Hasset Hadm Hfresh Hcap apply application. split_and!.
  - unfold apply. rewrite (ApplyForLicense_admissible _ _ _ _ _ _ _ Hadm).
    destruct (gorm.first_where _ _) as [[k existing]|] eqn:Hf.
    + eexists. split; [done|]. unfold duplicate_error. case_bool_decide; auto.
    + exfalso. apply open_application_None in Hf. apply Hf.
      exists id, a. split; [done|]. split; [done|]. split; [done|]. exact Hopen.
  - intros reqR a' db1. rewrite RejectLicense_run, Ha.
    destruct (negb _); [done|]. destruct (negb _); [done|].
    case_bool_decide; [done|]. intros [= <- <-].
    apply (apply_after_closing db id a); try done.
    destruct (rejected_application_fields now actorID reqR a) as (_&_&_&Hst).
    intros [Hs|Hs]; rewrite Hst in Hs; discriminate.
  - intros reqV a' db1. rewrite RevokeLicense_run, Ha.
    destruct (negb _); [done|]. destruct (negb _); [done|].
    case_bool_decide; [done|]. destruct (0 <? _); [done|]. intros [= <- <-].
    apply (apply_after_closing db id a); try done.
    destruct (revoked_application_fields now actorID reqV a) as (_&_&_&Hst&_).
    intros [Hs|Hs]; rewrite Hst in Hs; discriminate.
Qed.

Lemma reapply_after_rejection_or_revocation_witness :
  is_Ok (run (LicenseService.ApplyForLicense 32%N 1001 sample.licensee sample.apply_request)
           (exec (CallReject 1000 sample.application sample.creator
                    (RejectLicenseRequest.mk "incomplete" ""))
              (sample.applied 0 ApplicationStatusPending ApplicationStatusPending))).1
  = true.
Proof.
  destruct (reapply_after_rejection_or_revocation
              (sample.applied 0 ApplicationStatusPending ApplicationStatusPending)
              sample.application
              (sample.an_application sample.licensee ApplicationStatusPending None)
              1000 sample.creator 32%N 1001 sample.apply_request
              sample.the_asset (sample.the_terms 20%float false 0))
    as (_ & Hreject & _).
  - apply (bool_decide_unpack _). vm_compute. exact I.
  - reflexivity.
  - by left.
  - reflexivity.
  - unfold apply_admissible. split_and!; try reflexivity; try discriminate.
    eexists. split; [reflexivity|]. split; [reflexivity|]. by left.
  - reflexivity.
  - cbn. lia.
  - cbn [exec].
    destruct (run (LicenseService.RejectLicense _ _ _ _) _) as [[a'|e] db1] eqn:Hrun.
    + exact (f_equal (fun r => is_Ok r.1) (Hreject _ _ _ Hrun)).
    + vm_compute in Hrun. discriminate.
Defined.

(** [VerifyLicense] accepts exactly the applications that are approved,
    active and not past their expiry (a license still verifies at the very
    instant it expires), returns the stored row, and never writes. *)
Theorem verify_license_valid now licenseID db :
  (run (LicenseService.VerifyLicense now licenseID) db).2 = db
  /\ forall license,
       run (LicenseService.VerifyLicense now licenseID) db = (Ok license, db)
       <-> license_applications db !! licenseID = Some license
           /\ LicenseApplication.Status license = ApplicationStatusApproved
           /\ LicenseApplication.IsActive license = true
           /\ (forall ExpiresAt,
                 LicenseApplication.ExpiresAt license = Some ExpiresAt -> now <= ExpiresAt).
Proof.
  rewrite VerifyLicense_run. split.
  - by repeat case_match.
  - intros license. destruct (license_applications db !! licenseID) as [a|].
    2:{ split; [done|by intros [? _]]. }
    destruct (decide (LicenseApplication.Status a = ApplicationStatusApproved)) as [Hs|Hs].
    2:{ rewrite bool_decide_eq_true_2 by done. cbn [orb].
        split; [done|]. intros (? & ? & _). by simplify_eq. }
    rewrite bool_decide_eq_false_2 by auto. cbn [orb].
    destruct (LicenseApplication.IsActive a) eqn:Hactive; cbn [negb].
    2:{ split; [done|]. intros (? & _ & ? & _). simplify_eq. congruence. }
    destruct (LicenseApplication.ExpiresAt a) as [e|] eqn:He.
    + unfold After. destruct (e <? now) eqn:Hlt.
      * apply Z.ltb_lt in Hlt. split; [done|].
        intros (? & _ & _ & Hexp); simplify_eq. specialize (Hexp _ He). lia.
      * apply Z.ltb_ge in Hlt. split.
        -- intros [= <-]. split_and!; try done. intros ? ?. simplify_eq. lia.
        -- intros (? & _); by simplify_eq.
    + split.
      * intros [= <-]. split_and!; try done. intros ? ?. congruence.
      * intros (? & _); by simplify_eq.
Qed.

(** An application can be read by its applicant, by the creator of the
    asset and by an admin; anyone else is refused, and the call never
    writes. *)
Theorem license_application_visibility id userID db :
  (run (LicenseService_GetLicenseApplication id userID) db).2 = db
  /\ (forall application,
        run (LicenseService_GetLicenseApplication id userID) db = (Ok application, db)
        <-> license_applications db !! id = Some application
            /\ (LicenseApplication.ApplicantID application = userID
                \/ may_decide db application userID = true))
  /\ (forall application,
        license_applications db !! id = Some application ->
        LicenseApplication.ApplicantID application <> userID ->
        may_decide db application userID = false ->
        run (LicenseService_GetLicenseApplication id userID) db
        = (Err (errors_New "unauthorized to view license application"), db)).
Proof.
  rewrite GetLicenseApplication_run. split_and!.
  - by repeat case_match.
  - intros application. destruct (license_applications db !! id) as [a|].
    2:{ split; [done|by intros [? _]]. }
    destruct (decide (LicenseApplication.ApplicantID a = userID)) as [Hu|Hu].
    { rewrite bool_decide_eq_true_2 by done. cbn [orb]. split.
      - intros [= <-]. auto.
      - intros [? _]. by simplify_eq. }
    rewrite bool_decide_eq_false_2 by done. cbn [orb].
    destruct (may_decide db a userID) eqn:Hd.
    + split; [intros [= <-]; auto|]. intros [? _]. by simplify_eq.
    + split; [done|]. intros [? [?|?]]; simplify_eq; congruence.
  - intros application -> Hu Hd. by rewrite bool_decide_eq_false_2, Hd.
Qed.

(** * Properties of the product catalogue *)



(** A product that is not active (a draft, sold out or suspended) can be
    read by its creator and by admins only; every other caller, signed in or
    not, gets the error a missing product gives.  An active product is
    returned to everyone. *)
Theorem get_product_visibility s id userID db :
  (products db !! id = None ->
   run (ProductService_GetProduct s id userID) db
   = (Err (errors_New "product not found"), db))
  /\ (forall product,
        products db !! id = Some product ->
        Product.Status product = ProductStatusActive
        \/ (exists u, userID = Some u /\ (u = Product.CreatorID product \/ is_admin db u)) ->
        run (ProductService_GetProduct s id userID) db = (Ok product, db))
  /\ (forall product,
        products db !! id = Some product ->
        Product.Status product <> ProductStatusActive ->
        (forall u, userID = Some u -> u <> Product.CreatorID product /\ ~ is_admin db u) ->
        run (ProductService_GetProduct s id userID) db
        = (Err (errors_New "product not found"), db)).
Proof.
  rewrite GetProduct_run. unfold is_admin. split_and!.
  - by intros ->.
  - intros product -> [Hactive|(u & -> & [->|Hadmin])].
    + by rewrite bool_decide_eq_true_2.
    + rewrite (bool_decide_eq_true_2 (Some _ = Some _)) by done.
      by rewrite orb_true_r.
    + cbn. rewrite (bool_decide_eq_true_2 (_ = Some UserTypeAdmin)) by done.
      by rewrite orb_true_r.
  - intros product -> Hactive Hviewer. rewrite bool_decide_eq_false_2 by done. cbn [orb].
    destruct userID as [u|]; cbn.
    + destruct (Hviewer u eq_refl) as [Hu Hadmin].
      rewrite !bool_decide_eq_false_2; [done|done|congruence].
    + rewrite !bool_decide_eq_false_2; done.
Qed.

Lemma get_product_visibility_witness :
  run (ProductService_GetProduct router_productService sample_catalogue.product2
         (Some sample.buyer)) sample_catalogue.created
  = (Err (errors_New "product not found"), sample_catalogue.created)
  /\ run (ProductService_GetProduct router_productService sample_catalogue.product2
            (Some sample.admin)) sample_catalogue.created
     = (Ok (new_product sample.licensee sample_catalogue.request), sample_catalogue.created).
Proof.
  split.
  - destruct (get_product_visibility router_productService sample_catalogue.product2
                (Some sample.buyer) sample_catalogue.created) as (_ & _ & Hhidden).
    apply (Hhidden (new_product sample.licensee sample_catalogue.request));
      [reflexivity|discriminate|].
    intros u [= <-]. split; [discriminate|]. vm_compute. discriminate.
  - destruct (get_product_visibility router_productService sample_catalogue.product2
                (Some sample.admin) sample_catalogue.created) as (_ & Hshown & _).
    apply (Hshown (new_product sample.licensee sample_catalogue.request)); [reflexivity|].
    right. exists sample.admin. split; [done|].
    right. vm_compute. reflexivity.
Defined.

(** A product that was just created cannot be bought: it is a draft, and
    [PurchaseProduct] refuses every valid order for it without writing. *)
Theorem new_product_is_not_for_sale s newID now creatorID req db product db' :
  run (ProductService_CreateProduct s newID now creatorID req) db = (Ok product, db') ->
  forall transactionID fault buyerID order,
    utils.ValidatePurchaseProductRequest order = true ->
    run (ProductService.PurchaseProduct transactionID fault newID buyerID order) db'
    = (Err (errors_New "product is not available for purchase"), db').
Proof.
  intros Hcreate transactionID fault buyerID order Hvalid.
  destruct (create_product_effect _ _ _ _ _ _ _ _ Hcreate) as (_ & _ & ->).
  rewrite PurchaseProduct_run, Hvalid. cbn. by rewrite lookup_insert_eq.
Qed.

Lemma new_product_is_not_for_sale_witness :
  run (ProductService.PurchaseProduct sample.transaction NoFault
         sample_catalogue.product2 sample.buyer (sample.purchase_request 1))
      sample_catalogue.created
  = (Err (errors_New "product is not available for purchase"), sample_catalogue.created).
Proof.
  apply (new_product_is_not_for_sale router_productService sample_catalogue.product2 1000
           sample.licensee sample_catalogue.request sample_catalogue.licensed
           sample_catalogue.the_product).
  - vm_compute. reflexivity.
  - reflexivity.
Defined.

(** While a draft or active product is built on a license the license
    cannot be revoked: once [CreateProduct] has succeeded, [RevokeLicense] on
    its license fails for every authorized caller and writes nothing. *)
Theorem product_blocks_revocation s newID now creatorID req db product db' :
  run (ProductService_CreateProduct s newID now creatorID req) db = (Ok product, db') ->
  forall now' revokerID reqV license,
    license_applications db !! CreateProductRequest.LicenseID req = Some license ->
    may_decide db license revokerID = true ->
    utils.ValidateRevokeLicenseRequest reqV = true ->
    run (LicenseService.RevokeLicense now' (CreateProductRequest.LicenseID req)
           revokerID reqV) db'
    = (Err (errors_New "cannot revoke license with active products"), db').
Proof.
  intros Hcreate now' revokerID reqV license Hlicense Hmay Hvalid.
  destruct (create_product_effect _ _ _ _ _ _ _ _ Hcreate)
    as (Hfresh & (license' & Hlicense' & Happroved) & ->).
  assert (license' = license) as -> by congruence.
  rewrite RevokeLicense_run, Hvalid. cbn [negb license_applications with_products].
  rewrite Hlicense.
  change (may_decide (with_products db _) license revokerID)
    with (may_decide db license revokerID).
  rewrite Hmay. cbn [negb]. rewrite bool_decide_eq_false_2 by auto.
  rewrite (proj2 (Z.ltb_lt 0 _)); [done|].
  apply (count_pos _ _ newID (new_product creatorID req)).
  - cbn. apply lookup_insert_eq.
  - split; [done|]. by right.
Qed.

Lemma product_blocks_revocation_witness :
  run (LicenseService.RevokeLicense 1001 sample.application sample.creator
         (RevokeLicenseRequest.mk "breach" "")) sample_catalogue.created
  = (Err (errors_New "cannot revoke license with active products"),
     sample_catalogue.created).
Proof.
  apply (product_blocks_revocation router_productService sample_catalogue.product2 1000
           sample.licensee sample_catalogue.request sample_catalogue.licensed
           sample_catalogue.the_product sample_catalogue.created)
    with (license := sample.an_application sample.licensee ApplicationStatusApproved None).
  - vm_compute. reflexivity.
  - reflexivity.
  - vm_compute. reflexivity.
  - reflexivity.
Defined.

(** [DeleteProduct] succeeds exactly for the creator of a product that has
    no completed sale, and then removes that product and nothing else: the
    transactions and the authorization chains of the product stay as they
    are.  In every other case it fails and writes nothing. *)
Theorem delete_product_effect s id creatorID db :
  (forall e db', run (ProductService_DeleteProduct s id creatorID) db = (Err e, db') ->
                 db' = db)
  /\ (forall db',
        run (ProductService_DeleteProduct s id creatorID) db = (Ok tt, db')
        <-> (exists product, products db !! id = Some product
                             /\ Product.CreatorID product = creatorID)
            /\ ~ has_completed_sale db id
            /\ db' = with_products db (delete id (products db)))
  /\ (forall product,
        products db !! id = Some product ->
        Product.CreatorID product = creatorID ->
        has_completed_sale db id ->
        run (ProductService_DeleteProduct s id creatorID) db
        = (Err (errors_New "cannot delete product with completed sales"), db)).
Proof.
  split_and!.
  - intros e db'. rewrite DeleteProduct_run. by repeat case_match; intros [= <- <-].
  - intros db'. split; [apply DeleteProduct_Ok|].
    intros ((product & Hproduct & Howner) & Hsales & ->).
    rewrite DeleteProduct_run, Hproduct, bool_decide_eq_false_2 by auto.
    destruct (0 <? _) eqn:Hcount; [|done]. exfalso. apply Hsales.
    apply Z.ltb_lt, count_pos_inv in Hcount as (k & t & Hk & Ht). by exists k, t.
  - intros product Hproduct Howner (k & t & Hk & Ht).
    rewrite DeleteProduct_run, Hproduct, bool_decide_eq_false_2 by auto.
    by rewrite (proj2 (Z.ltb_lt 0 _)) by (by eapply count_pos).
Qed.

Lemma delete_product_effect_witness :
  run (ProductService_DeleteProduct router_productService sample.product sample.licensee)
      sample_catalogue.sold
  = (Err (errors_New "cannot delete product with completed sales"), sample_catalogue.sold).
Proof.
  destruct (delete_product_effect router_productService sample.product sample.licensee
              sample_catalogue.sold) as (_ & _ & Hsold).
  apply (Hsold (Product.mk sample.licensee sample.application 10%float 3
                  ProductStatusActive 2)); [reflexivity|reflexivity|].
  exists sample.transaction, (sample_catalogue.a_sale TransactionStatusCompleted).
  split; [reflexivity|]. by split.
Defined.

(** A sale protects the product from deletion only once it is paid: after a
    purchase the creator can still delete the product while the transaction
    is pending (if no earlier sale was completed), and cannot after
    [processPayment] has completed it. *)
Theorem paid_sale_protects_product s newID productID buyerID req db transaction db1 :
  run (ProductService.PurchaseProduct newID NoFault productID buyerID req) db
  = (Ok transaction, db1) ->
  forall product now,
    products db !! productID = Some product ->
    (~ has_completed_sale db productID ->
     is_Ok (run (ProductService_DeleteProduct s productID (Product.CreatorID product))
              db1).1 = true)
    /\ run (ProductService_DeleteProduct s productID (Product.CreatorID product))
           (exec (CallProcessPayment now newID transaction) db1)
       = (Err (errors_New "cannot delete product with completed sales"),
          exec (CallProcessPayment now newID transaction) db1).
Proof.
  intros Hbuy product now Hproduct.
  rewrite PurchaseProduct_run, Hproduct in Hbuy.
  destruct (negb _); [done|]. case_bool_decide; [done|].
  destruct (_ <? _); [done|]. destruct (users db !! buyerID) as [buyer|]; [|done].
  case_bool_decide; [done|]. cbn in Hbuy.
  destruct (Transaction.stored _) as [row|] eqn:Hrow; [|done].
  destruct (transactions db !! newID) as [old|] eqn:Hfresh; [done|]. cbn in Hbuy.
  injection Hbuy as <- <-.
  assert (Transaction.ProductID row = Some productID) as HtP.
  { apply stored_inv in Hrow as (_ & _ & _ & _ & -> & _).
    unfold ProductService.new_transaction. by case_match. }
  assert (Transaction.Status row = TransactionStatusPending) as HtS.
  { apply stored_inv in Hrow as (_ & _ & _ & -> & _). apply new_transaction_Status. }
  split.
  - intros Hnone. rewrite DeleteProduct_run. cbn. rewrite lookup_insert_eq. cbn.
    rewrite bool_decide_eq_false_2 by auto.
    destruct (0 <? _) eqn:Hcount; [|done]. exfalso.
    apply Z.ltb_lt, count_pos_inv in Hcount as (k & t' & Hk & [Ht1 Ht2]).
    destruct (decide (k = newID)) as [->|Hne].
    + rewrite lookup_insert_eq in Hk. injection Hk as <-. congruence.
    + rewrite lookup_insert_ne in Hk by done. apply Hnone. by exists k, t'.
  - cbn [exec]. unfold ProductService.processPayment. rewrite run_Save. cbn [snd].
    rewrite DeleteProduct_run. cbn. rewrite lookup_insert_eq. cbn.
    rewrite bool_decide_eq_false_2 by auto.
    rewrite (proj2 (Z.ltb_lt 0 _)); [done|].
    eapply (count_pos _ _ newID); [apply lookup_insert_eq|]. by split.
Qed.

Lemma paid_sale_protects_product_witness :
  (run (ProductService_DeleteProduct router_productService sample.product sample.licensee)
      (exec_all [CallPurchase sample.transaction NoFault sample.product sample.buyer
                   (sample.purchase_request 2);
                 CallProcessPayment 1001 sample.transaction
                   (ProductService.new_transaction sample.product sample.buyer
                      (sample.purchase_request 2)
                      (ProductService.preload
                         (sample.on_sale 10%float 20%float 5 ApplicationStatusApproved None)
                         (sample.a_product 10%float 5 ProductStatusActive)))]
         (sample.on_sale 10%float 20%float 5 ApplicationStatusApproved None))).1
  = Err (errors_New "cannot delete product with completed sales").
Proof.
  destruct (paid_sale_protects_product router_productService sample.transaction
              sample.product sample.buyer (sample.purchase_request 2)
              (sample.on_sale 10%float 20%float 5 ApplicationStatusApproved None)
              (ProductService.new_transaction sample.product sample.buyer
                 (sample.purchase_request 2)
                 (ProductService.preload
                    (sample.on_sale 10%float 20%float 5 ApplicationStatusApproved None)
                    (sample.a_product 10%float 5 ProductStatusActive)))
              (exec (CallPurchase sample.transaction NoFault sample.product sample.buyer
                       (sample.purchase_request 2))
                 (sample.on_sale 10%float 20%float 5 ApplicationStatusApproved None)))
    with (product := sample.a_product 10%float 5 ProductStatusActive) (now := 1001)
    as [_ Hpaid].
  - vm_compute. reflexivity.
  - reflexivity.
  - exact (f_equal fst Hpaid).
Defined.

(** Purchases only move units of a product from its inventory to its sales
    count: over every sequence of the calls of [Call] (the license workflow,
    purchase, payment and chain calls), served one after the other, a
    product stays in the catalogue, the sum of the two counts is constant,
    the inventory never grows, and price, status, creator and license are
    never changed; in particular a product that sells out stays active. *)
Theorem stock_is_conserved calls db id p :
  products db !! id = Some p ->
  exists p', products (exec_all calls db) !! id = Some p' /\ sold_from p p'.
Proof.
  revert db p. induction calls as [|c calls IH]; intros db p Hp; cbn.
  - exists p. split; [done|]. unfold sold_from. split_and!; (done || lia).
  - destruct (exec_sold_from c db id p Hp) as (p1 & Hp1 & H1).
    destruct (IH _ _ Hp1) as (p2 & Hp2 & H2). exists p2. split; [done|].
    unfold sold_from in *. destruct H1 as (?&?&?&?&?&?), H2 as (?&?&?&?&?&?).
    split_and!; (congruence || lia).
Qed.

Lemma stock_is_conserved_witness :
  exists p',
    products
      (exec_all [CallPurchase sample.transaction NoFault sample.product sample.buyer
                   (sample.purchase_request 5)]
         (sample.on_sale 10%float 20%float 5 ApplicationStatusApproved None))
    !! sample.product = Some p'
    /\ sold_from (sample.a_product 10%float 5 ProductStatusActive) p'.
Proof.
  apply (stock_is_conserved _
           (sample.on_sale 10%float 20%float 5 ApplicationStatusApproved None)).
  reflexivity.
Defined.

(** Selling the last units leaves the product in the catalogue with an
    inventory of zero and its status unchanged, and every later order for it
    is refused for insufficient inventory. *)
Theorem sold_out_product_refuses_orders
    newID productID buyerID req db transaction db1 product :
  run (ProductService.PurchaseProduct newID NoFault productID buyerID req) db
  = (Ok transaction, db1) ->
  products db !! productID = Some product ->
  PurchaseProductRequest.Quantity req = Product.InventoryCount product ->
  (exists product1,
     products db1 !! productID = Some product1
     /\ Product.InventoryCount product1 = 0
     /\ Product.Status product1 = ProductStatusActive)
  /\ (forall newID' fault buyerID' order,
        utils.ValidatePurchaseProductRequest order = true ->
        run (ProductService.PurchaseProduct newID' fault productID buyerID' order) db1
        = (Err (errors_New "insufficient inventory"), db1)).
Proof.
  intros Hbuy Hproduct Hall.
  rewrite PurchaseProduct_run, Hproduct in Hbuy.
  destruct (negb _); [done|]. case_bool_decide as Hactive; [done|].
  destruct (_ <? _); [done|]. destruct (users db !! buyerID) as [buyer|]; [|done].
  case_bool_decide; [done|]. cbn in Hbuy.
  destruct (Transaction.stored _) as [row|] eqn:Hrow; [|done].
  destruct (transactions db !! newID) as [old|]; [done|]. cbn in Hbuy.
  injection Hbuy as <- <-.
  assert (Product.Status product = ProductStatusActive) as Hstatus
    by (destruct (decide (Product.Status product = ProductStatusActive)); tauto).
  split.
  - eexists. cbn. rewrite lookup_insert_eq. split; [done|]. cbn. split; [lia|done].
  - intros newID' fault buyerID' order Hvalid.
    rewrite PurchaseProduct_run, Hvalid. cbn. rewrite lookup_insert_eq. cbn.
    rewrite bool_decide_eq_false_2 by auto.
    apply andb_true_iff in Hvalid as [Hmin%Z.leb_le _].
    by rewrite (proj2 (Z.ltb_lt _ _)) by lia.
Qed.

Lemma sold_out_product_refuses_orders_witness :
  run (ProductService.PurchaseProduct 51%N NoFault sample.product sample.buyer
         (sample.purchase_request 1))
      (exec (CallPurchase sample.transaction NoFault sample.product sample.buyer
               (sample.purchase_request 5))
         (sample.on_sale 10%float 20%float 5 ApplicationStatusApproved None))
  = (Err (errors_New "insufficient inventory"),
     exec (CallPurchase sample.transaction NoFault sample.product sample.buyer
             (sample.purchase_request 5))
       (sample.on_sale 10%float 20%float 5 ApplicationStatusApproved None)).
Proof.
  destruct (sold_out_product_refuses_orders sample.transaction sample.product sample.buyer
              (sample.purchase_request 5)
              (sample.on_sale 10%float 20%float 5 ApplicationStatusApproved None)
              (ProductService.new_transaction sample.product sample.buyer
                 (sample.purchase_request 5)
                 (ProductService.preload
                    (sample.on_sale 10%float 20%float 5 ApplicationStatusApproved None)
                    (sample.a_product 10%float 5 ProductStatusActive)))
              (exec (CallPurchase sample.transaction NoFault sample.product sample.buyer
                       (sample.purchase_request 5))
                 (sample.on_sale 10%float 20%float 5 ApplicationStatusApproved None))
              (sample.a_product 10%float 5 ProductStatusActive))
    as [_ Hlater].
  - vm_compute. reflexivity.
  - reflexivity.
  - reflexivity.
  - by apply Hlater.
Defined.

(** Deleting a product does not deactivate its authorization chain: after a
    successful [DeleteProduct], verification by code and by product id
    succeed or fail as before, with the same error or the same chain row.
    What changes is the [Product] relation preloaded into a returned chain:
    for a chain of the deleted product, which had the product there, it is
    now the zero value; every other preloaded relation is as before. *)
Theorem deleted_product_still_verifies s id creatorID db db' :
  run (ProductService_DeleteProduct s id creatorID) db = (Ok tt, db') ->
  (forall code,
     (run (AuthorizationService.VerifyProductByCode router.authorizationService code) db').1
     = (run (AuthorizationService.VerifyProductByCode router.authorizationService code) db).1)
  /\ (forall productID,
        (run (ProductService_VerifyProductAuthenticity router_productService productID) db').1
        = (run (ProductService_VerifyProductAuthenticity router_productService productID)
             db).1)
  /\ (forall authChain,
        VerifiedChain.IPAsset (preload_relations db' authChain)
        = VerifiedChain.IPAsset (preload_relations db authChain)
        /\ VerifiedChain.License (preload_relations db' authChain)
           = VerifiedChain.License (preload_relations db authChain)
        /\ (AuthorizationChain.ProductID authChain <> id ->
            VerifiedChain.Product (preload_relations db' authChain)
            = VerifiedChain.Product (preload_relations db authChain))
        /\ (AuthorizationChain.ProductID authChain = id ->
            is_Some (VerifiedChain.Product (preload_relations db authChain))
            /\ VerifiedChain.Product (preload_relations db' authChain) = None)).
Proof.
  intros ((product & Hproduct & _) & _ & ->)%DeleteProduct_Ok. split_and!.
  - intros code.
    rewrite !(VerifyProductByCode_run router.authorizationService router.blockchainService
                code _ eq_refl).
    cbn [authorization_chains with_products].
    destruct (gorm.first_where _ _) as [[k c]|]; [|done].
    change (chain_live (with_products db _) c) with (chain_live db c).
    by destruct (_ && _).
  - intros productID. rewrite !VerifyProductAuthenticity_run.
    cbn [authorization_chains with_products].
    destruct (gorm.first_where _ _) as [[k c]|]; [|done].
    change (chain_live (with_products db _) c) with (chain_live db c).
    by destruct (_ && _).
  - intros authChain. unfold preload_relations. cbn. split_and!; [done|done| |].
    + intros Hne. by rewrite lookup_delete_ne.
    + intros ->. split; [by rewrite Hproduct|apply lookup_delete_eq].
Qed.

Lemma deleted_product_still_verifies_witness :
  is_Ok (run (AuthorizationService.VerifyProductByCode router.authorizationService "CODE")
           (with_products
              (sample.on_sale 10%float 20%float 5 ApplicationStatusApproved None) ∅)).1
  = true
  /\ VerifiedChain.Product
       (preload_relations
          (with_products
             (sample.on_sale 10%float 20%float 5 ApplicationStatusApproved None) ∅)
          (sample.a_chain true))
     = None.
Proof.
  destruct (deleted_product_still_verifies router_productService sample.product
              sample.licensee
              (sample.on_sale 10%float 20%float 5 ApplicationStatusApproved None)
              (with_products
                 (sample.on_sale 10%float 20%float 5 ApplicationStatusApproved None) ∅))
    as (Hcode & _ & Hpreload).
  - vm_compute. reflexivity.
  - split.
    + rewrite Hcode. vm_compute. reflexivity.
    + by apply (Hpreload (sample.a_chain true)).
Defined.

(** * Properties of the authorization chains *)

(** Verifying a product by its id and by the code of its chain agree: when
    a chain is the only active one of its product and the only active one
    with its code, [VerifyProductAuthenticity] of the product and
    [VerifyProductByCode] of the code return the same result. *)
Theorem verification_by_product_and_by_code_agree db id c :
  authorization_chains db !! id = Some c ->
  AuthorizationChain.IsActive c = true ->
  (forall k c',
     authorization_chains db !! k = Some c' ->
     AuthorizationChain.IsActive c' = true ->
     AuthorizationChain.ProductID c' = AuthorizationChain.ProductID c
     \/ AuthorizationChain.VerificationCode c' = AuthorizationChain.VerificationCode c ->
     k = id) ->
  run (ProductService_VerifyProductAuthenticity router_productService
         (AuthorizationChain.ProductID c)) db
  = run (AuthorizationService.VerifyProductByCode router.authorizationService
           (AuthorizationChain.VerificationCode c)) db.
Proof.
  intros Hc Hactive Honly.
  rewrite VerifyProductAuthenticity_run.
  rewrite (VerifyProductByCode_run router.authorizationService router.blockchainService
             _ _ eq_refl).
  rewrite (first_where_unique (sql_active_chain_of_product _) _ id c),
    (first_where_unique (sql.active_chain_with_code _) _ id c); try done.
  - intros k c' Hk [Hcode Hact]. eauto.
  - intros k c' Hk [Hprod Hact]. eauto.
Qed.

Lemma verification_by_product_and_by_code_agree_witness :
  run (ProductService_VerifyProductAuthenticity router_productService sample.product)
      (sample.on_sale 10%float 20%float 5 ApplicationStatusApproved None)
  = run (AuthorizationService.VerifyProductByCode router.authorizationService "CODE")
        (sample.on_sale 10%float 20%float 5 ApplicationStatusApproved None).
Proof.
  apply (verification_by_product_and_by_code_agree
           (sample.on_sale 10%float 20%float 5 ApplicationStatusApproved None)
           sample.chain (sample.a_chain true)).
  - reflexivity.
  - reflexivity.
  - intros k c' Hk _ _. unfold sample.on_sale in Hk. cbn [authorization_chains] in Hk.
    by apply lookup_singleton_Some in Hk as [<- _].
Defined.

(** [RevokeAuthChain] fails on an unknown chain and writes nothing; on a
    known chain it only clears the chain's [is_active] flag, after which the
    chain's code is refused as an invalid code, by any authorization service,
    and revoking again changes nothing. *)
Theorem revoked_chain_no_longer_verifies s authChainID reason db :
  (authorization_chains db !! authChainID = None ->
   run (AuthorizationService.RevokeAuthChain s authChainID reason) db
   = (Err (fmt_Errorf "authorization chain not found: " ErrRecordNotFound), db))
  /\ (forall c,
        authorization_chains db !! authChainID = Some c ->
        (forall k c', authorization_chains db !! k = Some c' ->
                      AuthorizationChain.VerificationCode c'
                      = AuthorizationChain.VerificationCode c -> k = authChainID) ->
        let db1 :=
          with_authorization_chains db
            (<[authChainID := AuthorizationChain.with_IsActive c false]>
               (authorization_chains db)) in
        run (AuthorizationService.RevokeAuthChain s authChainID reason) db = (Ok tt, db1)
        /\ (forall s',
              run (AuthorizationService.VerifyProductByCode s'
                     (AuthorizationChain.VerificationCode c)) db1
              = (Err (errors_New "invalid verification code"), db1))
        /\ (forall reason',
              run (AuthorizationService.RevokeAuthChain s authChainID reason') db1
              = (Ok tt, db1))).
Proof.
  split.
  - intros Hnone. by rewrite RevokeAuthChain_run, Hnone.
  - intros c Hc Honly db1. split_and!.
    + by rewrite RevokeAuthChain_run, Hc.
    + intros s'. unfold AuthorizationService.VerifyProductByCode.
      rewrite run_bind, run_FirstWhere.
      rewrite (proj2 (first_where_None _ _)); [done|].
      intros k c'. unfold db1. cbn. intros Hk [Hcode Hact].
      destruct (decide (k = authChainID)) as [->|Hne].
      * rewrite lookup_insert_eq in Hk. injection Hk as <-. by destruct c.
      * rewrite lookup_insert_ne in Hk by done. eauto.
    + intros reason'. rewrite RevokeAuthChain_run. unfold db1. cbn.
      rewrite lookup_insert_eq. unfold with_authorization_chains. cbn.
      by rewrite insert_insert_eq.
Qed.

Lemma revoked_chain_no_longer_verifies_witness :
  run (AuthorizationService.VerifyProductByCode router.authorizationService "CODE")
      (with_authorization_chains
         (sample.on_sale 10%float 20%float 5 ApplicationStatusApproved None)
         (<[sample.chain := sample.a_chain false]> {[ sample.chain := sample.a_chain true ]}))
  = (Err (errors_New "invalid verification code"),
     with_authorization_chains
       (sample.on_sale 10%float 20%float 5 ApplicationStatusApproved None)
       (<[sample.chain := sample.a_chain false]> {[ sample.chain := sample.a_chain true ]})).
Proof.
  destruct (revoked_chain_no_longer_verifies router.authorizationService sample.chain "recall"
              (sample.on_sale 10%float 20%float 5 ApplicationStatusApproved None))
    as [_ Hknown].
  destruct (Hknown (sample.a_chain true)) as (_ & Hrefused & _).
  - reflexivity.
  - intros k c' Hk _. unfold sample.on_sale in Hk. cbn [authorization_chains] in Hk.
    by apply lookup_singleton_Some in Hk as [<- _].
  - apply Hrefused.
Defined.

(** From creation to verification: once [CreateProduct] has succeeded and
    the goroutine it starts has created the product's chain (the random
    source gave the code, the store had neither the chain key nor the code,
    and no chain referred to the new product's key), the product verifies
    as authentic by its id and by its code, provided the licensed asset is
    approved; the chain carries the product, its license, the license's
    asset, the code and a hash. *)
Theorem created_product_verifies
    now creatorID req db productID product db1 rand sum chainID code :
  run (ProductService_CreateProduct router_productService productID now creatorID req) db
  = (Ok product, db1) ->
  crypto.GenerateRandomString rand 32 = Returns (Ok code) ->
  sum <> [] ->
  authorization_chains db !! chainID = None ->
  (forall k c, authorization_chains db !! k = Some c ->
               AuthorizationChain.VerificationCode c <> code
               /\ AuthorizationChain.ProductID c <> productID) ->
  (forall license,
     license_applications db !! CreateProductRequest.LicenseID req = Some license ->
     IPAsset.VerificationStatus <$> ip_assets db !! LicenseApplication.IPAssetID license
     = Some VerificationStatusApproved) ->
  let db2 :=
    (run (ProductService_createAuthorizationChain router_productService rand sum chainID
            productID product) db1).2 in
  exists authChain,
    authorization_chains db2 !! chainID = Some authChain
    /\ AuthorizationChain.ProductID authChain = productID
    /\ AuthorizationChain.LicenseID authChain = CreateProductRequest.LicenseID req
    /\ AuthorizationChain.VerificationCode authChain = code
    /\ run (ProductService_VerifyProductAuthenticity router_productService productID) db2
       = (Ok (chainID, authChain), db2)
    /\ run (AuthorizationService.VerifyProductByCode router.authorizationService code) db2
       = (Ok (chainID, authChain), db2).
Proof.
  intros Hcreate Hcode Hsum Hfresh Hunused Hasset db2.
  pose proof Hcreate as Hcreate'.
  rewrite CreateProduct_run in Hcreate'. destruct (negb _); [done|].
  destruct (users db !! creatorID) as [creator|]; [|done].
  do 2 (case_bool_decide; [done|]).
  destruct (license_applications db !! CreateProductRequest.LicenseID req)
    as [license|] eqn:Hlicense; [|done].
  case_bool_decide; [done|].
  destruct (bool_decide _ || negb _) eqn:Hactive; [done|].
  destruct (match LicenseApplication.ExpiresAt license with
            | Some _ => _ | None => _ end); [done|].
  destruct (products db !! productID) eqn:Hnew; [done|].
  injection Hcreate' as <- <-.
  apply orb_false_iff in Hactive as [Hst%bool_decide_eq_false _].
  assert (LicenseApplication.Status license = ApplicationStatusApproved) as Happroved
    by (destruct (decide (LicenseApplication.Status license = ApplicationStatusApproved));
        tauto).
  specialize (Hasset _ eq_refl).
  set (authChain :=
         AuthorizationChain.mk productID (LicenseApplication.IPAssetID license)
           (CreateProductRequest.LicenseID req) None (hex.EncodeToString sum) code true).
  assert (gorm.first_where (sql_has_code code) (authorization_chains db) = None) as Hnocode.
  { apply first_where_None. intros k c Hk Hc. by destruct (Hunused k c Hk). }
  assert (db2 = with_authorization_chains
                  (with_products db (<[productID := new_product creatorID req]> (products db)))
                  (<[chainID := authChain]> (authorization_chains db))) as Hdb2.
  { unfold db2, ProductService_createAuthorizationChain.
    cbn [router_productService authorizationService].
    rewrite run_bind, run_catch, CreateProductAuthChain_run, Hcode.
    cbn [authorization_chains with_products PreloadedProduct.License
         PreloadedProduct.product from_option new_product Product.LicenseID].
    by rewrite Hfresh, Hnocode. }
  clearbody db2. subst db2.
  exists authChain. split; [cbn; apply lookup_insert_eq|]. do 3 (split; [done|]).
  assert (chain_live
            (with_authorization_chains
               (with_products db (<[productID := new_product creatorID req]> (products db)))
               (<[chainID := authChain]> (authorization_chains db))) authChain) as Hlive.
  { split; cbn; [by rewrite Hlicense; cbn; rewrite Happroved|done]. }
  split.
  - rewrite VerifyProductAuthenticity_run.
    rewrite (first_where_unique _ _ chainID authChain).
    + cbn [AuthorizationChain.BlockchainHash authChain].
      rewrite (proj2 (String.eqb_neq _ _)) by by apply hex_EncodeToString_nonempty.
      by rewrite bool_decide_eq_true_2.
    + cbn. apply lookup_insert_eq.
    + done.
    + cbn. intros k c Hk [Hprod _].
      destruct (decide (k = chainID)) as [|Hne]; [done|].
      rewrite lookup_insert_ne in Hk by done. by destruct (Hunused k c Hk).
  - rewrite (VerifyProductByCode_run router.authorizationService router.blockchainService
               _ _ eq_refl).
    rewrite (first_where_unique _ _ chainID authChain).
    + cbn [AuthorizationChain.BlockchainHash authChain].
      rewrite (proj2 (String.eqb_neq _ _)) by by apply hex_EncodeToString_nonempty.
      by rewrite bool_decide_eq_true_2.
    + cbn. apply lookup_insert_eq.
    + done.
    + cbn. intros k c Hk [Hc _].
      destruct (decide (k = chainID)) as [|Hne]; [done|].
      rewrite lookup_insert_ne in Hk by done. by destruct (Hunused k c Hk).
Qed.

Lemma created_product_verifies_witness :
  is_Ok (run (AuthorizationService.VerifyProductByCode router.authorizationService
                "aaaaaaaaaaaaaaaaaaaaaaaaaaaaaaaa")
           (run (ProductService_createAuthorizationChain router_productService
                   sample_catalogue.rand sample_catalogue.sum sample_catalogue.chain2
                   sample_catalogue.product2 sample_catalogue.the_product)
              sample_catalogue.created).2).1
  = true.
Proof.
  destruct (created_product_verifies 1000 sample.licensee sample_catalogue.request
              sample_catalogue.licensed sample_catalogue.product2
              sample_catalogue.the_product sample_catalogue.created
              sample_catalogue.rand sample_catalogue.sum sample_catalogue.chain2
              "aaaaaaaaaaaaaaaaaaaaaaaaaaaaaaaa")
    as (authChain & _ & _ & _ & _ & _ & Hcode).
  - vm_compute. reflexivity.
  - vm_compute. reflexivity.
  - discriminate.
  - reflexivity.
  - intros k c Hk. vm_compute in Hk. discriminate.
  - intros license [= <-]. vm_compute. reflexivity.
  - by rewrite Hcode.
Defined.

(** Without a blockchain service (a nil pointer, which the router never
    passes) [VerifyProductByCode] accepts the first active chain that
    carries the code as it is: neither its hash nor the status of its
    license and asset is looked at. *)
Theorem verify_without_blockchain_service code db id c :
  gorm.first_where (sql.active_chain_with_code code) (authorization_chains db)
  = Some (id, c) ->
  run (AuthorizationService.VerifyProductByCode (NewAuthorizationService None) code) db
  = (Ok (id, c), db).
Proof.
  intros Hfound. unfold AuthorizationService.VerifyProductByCode.
  rewrite run_bind, run_FirstWhere, Hfound.
  apply first_where_Some in Hfound as [Hc [_ Hactive]].
  rewrite run_bind, run_catch. unfold AuthorizationService.VerifyChain.
  cbn [blockchainService]. rewrite run_bind, run_load_chain, Hc. cbn.
  by rewrite Hactive.
Qed.

Lemma verify_without_blockchain_service_witness :
  run (AuthorizationService.VerifyProductByCode (NewAuthorizationService None) "CODE")
      (sample.on_sale 10%float 20%float 5 ApplicationStatusRevoked None)
  = (Ok (sample.chain, sample.a_chain true),
     sample.on_sale 10%float 20%float 5 ApplicationStatusRevoked None).
Proof.
  apply verify_without_blockchain_service. vm_compute. reflexivity.
Defined.
(** The hash recorded for a product is the digest in lowercase hexadecimal,
    two characters a byte: 64 characters for a SHA-256 digest, which fit the
    66 of the [blockchain_hash] column, and never the empty string that
    [VerifyChain] rejects. *)
Theorem product_record_hash_is_hex sum productID licenseID :
  exists hash,
    BlockchainService_CreateProductRecord router.blockchainService sum productID licenseID
    = Ok hash
    /\ String.length hash = (2 * length sum)%nat
    /\ string_forall is_lower_hex hash = true
    /\ (length sum = 32%nat -> String.length hash = 64%nat /\ hash <> "").
Proof.
  exists (hex.EncodeToString sum). split; [done|].
  assert (String.length (hex.EncodeToString sum) = (2 * length sum)%nat) as Hlen.
  { induction sum as [|v sum IH]; [done|]. cbn [hex.EncodeToString String.length length].
    rewrite IH. lia. }
  split; [done|]. split.
  - clear Hlen. induction sum as [|v sum IH]; [done|].
    cbn [hex.EncodeToString string_forall]. rewrite IH. by destruct v.
  - intros H32. rewrite Hlen, H32. split; [done|]. by destruct sum.
Qed.

(** * Properties of the helpers in [internal/utils] *)

(** [GenerateRandomString] of a non-negative length, on a random source
    that keeps the contract of [rand.Int] (a number below 62 or an error),
    never panics; it returns either a string of exactly that many ASCII
    letters and digits, every draw having succeeded, or the error of the
    first draw that failed. *)
Theorem random_string_is_alphanumeric rand length :
  0 <= length ->
  (forall j x, rand j = Ok x -> 0 <= x < 62) ->
  match crypto.GenerateRandomString rand length with
  | Returns (Ok s) =>
      Z.of_nat (String.length s) = length
      /\ string_forall is_alnum s = true
      /\ (forall j, (j < Z.to_nat length)%nat -> exists x, rand j = Ok x)
  | Returns (Err err) =>
      exists j, (j < Z.to_nat length)%nat /\ rand j = Err err
                /\ (forall k, (k < j)%nat -> exists x, rand k = Ok x)
  | Panics => False
  end.
Proof.
  intros Hlength Hrand. unfold crypto.GenerateRandomString.
  rewrite (proj2 (Z.ltb_ge _ _)) by done.
  pose proof (fill_spec rand 0 (Z.to_nat length) Hrand) as Hfill.
  destruct (crypto.fill rand 0 (Z.to_nat length)) as [[s|err]|]; [| |done].
  - destruct Hfill as (Hlen & Hall & Hdraws). split; [lia|]. split; [done|].
    intros j Hj. apply Hdraws. lia.
  - destruct Hfill as (j & Hj & Herr & Hbefore). exists j. split; [lia|]. split; [done|].
    intros k Hk. apply Hbefore. lia.
Qed.

Lemma random_string_is_alphanumeric_witness :
  Z.of_nat (String.length "abcde") = 5
  /\ string_forall is_alnum "abcde" = true
  /\ (forall j, (j < Z.to_nat 5)%nat -> exists x, sample_catalogue.counting j = Ok x).
Proof.
  apply (random_string_is_alphanumeric sample_catalogue.counting 5); [lia|].
  intros j x [= <-]. pose proof (Nat.mod_upper_bound j 62). lia.
Defined.

(** An API key is ["ip_"] followed by 32 ASCII letters and digits, 35
    characters in all, whenever the random source keeps the contract of
    [rand.Int]; otherwise the call returns the error of the failed draw. *)
Theorem api_key_format rand :
  (forall j x, rand j = Ok x -> 0 <= x < 62) ->
  match crypto.GenerateAPIKey rand with
  | Returns (Ok key) =>
      exists randomPart,
        key = String.append "ip_" randomPart
        /\ String.length randomPart = 32%nat
        /\ String.length key = 35%nat
        /\ string_forall is_alnum randomPart = true
  | Returns (Err err) => exists j, (j < 32)%nat /\ rand j = Err err
  | Panics => False
  end.
Proof.
  intros Hrand. unfold crypto.GenerateAPIKey.
  pose proof (GenerateRandomString_32 rand Hrand) as Hs.
  destruct (crypto.GenerateRandomString rand 32) as [[s|err]|]; [|done..].
  destruct Hs as (Hlen & Hall). exists s.
  split; [done|]. split; [done|]. split; [|done].
  change (String.length (String.append "ip_" s)) with (S (S (S (String.length s)))).
  lia.
Qed.

Lemma api_key_format_witness :
  exists randomPart,
    "ip_abcdefghijklmnopqrstuvwxyzABCDEF" = String.append "ip_" randomPart
    /\ String.length randomPart = 32%nat
    /\ String.length "ip_abcdefghijklmnopqrstuvwxyzABCDEF" = 35%nat
    /\ string_forall is_alnum randomPart = true.
Proof.
  apply (api_key_format sample_catalogue.counting).
  intros j x [= <-]. pose proof (Nat.mod_upper_bound j 62). lia.
Defined.

(** Whatever the query string holds, the pagination parameters read from
    it are in range: the page is at least 1 (and fits an [int]), the limit
    is between 1 and 100, and the order is ["asc"] or ["desc"]; a missing,
    malformed or out-of-range value is replaced by its default. *)
Theorem pagination_params_in_range c :
  let params := pagination.GetPaginationParams c in
  1 <= PaginationParams.Page params <= 2 ^ 63 - 1
  /\ 1 <= PaginationParams.Limit params <= 100
  /\ (PaginationParams.Order params = "asc" \/ PaginationParams.Order params = "desc")
  /\ (c !! "page" = None -> PaginationParams.Page params = 1)
  /\ (c !! "limit" = None -> PaginationParams.Limit params = 20)
  /\ (forall v, c !! "limit" = Some v -> (strconv.Atoi v).1 < 1 \/ 100 < (strconv.Atoi v).1 ->
                PaginationParams.Limit params = 20).
Proof.
  intros params. destruct (GetPaginationParams_range c) as (Hpage & Hlimit & Horder).
  do 3 (split; [done|]).
  unfold params, pagination.GetPaginationParams. cbv zeta.
  cbn [PaginationParams.Page PaginationParams.Limit PaginationParams.Order].
  split_and!.
  - intros Hnone. unfold gin.DefaultQuery. rewrite Hnone. done.
  - intros Hnone. unfold gin.DefaultQuery. rewrite Hnone. done.
  - intros v Hv Hbad. unfold gin.DefaultQuery. rewrite Hv.
    change (default "20" (Some v)) with v.
    destruct Hbad as [Hbad|Hbad].
    + by rewrite (proj2 (Z.ltb_lt _ _) Hbad).
    + rewrite (proj2 (Z.ltb_lt _ _) Hbad). by rewrite orb_true_r.
Qed.

(** The [ORDER BY] clause of a paginated list is never taken from the query
    string as it is: the sort column is one of the endpoint's allowed
    columns or [created_at], and the direction is [asc] or [desc]. *)
Theorem sort_clause_is_allow_listed c db allowedSortFields :
  exists sortField order,
    pagination.ApplySort db (pagination.GetPaginationParams c) allowedSortFields
    = Query.with_Order db (String.append sortField (String.append " " order))
    /\ (sortField ∈ allowedSortFields \/ sortField = "created_at")
    /\ (order = "asc" \/ order = "desc").
Proof.
  unfold pagination.ApplySort.
  destruct (GetPaginationParams_range c) as (_ & _ & Horder).
  set (params := pagination.GetPaginationParams c) in *.
  destruct (existsb _ allowedSortFields) eqn:Hvalid; cbn [negb].
  - exists (PaginationParams.Sort params), (PaginationParams.Order params).
    split; [done|]. split; [|done]. left.
    apply existsb_exists in Hvalid as (field & Hin & ->%String.eqb_eq).
    by apply list_elem_of_In.
  - exists "created_at", (PaginationParams.Order params). auto.
Qed.

Lemma sort_clause_is_allow_listed_witness :
  exists sortField order,
    pagination.ApplySort Query.empty
      (pagination.GetPaginationParams
         {[ "sort" := "price; DROP TABLE users"; "order" := "up" ]})
      GetUserLicenses_allowedSortFields
    = Query.with_Order Query.empty (String.append sortField (String.append " " order))
    /\ (sortField ∈ GetUserLicenses_allowedSortFields \/ sortField = "created_at")
    /\ (order = "asc" \/ order = "desc").
Proof.
  exact (sort_clause_is_allow_listed
           {[ "sort" := "price; DROP TABLE users"; "order" := "up" ]}
           Query.empty GetUserLicenses_allowedSortFields).
Defined.

(** The window of a paginated list starts at [(page - 1) * limit] rows and
    holds [limit] rows, for every page up to 92233720368547758; beyond that
    the multiplication wraps around, and the largest page an [int] can hold
    gives a negative offset. *)
Theorem pagination_window c db :
  let params := pagination.GetPaginationParams c in
  (PaginationParams.Page params <= 92233720368547758 ->
   pagination.ApplyPagination db params
   = Query.mk (Some ((PaginationParams.Page params - 1) * PaginationParams.Limit params))
       (Some (PaginationParams.Limit params)) (Query.Order db)
   /\ 0 <= (PaginationParams.Page params - 1) * PaginationParams.Limit params)
  /\ Query.Offset
       (pagination.ApplyPagination Query.empty
          (pagination.GetPaginationParams {[ "page" := "9223372036854775807" ]}))
     = Some (-40).
Proof.
  intros params. split; [|by vm_compute].
  intros Hpage.
  destruct (GetPaginationParams_range c) as (Hp & Hl & _). fold params in Hp, Hl.
  assert (0 <= (PaginationParams.Page params - 1) * PaginationParams.Limit params
          <= 92233720368547757 * 100) as Hoffset by nia.
  split; [|lia]. unfold pagination.ApplyPagination, Query.with_Limit, Query.with_Offset.
  cbn [Query.Offset Query.Limit Query.Order]. do 2 f_equal.
  unfold wrap_int.
  rewrite (Z.mod_small (PaginationParams.Page params - 1 + 2 ^ 63)) by lia.
  replace (PaginationParams.Page params - 1 + 2 ^ 63 - 2 ^ 63)
    with (PaginationParams.Page params - 1) by lia.
  rewrite Z.mod_small by lia. lia.
Qed.

Lemma pagination_window_witness :
  pagination.ApplyPagination Query.empty
    (pagination.GetPaginationParams {[ "page" := "3"; "limit" := "25" ]})
  = Query.mk (Some 50) (Some 25) None.
Proof.
  destruct (pagination_window {[ "page" := "3"; "limit" := "25" ]} Query.empty)
    as [Hwindow _].
  destruct Hwindow as [-> _]; [by vm_compute|]. by vm_compute.
Defined.

(** * Properties of the admin calls *)

(** An asset is open for licensing only once an admin has approved it:
    while it is pending every application for it is refused, after
    [ApproveIPAsset] the application is accepted, and after [RejectIPAsset]
    it is still refused and the asset can no longer be approved. *)
Theorem approval_opens_licensing db newID now applicantID req ipAsset licenseTerms :
  ip_assets db !! ApplyLicenseRequest.IPAssetID req = Some ipAsset ->
  IPAsset.VerificationStatus ipAsset = VerificationStatusPending ->
  apply_admissible
    (with_ip_assets db
       (<[ApplyLicenseRequest.IPAssetID req :=
            AdminService.with_VerificationStatus ipAsset VerificationStatusApproved]>
          (ip_assets db)))
    applicantID req
    (AdminService.with_VerificationStatus ipAsset VerificationStatusApproved) licenseTerms ->
  ~ has_open_application db (ApplyLicenseRequest.IPAssetID req) applicantID ->
  license_applications db !! newID = None ->
  (0 < LicenseTerms.MaxLicenses licenseTerms ->
   approved_count db (ApplyLicenseRequest.LicenseTermsID req)
   < LicenseTerms.MaxLicenses licenseTerms) ->
  let apply := LicenseService.ApplyForLicense newID now applicantID req in
  run apply db = (Err (errors_New "IP asset is not approved for licensing"), db)
  /\ (forall adminID message db1,
        run (AdminService.ApproveIPAsset (ApplyLicenseRequest.IPAssetID req) adminID message)
            db = (Ok tt, db1) ->
        is_Ok (run apply db1).1 = true)
  /\ (forall adminID reason message db1,
        run (AdminService.RejectIPAsset (ApplyLicenseRequest.IPAssetID req) adminID reason
               message) db = (Ok tt, db1) ->
        run apply db1 = (Err (errors_New "IP asset is not approved for licensing"), db1)
        /\ forall adminID' message',
             run (AdminService.ApproveIPAsset (ApplyLicenseRequest.IPAssetID req) adminID'
                    message') db1
             = (Err (errors_New "IP asset is not pending verification"), db1)).
Proof.
  intros Hasset Hpending Hadm Hopen Hfresh Hcap apply.
  pose proof Hadm as (Hvalid & (u & Hu & Hactive & Htype) & _).
  cbn [users with_ip_assets] in Hu.
  assert (forall db' a,
            users db' = users db ->
            ip_assets db' !! ApplyLicenseRequest.IPAssetID req = Some a ->
            IPAsset.VerificationStatus a <> VerificationStatusApproved ->
            run apply db'
            = (Err (errors_New "IP asset is not approved for licensing"), db')) as Hrefused.
  { intros db' a Husers Ha Hstatus. unfold apply, LicenseService.ApplyForLicense.
    rewrite run_bind, run_reject_if, Hvalid. cbn [negb].
    rewrite run_bind, run_First, Husers, Hu.
    rewrite run_bind, run_reject_if, bool_decide_eq_false_2 by auto.
    rewrite run_bind, run_reject_if, bool_decide_eq_false_2 by tauto.
    rewrite run_bind, run_First, Ha.
    by rewrite run_bind, run_reject_if, bool_decide_eq_true_2. }
  split_and!.
  - apply (Hrefused db ipAsset); [done|done|]. by rewrite Hpending.
  - intros adminID message db1. rewrite ApproveIPAsset_run, Hasset.
    rewrite bool_decide_eq_false_2 by auto. intros [= <-].
    unfold apply.
    rewrite (ApplyForLicense_admissible _ _ _ _ _
               (AdminService.with_VerificationStatus ipAsset VerificationStatusApproved)
               licenseTerms).
    2:{ exact Hadm. }
    rewrite (proj2 (open_application_None _ _ _)) by done.
    change (approved_count (with_ip_assets db _) ?t) with (approved_count db t).
    cbn [license_applications with_ip_assets]. rewrite Hfresh.
    destruct (0 <? _) eqn:Hpos; [|done]. apply Z.ltb_lt in Hpos.
    by rewrite (proj2 (Z.leb_gt _ _)) by auto.
  - intros adminID reason message db1. rewrite RejectIPAsset_run, Hasset.
    rewrite bool_decide_eq_false_2 by auto. intros [= <-]. split.
    + eapply Hrefused; [done|cbn; apply lookup_insert_eq|done].
    + intros adminID' message'. rewrite ApproveIPAsset_run. cbn. rewrite lookup_insert_eq.
      by rewrite bool_decide_eq_true_2.
Qed.

Lemma approval_opens_licensing_witness :
  run (LicenseService.ApplyForLicense 32%N 1000 sample.licensee sample.apply_request)
      sample_catalogue.unverified
  = (Err (errors_New "IP asset is not approved for licensing"), sample_catalogue.unverified).
Proof.
  destruct (approval_opens_licensing sample_catalogue.unverified 32%N 1000 sample.licensee
              sample.apply_request (IPAsset.mk sample.creator VerificationStatusPending)
              (sample.the_terms 20%float false 0))
    as [Hbefore _].
  - reflexivity.
  - reflexivity.
  - unfold apply_admissible. split_and!; try reflexivity; try discriminate.
    eexists. split; [reflexivity|]. split; [reflexivity|]. by left.
  - intros (k & a & Hk & _). vm_compute in Hk. discriminate.
  - reflexivity.
  - cbn. lia.
  - exact Hbefore.
Defined.

(** A refund is possible for a completed transaction only and is final: the
    call marks the transaction refunded and changes no other transaction and
    no product (the units sold are not returned to the inventory), a second
    refund of the transaction is refused, and so is the refund of a
    transaction that is pending, failed or unknown. *)
Theorem refund_effect transactionID adminID reason db :
  (forall e db', run (AdminService.ProcessRefund transactionID adminID reason) db
                 = (Err e, db') -> db' = db)
  /\ (forall db',
        run (AdminService.ProcessRefund transactionID adminID reason) db = (Ok tt, db')
        <-> exists t,
              transactions db !! transactionID = Some t
              /\ Transaction.Status t = TransactionStatusCompleted
              /\ db' = with_transactions db
                         (<[transactionID := Transaction.with_Status t
                                               TransactionStatusRefunded]>
                            (transactions db)))
  /\ (forall db',
        run (AdminService.ProcessRefund transactionID adminID reason) db = (Ok tt, db') ->
        products db' = products db
        /\ forall adminID' reason',
             run (AdminService.ProcessRefund transactionID adminID' reason') db'
             = (Err (errors_New "can only refund completed transactions"), db')).
Proof.
  rewrite ProcessRefund_run. split_and!.
  - intros e db'. by repeat case_match; intros [= <- <-].
  - intros db'. destruct (transactions db !! transactionID) as [t|].
    2:{ split; [done|]. by intros (? & ? & _). }
    destruct (decide (Transaction.Status t = TransactionStatusCompleted)) as [Hs|Hs].
    + rewrite bool_decide_eq_false_2 by auto. split.
      * intros [= <-]. by exists t.
      * intros (? & ? & _ & ->). by simplify_eq.
    + rewrite bool_decide_eq_true_2 by done. split; [done|].
      intros (? & ? & ? & _). by simplify_eq.
  - intros db'. destruct (transactions db !! transactionID) as [t|]; [|done].
    case_bool_decide; [done|]. intros [= <-]. split; [done|].
    intros adminID' reason'. rewrite ProcessRefund_run. cbn. rewrite lookup_insert_eq.
    by rewrite bool_decide_eq_true_2.
Qed.

Lemma refund_effect_witness :
  run (AdminService.ProcessRefund sample.transaction sample.admin "twice")
      (run (AdminService.ProcessRefund sample.transaction sample.admin "damaged")
         sample_catalogue.sold).2
  = (Err (errors_New "can only refund completed transactions"),
     (run (AdminService.ProcessRefund sample.transaction sample.admin "damaged")
        sample_catalogue.sold).2).
Proof.
  destruct (refund_effect sample.transaction sample.admin "damaged" sample_catalogue.sold)
    as (_ & _ & Hfinal).
  destruct (Hfinal (run (AdminService.ProcessRefund sample.transaction sample.admin "damaged")
                      sample_catalogue.sold).2) as [_ Hagain].
  - vm_compute. reflexivity.
  - apply Hagain.
Defined.

(** Refunding the only completed sale of a product makes the product
    deletable again. *)
Theorem refund_reopens_deletion s transactionID adminID reason db db1 productID product :
  run (AdminService.ProcessRefund transactionID adminID reason) db = (Ok tt, db1) ->
  products db !! productID = Some product ->
  (forall k t, transactions db !! k = Some t -> sql_completed_sale productID k t ->
               k = transactionID) ->
  has_completed_sale db productID ->
  run (ProductService_DeleteProduct s productID (Product.CreatorID product)) db
  = (Err (errors_New "cannot delete product with completed sales"), db)
  /\ run (ProductService_DeleteProduct s productID (Product.CreatorID product)) db1
     = (Ok tt, with_products db1 (delete productID (products db1))).
Proof.
  intros Hrefund Hproduct Honly Hsale.
  rewrite ProcessRefund_run in Hrefund.
  destruct (transactions db !! transactionID) as [t|] eqn:Ht; [|done].
  case_bool_decide; [done|]. injection Hrefund as <-. split.
  - by apply delete_product_completed.
  - rewrite DeleteProduct_run. cbn. rewrite Hproduct, bool_decide_eq_false_2 by auto.
    destruct (0 <? _) eqn:Hcount; [|done]. exfalso.
    apply Z.ltb_lt, count_pos_inv in Hcount as (k & t' & Hk & [Hp Hs]).
    destruct (decide (k = transactionID)) as [->|Hne].
    + rewrite lookup_insert_eq in Hk. injection Hk as <-. cbn in Hs. discriminate.
    + rewrite lookup_insert_ne in Hk by done. apply Hne. eapply Honly; [done|by split].
Qed.

Lemma refund_reopens_deletion_witness :
  is_Ok (run (ProductService_DeleteProduct router_productService sample.product
                sample.licensee)
           (run (AdminService.ProcessRefund sample.transaction sample.admin "damaged")
              sample_catalogue.sold).2).1
  = true.
Proof.
  destruct (refund_reopens_deletion router_productService sample.transaction sample.admin
              "damaged" sample_catalogue.sold
              (run (AdminService.ProcessRefund sample.transaction sample.admin "damaged")
                 sample_catalogue.sold).2
              sample.product
              (Product.mk sample.licensee sample.application 10%float 3
                 ProductStatusActive 2))
    as [_ Hafter].
  - vm_compute. reflexivity.
  - reflexivity.
  - intros k t Hk _. unfold sample_catalogue.sold in Hk. cbn [transactions with_transactions] in Hk.
    by apply lookup_singleton_Some in Hk as [<- _].
  - exists sample.transaction, (sample_catalogue.a_sale TransactionStatusCompleted).
    split; [reflexivity|]. by split.
  - cbn [Product.CreatorID] in Hafter. by rewrite Hafter.
Defined.

